(** * Optic inventory collector: shallow embedding of [optic_inventory0.3.py]

    The development follows the Python script function by function:
    - Python [str] operations used by the script ([lower], [in], [split]);
    - the values built by [json.loads] and the ordered [dict] holding the
      port records;
    - the regular expression of the free-text inventory parser, with the
      backtracking order of [re];
    - [parse_inventory_output], [get_interface_status], [process_device]
      and the aggregation loop of [main];
    - the report files of [main], and [iosxr_apply_config.py]: its
      configuration reader, backup, apply step and [main].

    Modelling conventions.
    - A Python [str] whose code points are all below 256 is a Rocq [string],
      one [ascii] per code point.
    - [print] is modelled where it writes text that comes from a device,
      the port records shown by the loop of [main]: it may raise there.
      The other [print] calls write fixed text, counts, device names and
      error messages, and are taken to return.
    - A text file of [iosxr_apply_config.py] is written by [open], which
      may raise, and by writes, each of which may raise and leave the
      file partly written. A CSV file is seen as the rows handed to its
      writer, and only opening it may raise.
    - The remote device is seen through Netmiko only: what it answers may
      depend on every call made earlier on the same session. *)

From Stdlib Require Import String Ascii ZArith NArith Bool Lia Permutation.
From Stdlib Require Import DecimalString.
From stdpp Require Import gmap strings list fin_maps.

Open Scope string_scope.
Set Warnings "-register-all,-clear-no-such-hyp".

(** ** Python [str] operations *)

Module PyStr.

(** [str.lower] on one code point below 256: [A-Z] and the Latin-1
    capitals U+00C0..U+00DE (U+00D7, the multiplication sign, apart). *)
Definition lower_char (c : ascii) : ascii :=
  let n := N_of_ascii c in
  if ((65 <=? n) && (n <=? 90))%N
     || ((192 <=? n) && (n <=? 222) && negb (n =? 215))%N
  then ascii_of_N (n + 32)
  else c.

Fixpoint lower (s : string) : string :=
  match s with
  | EmptyString => EmptyString
  | String c s' => String (lower_char c) (lower s')
  end.

(** [s.startswith(p)] *)
Fixpoint startswith (p s : string) : bool :=
  match p, s with
  | EmptyString, _ => true
  | String _ _, EmptyString => false
  | String a p', String b s' => Ascii.eqb a b && startswith p' s'
  end.

(** [needle in hay] *)
Fixpoint contains (needle hay : string) : bool :=
  startswith needle hay ||
  match hay with
  | EmptyString => false
  | String _ hay' => contains needle hay'
  end.

(** [s.split('\n')]: the pieces between line feeds, at least one piece. *)
Fixpoint split_lf (s : string) : list string :=
  match s with
  | EmptyString => [EmptyString]
  | String c s' =>
      if Ascii.eqb c "010"%char then EmptyString :: split_lf s'
      else match split_lf s' with
           | l :: ls => String c l :: ls
           | [] => [String c EmptyString]
           end
  end.

(** [s[len(p):]] when [s] starts with [p]. *)
Fixpoint strip_prefix (p s : string) : option string :=
  match p, s with
  | EmptyString, _ => Some s
  | String _ _, EmptyString => None
  | String a p', String b s' =>
      if Ascii.eqb a b then strip_prefix p' s' else None
  end.

Fixpoint rev_append (s acc : string) : string :=
  match s with
  | EmptyString => acc
  | String c s' => rev_append s' (String c acc)
  end.

(** [str(z)] for a Python [int]. *)
Definition of_Z (z : Z) : string := NilEmpty.string_of_int (Z.to_int z).

End PyStr.

Notation "a 'in_str' b" := (PyStr.contains a b) (at level 70, no associativity).

Definition LF : string := String "010"%char EmptyString.
(** The double quote character, as a string. *)
Definition DQ : string := String "034"%char EmptyString.

(** ** Python values, exceptions and dictionaries *)

(** The values [json.loads] builds from a JSON text whose numbers are
    integers. A JSON object is a [dict] with [str] keys: its items in
    insertion order, each key once. *)
Inductive pyval : Type :=
| PyNone
| PyBool (b : bool)
| PyInt (z : Z)
| PyStr (s : string)
| PyList (l : list pyval)
| PyDict (d : list (string * pyval)).

(** [type(v).__name__] *)
Definition type_name (v : pyval) : string :=
  match v with
  | PyNone => "NoneType"
  | PyBool _ => "bool"
  | PyInt _ => "int"
  | PyStr _ => "str"
  | PyList _ => "list"
  | PyDict _ => "dict"
  end.

(** [bool(v)] *)
Definition truthy (v : pyval) : bool :=
  match v with
  | PyNone => false
  | PyBool b => b
  | PyInt z => negb (z =? 0)%Z
  | PyStr s => negb (String.eqb s "")
  | PyList l => match l with [] => false | _ => true end
  | PyDict d => match d with [] => false | _ => true end
  end.

(** The exception classes the script can meet. [OtherException] stands for
    any other subclass of [Exception], such as those Netmiko raises.
    [exn_str] is [str(e)]; for the exceptions raised by the interpreter it
    is CPython's wording. *)
Inductive exn_class : Type :=
| JSONDecodeError
| AttributeError
| TypeError
| ValueError
| UnicodeEncodeError
| OtherException.

Record exn : Type := Raise { exn_cls : exn_class; exn_str : string }.

Definition is_JSONDecodeError (e : exn) : bool :=
  match exn_cls e with JSONDecodeError => true | _ => false end.

(** A computation that returns or raises. *)
Definition result (A : Type) : Type := exn + A.

Definition no_attribute_get (v : pyval) : exn :=
  Raise AttributeError ("'" ++ type_name v ++ "' object has no attribute 'get'").

Definition not_iterable (v : pyval) : exn :=
  Raise TypeError ("'" ++ type_name v ++ "' object is not iterable").

Definition unhashable (v : pyval) : exn :=
  Raise TypeError ("unhashable type: '" ++ type_name v ++ "'").

(** [d.get(key, default)] on the items of a [dict] with [str] keys. *)
Fixpoint items_get (d : list (string * pyval)) (key : string) (default : pyval) : pyval :=
  match d with
  | [] => default
  | (k, v) :: d' => if String.eqb k key then v else items_get d' key default
  end.

(** [v.get(key, default)]: only a [dict] has the method. *)
Definition py_get (v : pyval) (key : string) (default : pyval) : result pyval :=
  match v with
  | PyDict d => inr (items_get d key default)
  | _ => inl (no_attribute_get v)
  end.

(** [iter(v)], as the list of the values a [for] loop visits. *)
Definition py_iter (v : pyval) : result (list pyval) :=
  match v with
  | PyList l => inr l
  | PyDict d => inr (map (fun kv => PyStr (fst kv)) d)
  | PyStr s => inr (map (fun c => PyStr (String c EmptyString)) (list_ascii_of_string s))
  | _ => inl (not_iterable v)
  end.

(** Hashable values, as used for the keys of [optics_info]. *)
Inductive pykey : Type :=
| KNone
| KBool (b : bool)
| KInt (z : Z)
| KStr (s : string).

(** [hash(v)] succeeds on scalars and raises [TypeError] on containers. *)
Definition as_key (v : pyval) : result pykey :=
  match v with
  | PyNone => inr KNone
  | PyBool b => inr (KBool b)
  | PyInt z => inr (KInt z)
  | PyStr s => inr (KStr s)
  | PyList _ | PyDict _ => inl (unhashable v)
  end.

(** [k1 == k2] on keys: [True == 1] and [False == 0]. *)
Definition key_eqb (k1 k2 : pykey) : bool :=
  match k1, k2 with
  | KNone, KNone => true
  | KStr a, KStr b => String.eqb a b
  | KBool a, KBool b => Bool.eqb a b
  | KInt a, KInt b => (a =? b)%Z
  | KBool a, KInt b | KInt b, KBool a => ((if a then 1 else 0) =? b)%Z
  | _, _ => false
  end.

(** What [hash] and [==] see of a key: its number, its text, or [None]. *)
Definition key_norm (k : pykey) : unit + Z + string :=
  match k with
  | KNone => inl (inl tt)
  | KBool b => inl (inr (if b then 1 else 0)%Z)
  | KInt z => inl (inr z)
  | KStr s => inr s
  end.

(** [f"{k}"] *)
Definition key_format (k : pykey) : string :=
  match k with
  | KNone => "None"
  | KBool true => "True"
  | KBool false => "False"
  | KInt z => PyStr.of_Z z
  | KStr s => s
  end.

(** A [dict] in insertion order. *)
Module Dict.
Section ordered.
Context {V : Type}.

(** [d[k] = v]: an equal key keeps its place and its first spelling. *)
Fixpoint set (k : pykey) (v : V) (d : list (pykey * V)) : list (pykey * V) :=
  match d with
  | [] => [(k, v)]
  | (k', v') :: d' =>
      if key_eqb k' k then (k', v) :: d' else (k', v') :: set k v d'
  end.

Fixpoint get (d : list (pykey * V)) (k : pykey) : option V :=
  match d with
  | [] => None
  | (k', v') :: d' => if key_eqb k' k then Some v' else get d' k
  end.

(** [list(d.keys())] *)
Definition keys (d : list (pykey * V)) : list pykey := map fst d.

(** [bool(d)] *)
Definition nonempty (d : list (pykey * V)) : bool :=
  match d with [] => false | _ => true end.
End ordered.
End Dict.

(** One entry of [optics_info]: the five-key dict built by the parser. *)
Record port_record : Type := PortRecord {
  Description : pyval;
  PID : pyval;
  VID : pyval;
  SN : pyval;
  Operational_State : string
}.

Definition set_Operational_State (status : string) (r : port_record) : port_record :=
  {| Description := Description r; PID := PID r; VID := VID r; SN := SN r;
     Operational_State := status |}.

(** [optics_info]: port name to record. *)
Abbreviation optics := (list (pykey * port_record)).

(** ** The regular expression of the free-text parser

    [re] tries a greedy repetition at its longest first and gives back one
    character at a time; the first way to match the whole pattern wins. The
    pattern of the script only repeats character classes, so a pattern is a
    list of literals and class repetitions. *)

Module Re.

Inductive cls : Type :=
| Dot        (* [.]  : anything but a line feed *)
| Space      (* [\s] *)
| NonSpace.  (* [\S] *)

(** [\s] on code points below 256: TAB LF VT FF CR, FS GS RS US, space,
    NEL and the no-break space. *)
Definition isspace (c : ascii) : bool :=
  let n := N_of_ascii c in
  (((9 <=? n) && (n <=? 13)) || ((28 <=? n) && (n <=? 32))
   || (n =? 133) || (n =? 160))%N.

Definition cls_ok (k : cls) (c : ascii) : bool :=
  match k with
  | Dot => negb (Ascii.eqb c "010"%char)
  | Space => isspace c
  | NonSpace => negb (isspace c)
  end.

Inductive item : Type :=
| Lit (s : string)              (* literal text *)
| Rep (k : cls) (lo : nat)      (* [k*] when [lo = 0], [k+] when [lo = 1] *)
| Cap (k : cls) (lo : nat).     (* the same inside a capturing group *)

Section greedy.
Context {R : Type} (k : cls) (cont : string -> string -> option R).

(** Greedy repetition of class [k], at least [lo] more characters:
    [taken] holds the characters consumed so far, last first. The
    continuation gets the text matched and the rest of the input. *)
Fixpoint greedy (lo : nat) (taken : string) (s : string) : option R :=
  let stop := match lo with
              | O => cont (PyStr.rev_append taken EmptyString) s
              | S _ => None
              end in
  match s with
  | EmptyString => stop
  | String c s' =>
      if cls_ok k c then
        match greedy (pred lo) (String c taken) s' with
        | Some r => Some r
        | None => stop
        end
      else stop
  end.
End greedy.

(** Match pattern [p] at the start of [s]: the groups and what is left
    of the input. *)
Fixpoint match_here (p : list item) (s : string) : option (list string * string) :=
  match p with
  | [] => Some ([], s)
  | Lit l :: p' =>
      match PyStr.strip_prefix l s with
      | Some s' => match_here p' s'
      | None => None
      end
  | Rep k lo :: p' => greedy k (fun _ rest => match_here p' rest) lo EmptyString s
  | Cap k lo :: p' =>
      greedy k (fun txt rest =>
                  match match_here p' rest with
                  | Some (gs, rest') => Some (txt :: gs, rest')
                  | None => None
                  end) lo EmptyString s
  end.

(** [re.finditer(p, s)], as the list of [match.groups()]. A match is
    looked for at each position from left to right; after a match the
    search goes on where the match ended ([skip] counts the characters of
    the last match still to be passed over). *)
Fixpoint finditer_from (p : list item) (skip : nat) (s : string) : list (list string) :=
  match s with
  | EmptyString =>
      match skip, match_here p EmptyString with
      | O, Some (gs, _) => [gs]
      | _, _ => []
      end
  | String _ s' =>
      match skip with
      | S n => finditer_from p n s'
      | O =>
          match match_here p s with
          | Some (gs, rest) =>
              gs :: finditer_from p (String.length s - String.length rest - 1) s'
          | None => finditer_from p 0 s'
          end
      end
  end.

Definition finditer (p : list item) (s : string) : list (list string) :=
  finditer_from p 0 s.

End Re.

(** The pattern of [parse_inventory_output]: the five groups are the name
    and the description (any run of characters of one line, between double
    quotes) and PID, VID and SN (runs of non-space characters); [\s+]
    stands between the name, the description and [PID:], and [\s*] on both
    sides of the two commas. *)
Definition pattern : list Re.item :=
  Eval cbv in
  [ Re.Lit ("NAME: " ++ DQ); Re.Cap Re.Dot 0; Re.Lit (DQ ++ ",");
    Re.Rep Re.Space 1; Re.Lit ("DESCR: " ++ DQ); Re.Cap Re.Dot 0; Re.Lit DQ;
    Re.Rep Re.Space 1; Re.Lit "PID: "; Re.Cap Re.NonSpace 1;
    Re.Rep Re.Space 0; Re.Lit ","; Re.Rep Re.Space 0;
    Re.Lit "VID: "; Re.Cap Re.NonSpace 1;
    Re.Rep Re.Space 0; Re.Lit ","; Re.Rep Re.Space 0;
    Re.Lit "SN: "; Re.Cap Re.NonSpace 1 ].

(** ** A reference decoder for [json.loads]

    [json.loads] belongs to the Python library. The script is modelled
    against any decoder (class [JSON] below); this one is used to run the
    script on concrete texts. It reads the JSON texts whose numbers are
    integers and whose strings use no [\u] escape, and builds what
    [json.loads] builds from them; it does not cover the other texts
    [json.loads] accepts. *)

Module JsonRef.

Inductive token : Type :=
| TLBrace | TRBrace | TLBrack | TRBrack | TColon | TComma
| TString (s : string)
| TNumber (z : Z)
| TTrue | TFalse | TNull.

Inductive mode : Type :=
| MNormal
| MStr (acc : string)                 (* inside a string, characters last first *)
| MEsc (acc : string)                 (* after a backslash *)
| MSign                               (* after [-] *)
| MNum (neg : bool) (n : N)           (* inside the digits of a number *)
| MZero (neg : bool)                  (* after a leading [0] *)
| MWord (rest : string) (t : token).  (* inside [true], [false], [null] *)

Definition is_ws (c : ascii) : bool :=
  let n := N_of_ascii c in ((n =? 32) || (n =? 9) || (n =? 10) || (n =? 13))%N.

Definition digit (c : ascii) : option N :=
  let n := N_of_ascii c in
  if ((48 <=? n) && (n <=? 57))%N then Some (n - 48)%N else None.

Definition number (neg : bool) (n : N) : token :=
  TNumber (if neg then - Z.of_N n else Z.of_N n)%Z.

(** One character read in mode [MNormal]: the tokens completed and the
    next mode, or [None] on a character that starts no token. *)
Definition start (c : ascii) : option (list token * mode) :=
  if is_ws c then Some ([], MNormal) else
  match digit c with
  | Some 0%N => Some ([], MZero false)
  | Some d => Some ([], MNum false d)
  | None =>
      match c with
      | "{"%char => Some ([TLBrace], MNormal)
      | "}"%char => Some ([TRBrace], MNormal)
      | "["%char => Some ([TLBrack], MNormal)
      | "]"%char => Some ([TRBrack], MNormal)
      | ":"%char => Some ([TColon], MNormal)
      | ","%char => Some ([TComma], MNormal)
      | "034"%char => Some ([], MStr EmptyString)
      | "-"%char => Some ([], MSign)
      | "t"%char => Some ([], MWord "rue" TTrue)
      | "f"%char => Some ([], MWord "alse" TFalse)
      | "n"%char => Some ([], MWord "ull" TNull)
      | _ => None
      end
  end.

Definition after (t : token) (c : ascii) : option (list token * mode) :=
  match start c with
  | Some (ts, m) => Some (t :: ts, m)
  | None => None
  end.

Definition escape (c : ascii) : option ascii :=
  match c with
  | "034"%char => Some "034"%char
  | "\"%char => Some "\"%char
  | "/"%char => Some "/"%char
  | "b"%char => Some "008"%char
  | "f"%char => Some "012"%char
  | "n"%char => Some "010"%char
  | "r"%char => Some "013"%char
  | "t"%char => Some "009"%char
  | _ => None
  end.

Definition step (m : mode) (c : ascii) : option (list token * mode) :=
  match m with
  | MNormal => start c
  | MStr acc =>
      if Ascii.eqb c "034"%char then
        Some ([TString (PyStr.rev_append acc EmptyString)], MNormal)
      else if Ascii.eqb c "\"%char then Some ([], MEsc acc)
      else if (N_of_ascii c <? 32)%N then None
      else Some ([], MStr (String c acc))
  | MEsc acc =>
      match escape c with
      | Some c' => Some ([], MStr (String c' acc))
      | None => None
      end
  | MSign =>
      match digit c with
      | Some 0%N => Some ([], MZero true)
      | Some d => Some ([], MNum true d)
      | None => None
      end
  | MNum neg n =>
      match digit c with
      | Some d => Some ([], MNum neg (10 * n + d)%N)
      | None =>
          match c with
          | "."%char | "e"%char | "E"%char => None
          | _ => after (number neg n) c
          end
      end
  | MZero neg =>
      match digit c with
      | Some _ => None
      | None =>
          match c with
          | "."%char | "e"%char | "E"%char => None
          | _ => after (number neg 0) c
          end
      end
  | MWord rest t =>
      match rest with
      | String c' rest' =>
          if Ascii.eqb c c' then
            match rest' with
            | EmptyString => Some ([t], MNormal)
            | _ => Some ([], MWord rest' t)
            end
          else None
      | EmptyString => None
      end
  end.

Fixpoint lex (m : mode) (s : string) : option (list token) :=
  match s with
  | EmptyString =>
      match m with
      | MNormal => Some []
      | MNum neg n => Some [number neg n]
      | MZero neg => Some [number neg 0]
      | _ => None
      end
  | String c s' =>
      match step m c with
      | Some (ts, m') =>
          match lex m' s' with
          | Some ts' => Some (ts ++ ts')%list
          | None => None
          end
      | None => None
      end
  end.

(** [d[k] = v] while an object is read: a repeated key keeps its place
    and takes the last value. *)
Fixpoint put (k : string) (v : pyval) (d : list (string * pyval)) : list (string * pyval) :=
  match d with
  | [] => [(k, v)]
  | (k', v') :: d' =>
      if String.eqb k' k then (k', v) :: d' else (k', v') :: put k v d'
  end.

(** The containers still open. *)
Inductive frame : Type :=
| FList (acc : list pyval)                          (* elements, last first *)
| FDict (acc : list (string * pyval)) (key : string). (* items, and the key awaiting its value *)

Inductive pstate : Type :=
| PValue (stk : list frame)                               (* a value is expected *)
| PValueOrEnd (stk : list frame)                          (* after [[] *)
| PKeyOrEnd (stk : list frame)                            (* after [{] *)
| PKey (acc : list (string * pyval)) (stk : list frame)   (* after [,] in an object *)
| PColon (acc : list (string * pyval)) (key : string) (stk : list frame)
| PAfterElem (acc : list pyval) (stk : list frame)        (* [,] or []] *)
| PAfterItem (acc : list (string * pyval)) (stk : list frame) (* [,] or [}] *)
| PDone (v : pyval).

(** A value is complete: it goes into the innermost open container. *)
Definition complete (v : pyval) (stk : list frame) : pstate :=
  match stk with
  | [] => PDone v
  | FList acc :: stk' => PAfterElem (v :: acc) stk'
  | FDict acc key :: stk' => PAfterItem (put key v acc) stk'
  end.

Definition value (t : token) (stk : list frame) : option pstate :=
  match t with
  | TLBrace => Some (PKeyOrEnd stk)
  | TLBrack => Some (PValueOrEnd stk)
  | TString s => Some (complete (PyStr s) stk)
  | TNumber z => Some (complete (PyInt z) stk)
  | TTrue => Some (complete (PyBool true) stk)
  | TFalse => Some (complete (PyBool false) stk)
  | TNull => Some (complete PyNone stk)
  | TRBrace | TRBrack | TColon | TComma => None
  end.

Definition pstep (st : pstate) (t : token) : option pstate :=
  match st, t with
  | PValue stk, _ => value t stk
  | PValueOrEnd stk, TRBrack => Some (complete (PyList []) stk)
  | PValueOrEnd stk, _ => value t (FList [] :: stk)
  | PKeyOrEnd stk, TRBrace => Some (complete (PyDict []) stk)
  | PKeyOrEnd stk, TString k => Some (PColon [] k stk)
  | PKey acc stk, TString k => Some (PColon acc k stk)
  | PColon acc k stk, TColon => Some (PValue (FDict acc k :: stk))
  | PAfterElem acc stk, TComma => Some (PValue (FList acc :: stk))
  | PAfterElem acc stk, TRBrack => Some (complete (PyList (rev acc)) stk)
  | PAfterItem acc stk, TComma => Some (PKey acc stk)
  | PAfterItem acc stk, TRBrace => Some (complete (PyDict acc) stk)
  | _, _ => None
  end.

Fixpoint parse (st : pstate) (ts : list token) : option pyval :=
  match ts with
  | [] => match st with PDone v => Some v | _ => None end
  | t :: ts' =>
      match pstep st t with
      | Some st' => parse st' ts'
      | None => None
      end
  end.

Definition loads (s : string) : result pyval :=
  match lex MNormal s with
  | Some ts =>
      match parse (PValue []) ts with
      | Some v => inr v
      | None => inl (Raise JSONDecodeError "Expecting value")
      end
  | None => inl (Raise JSONDecodeError "Expecting value")
  end.

End JsonRef.

(** [json.loads], as the script sees it: it returns a value or raises. *)
Class JSON : Type := { json_loads : string -> result pyval }.

Definition json_ref : JSON := {| json_loads := JsonRef.loads |}.

(** ** State and exceptions

    A statement runs in a state [S], changes it, and returns or raises.
    What was done to the state before an exception stays done. *)

Definition SE (S A : Type) : Type := S -> result A * S.

Definition ret {S A : Type} (a : A) : SE S A := fun s => (inr a, s).

Definition raise {S A : Type} (e : exn) : SE S A := fun s => (inl e, s).

Definition bind {S A B : Type} (m : SE S A) (f : A -> SE S B) : SE S B :=
  fun s => match m s with
           | (inr a, s') => f a s'
           | (inl e, s') => (inl e, s')
           end.

(** A call that returns or raises without touching the state. *)
Definition lift {S A : Type} (r : result A) : SE S A := fun s => (r, s).

Definition modify {S : Type} (f : S -> S) : SE S unit := fun s => (inr tt, f s).

(** [try: m / except Exception as e: handler e] *)
Definition try_except {S A : Type} (m : SE S A) (handler : exn -> SE S A) : SE S A :=
  fun s => match m s with
           | (inr a, s') => (inr a, s')
           | (inl e, s') => handler e s'
           end.

Notation "x <- m ; k" := (bind m (fun x => k))
  (at level 20, m at level 100, k at level 200, only parsing).

(** [for x in xs: body x] *)
Fixpoint for_each {S A : Type} (xs : list A) (body : A -> SE S unit) : SE S unit :=
  match xs with
  | [] => ret tt
  | x :: xs' => _ <- body x; for_each xs' body
  end.

(** ** [parse_inventory_output] *)

(** The platform tag, [device_info.get('device_type')]: [None] when the
    key is absent. *)
Definition tag : Type := option string.

(** [platform == s] *)
Definition tag_is (platform : tag) (s : string) : bool :=
  match platform with
  | Some p => String.eqb p s
  | None => false
  end.

(** [f"{platform}"] *)
Definition tag_format (platform : tag) : string :=
  match platform with
  | Some p => p
  | None => "None"
  end.

Definition NA : pyval := PyStr "N/A".

(** The body of the loop over [ROW_inv]; the state is [optics_info]. *)
Definition nxos_row (item : pyval) : SE optics unit :=
  name <- lift (py_get item "name" PyNone);
  descr <- lift (py_get item "desc" PyNone);
  pid <- lift (py_get item "productid" NA);
  vid <- lift (py_get item "vid" NA);
  sn <- lift (py_get item "serialnum" NA);
  if truthy name && truthy descr && truthy pid then
    key <- lift (as_key name);
    modify (Dict.set key {| Description := descr; PID := pid; VID := vid; SN := sn;
                            Operational_State := "Unknown" |})
  else ret tt.

(** ['port' in name.lower() or 'GigE' in name or 'TenGigE' in name] *)
Definition is_port_name (name : string) : bool :=
  ("port" in_str PyStr.lower name) || ("GigE" in_str name) || ("TenGigE" in_str name).

(** The body of the loop over the matches: [groups] is [match.groups()],
    unpacked into five names. *)
Definition text_match (groups : list string) : SE optics unit :=
  match groups with
  | [name; descr; pid; vid; sn] =>
      if is_port_name name then
        modify (Dict.set (KStr name)
                  {| Description := PyStr descr; PID := PyStr pid; VID := PyStr vid;
                     SN := PyStr sn; Operational_State := "Unknown" |})
      else ret tt
  | _ =>
      raise (Raise ValueError
               (if Nat.ltb (length groups) 5 then
                  "not enough values to unpack (expected 5, got "
                  ++ PyStr.of_Z (Z.of_nat (length groups)) ++ ")"
                else "too many values to unpack (expected 5)"))
  end.

Definition parse_inventory_output `{JSON} (output : string) (platform : tag)
  : result optics :=
  let run (m : SE optics unit) := m [] in
  if tag_is platform "cisco_nxos" then
    match run (inventory_data <- lift (json_loads output);
               table <- lift (py_get inventory_data "TABLE_inv" (PyDict []));
               rows <- lift (py_get table "ROW_inv" (PyList []));
               items <- lift (py_iter rows);
               for_each items nxos_row)
    with
    | (inr _, optics_info) => inr optics_info
    | (inl e, optics_info) =>
        if is_JSONDecodeError e then inr optics_info else inl e
    end
  else
    match run (for_each (Re.finditer pattern output) text_match) with
    | (inr _, optics_info) => inr optics_info
    | (inl e, _) => inl e
    end.


(** ** The Netmiko session

    The collaborator is modelled by what it does on each call, which may
    depend on every call made before on the same session. The state of a
    device run is the list of the calls made so far, oldest first. *)

Inductive call : Type :=
| SendCommand (command : string)
| Disconnect.

Record netmiko : Type := Netmiko {
  (** Opening the session with [ConnectHandler]: the exception raised, if any. *)
  connect_raises : option exn;
  (** [connection.send_command(command)] after the calls [log]. *)
  send_command_reply : list call -> string -> result string;
  (** [connection.disconnect()] after the calls [log]. *)
  disconnect_raises : list call -> option exn
}.

(** [device_info]: the platform tag, and the transport parameters seen as
    the session they lead to. *)
Record device : Type := Device {
  device_type : tag;
  remote : netmiko
}.

Definition session (A : Type) : Type := SE (list call) A.

Definition get_device_connection (device_info : device) : session netmiko :=
  match connect_raises (remote device_info) with
  | Some e => raise e
  | None => ret (remote device_info)
  end.

Definition send_command (connection : netmiko) (command : string) : session string :=
  fun log => (send_command_reply connection log command, log ++ [SendCommand command])%list.

Definition disconnect (connection : netmiko) : session unit :=
  fun log => (match disconnect_raises connection log with
              | Some e => inl e
              | None => inr tt
              end, log ++ [Disconnect])%list.

(** ** [get_interface_status] *)

(** The loop over the lines of the NX-OS reply; [status] is the variable
    of the same name, and the loop is left at the first line that passes
    the test. *)
Fixpoint nxos_lines (lines : list string) (status : string) : string :=
  match lines with
  | [] => status
  | line :: lines' =>
      let line_lower := PyStr.lower line in
      if ("is" in_str line_lower)
         && (("up" in_str line_lower) || ("down" in_str line_lower)) then
        if "administratively down" in_str line_lower then "ADMIN_DOWN"
        else if "is up" in_str line_lower then
          if "connected" in_str line_lower then "UP"
          else if "notconnect" in_str line_lower then "DOWN"
          else "UP"
        else if "is down" in_str line_lower then "DOWN"
        else status
      else nxos_lines lines' status
  end.

(** The loop over the lines of the IOS-XR / IOS-XE reply, on the variables
    [status] and [protocol_status]. *)
Fixpoint xr_lines (lines : list string) (status protocol_status : string)
  : string * string :=
  match lines with
  | [] => (status, protocol_status)
  | line :: lines' =>
      let line_lower := PyStr.lower line in
      if "line protocol is" in_str line_lower then
        if "up" in_str line_lower then
          if "administratively down" in_str line_lower then ("ADMIN_DOWN", "DOWN")
          else ("UP", if "line protocol is up" in_str line_lower then "UP" else "DOWN")
        else ("DOWN", "DOWN")
      else xr_lines lines' status protocol_status
  end.

(** [f"show interface {intf_name}"] *)
Definition show_interface (intf_name : pykey) : string :=
  "show interface " ++ key_format intf_name.

(** What the [try] block of the loop body does for one interface: the
    new value of [interface_status]. *)
Definition interface_query (connection : netmiko) (platform : tag)
    (interface_status : list (pykey * string)) (intf_name : pykey)
  : session (list (pykey * string)) :=
  if tag_is platform "cisco_nxos" then
    let command := show_interface intf_name in
    output <- send_command connection command;
    let status := nxos_lines (PyStr.split_lf output) "DOWN" in
    ret (Dict.set intf_name status interface_status)
  else if tag_is platform "cisco_xr" || tag_is platform "cisco_xe" then
    let command := show_interface intf_name in
    output <- send_command connection command;
    let '(status, protocol_status) := xr_lines (PyStr.split_lf output) "DOWN" "DOWN" in
    let combined_status := status ++ "/" ++ protocol_status in
    ret (Dict.set intf_name combined_status interface_status)
  else ret interface_status.

Fixpoint get_interface_status_loop (connection : netmiko) (platform : tag)
    (interface_names : list pykey) (interface_status : list (pykey * string))
  : session (list (pykey * string)) :=
  match interface_names with
  | [] => ret interface_status
  | intf_name :: interface_names' =>
      interface_status' <-
        try_except (interface_query connection platform interface_status intf_name)
          (fun e => ret (Dict.set intf_name "ERROR" interface_status));
      get_interface_status_loop connection platform interface_names' interface_status'
  end.

Definition get_interface_status (connection : netmiko) (platform : tag)
    (interface_names : list pykey) : session (list (pykey * string)) :=
  get_interface_status_loop connection platform interface_names [].

(** ** [process_device] *)

(** The command chosen from the platform tag; [None] in the [else] branch. *)
Definition inventory_command (platform : tag) : option string :=
  if tag_is platform "cisco_xr" then Some "show inventory"
  else if tag_is platform "cisco_xe" then Some "show inventory"
  else if tag_is platform "cisco_nxos" then Some "show inventory all | json"
  else None.

(** [d[k]["Operational_State"] = status], on the entry of key [k]. *)
Fixpoint set_state (k : pykey) (status : string) (d : optics) : optics :=
  match d with
  | [] => []
  | (k', r) :: d' =>
      if key_eqb k' k then (k', set_Operational_State status r) :: d'
      else (k', r) :: set_state k status d'
  end.

(** The loop that writes the states into [optics_info], over its keys. *)
Definition update_states (interface_status : list (pykey * string))
    (optics_info : optics) : optics :=
  fold_left
    (fun d interface_name =>
       let status := default "Unknown" (Dict.get interface_status interface_name) in
       set_state interface_name status d)
    (Dict.keys optics_info) optics_info.

(** What [process_device] returns:
    [(device_name, optics_info, error_message)]. *)
Definition outcome : Type := string * optics * option string.

(** The [try] block. *)
Definition process_device_try `{JSON} (device_name : string) (device_info : device)
  : session outcome :=
  connection <- get_device_connection device_info;
  let platform := device_type device_info in
  match inventory_command platform with
  | None => ret (device_name, [], Some ("Unsupported platform: " ++ tag_format platform))
  | Some command =>
      output <- send_command connection command;
      optics_info <- lift (parse_inventory_output output platform);
      optics_info <-
        (if Dict.nonempty optics_info then
           let interface_names := Dict.keys optics_info in
           interface_status <- get_interface_status connection platform interface_names;
           ret (update_states interface_status optics_info)
         else ret optics_info);
      _ <- disconnect connection;
      ret (device_name, optics_info, None)
  end.

Definition process_device `{JSON} (device_name : string) (device_info : device)
  : session outcome :=
  try_except (process_device_try device_name device_info)
    (fun e => let error_message := exn_str e in
              ret (device_name, [], Some error_message)).

(** ** The aggregation loop of [main] *)

(** [bool(error_message)]: [None] and the empty string are false. *)
Definition message_truthy (error_message : option string) : bool :=
  match error_message with
  | Some m => negb (String.eqb m "")
  | None => false
  end.

(** The two dictionaries filled by [main]. *)
Record report : Type := Report {
  optics_data : gmap string optics;
  failed_connections : gmap string string
}.

(** [future.result()] for the future of one device: the worker runs
    [process_device] on a session of its own. *)
Definition future_result `{JSON} (device_name : string) (device_info : device)
  : result outcome :=
  fst (process_device device_name device_info []).

(** The console. The loop of [main] prints every port record it has just
    stored, [print(f"{port}: {details}")], inside its [try] block: the
    text comes from the device, and [print] raises when the console cannot
    write it (its encoding lacks a character of the text).
    [print_raises port details] is the exception raised then, if any. The
    other [print] calls of the scripts write fixed text, counts, device
    names and error messages; they are taken to return. *)
Class Console : Type := {
  print_raises : pykey -> port_record -> option exn
}.

Definition print_record `{Console} {S : Type} (item : pykey * port_record) : SE S unit :=
  let '(port, details) := item in
  match print_raises port details with
  | Some e => raise e
  | None => ret tt
  end.

Definition set_optics (name : string) (optics_info : optics) (r : report) : report :=
  {| optics_data := <[name := optics_info]> (optics_data r);
     failed_connections := failed_connections r |}.

Definition set_failed (name : string) (error_message : string) (r : report) : report :=
  {| optics_data := optics_data r;
     failed_connections := <[name := error_message]> (failed_connections r) |}.

(** The [try] block of the loop over the completed futures. *)
Definition collect_try `{JSON} `{Console} (device_name : string) (device_info : device)
  : SE report unit :=
  o <- lift (future_result device_name device_info);
  let '(name, optics_info, error_message) := o in
  if message_truthy error_message then
    modify (set_failed name (default "" error_message))
  else
    _ <- modify (set_optics name optics_info);
    if Dict.nonempty optics_info then for_each optics_info print_record
    else ret tt.

(** The body of the loop: the [try] block and its handler, which files
    the device under [device_name] with the text of the exception. *)
Definition collect `{JSON} `{Console} (r : report) (item : string * device) : report :=
  let '(device_name, device_info) := item in
  snd (try_except (collect_try device_name device_info)
         (fun e => modify (set_failed device_name (exn_str e))) r).

(** The loop of [main] over [as_completed]: [completed] lists the items of
    the roster in the order their futures complete. *)
Definition main_loop `{JSON} `{Console} (completed : list (string * device)) : report :=
  fold_left collect completed {| optics_data := ∅; failed_connections := ∅ |}.

(** [completed] is a possible completion order for the roster [devices]. *)
Definition completion_of (devices : gmap string device)
    (completed : list (string * device)) : Prop :=
  completed ≡ₚ map_to_list devices.

(** ** Sample devices

    Sessions used to run the script on concrete inputs. *)

(** A session that answers the commands of [table], whatever was sent
    before, and raises on any other command. *)
Definition scripted (table : list (string * result string))
  : list call -> string -> result string :=
  fun _ command =>
    match find (fun entry => String.eqb (fst entry) command) table with
    | Some (_, reply) => reply
    | None => inl (Raise OtherException "Invalid command")
    end.

Definition never_raises : list call -> option exn := fun _ => None.

(** An IOS-XR inventory: the chassis and one optic. *)
Definition xr_inventory : string :=
  Eval cbv in
  "NAME: " ++ DQ ++ "chassis" ++ DQ ++ ", DESCR: " ++ DQ ++ "ASR 9006 AC Chassis" ++ DQ ++ LF
  ++ "PID: ASR-9006-AC, VID: V01, SN: FOX1234ABCD" ++ LF
  ++ LF
  ++ "NAME: " ++ DQ ++ "TenGigE0/0/0/1" ++ DQ ++ ", DESCR: " ++ DQ ++ "10GBASE-LR SFP+" ++ DQ ++ LF
  ++ "PID: SFP-10G-LR, VID: V02, SN: ABC12345678" ++ LF.

Definition xr_router : device :=
  {| device_type := Some "cisco_xr";
     remote := {| connect_raises := None;
                  send_command_reply :=
                    scripted [("show inventory", inr xr_inventory);
                              ("show interface TenGigE0/0/0/1",
                               inr "TenGigE0/0/0/1 is up, line protocol is up")];
                  disconnect_raises := never_raises |} |}.

(** A device that cannot be reached. *)
Definition unreachable (platform : string) (message : string) : device :=
  {| device_type := Some platform;
     remote := {| connect_raises := Some (Raise OtherException message);
                  send_command_reply := scripted [];
                  disconnect_raises := never_raises |} |}.

Definition roster3 : gmap string device :=
  <["core1" := xr_router]>
    (<["edge1" := unreachable "cisco_xe" "TCP connection to device failed"]>
       (<["lab1" := unreachable "cisco_xr" ""]> ∅)).

(** [s] between double quotes. *)
Definition quoted (s : string) : string := DQ ++ s ++ DQ.

(** An NX-OS inventory of three rows: a full row, a row without
    [productid], [vid] and [serialnum], and a row without [desc]. *)
Definition nxos_inventory : string :=
  Eval cbv in
  "{" ++ quoted "TABLE_inv" ++ ": {" ++ quoted "ROW_inv" ++ ": ["
  ++ "{" ++ quoted "name" ++ ": " ++ quoted "Ethernet1/1" ++ ", "
         ++ quoted "desc" ++ ": " ++ quoted "1000base-SX" ++ ", "
         ++ quoted "productid" ++ ": " ++ quoted "GLC-SX-MMD" ++ ", "
         ++ quoted "vid" ++ ": " ++ quoted "V01" ++ ", "
         ++ quoted "serialnum" ++ ": " ++ quoted "AGM1234" ++ "}, "
  ++ "{" ++ quoted "name" ++ ": " ++ quoted "Ethernet1/2" ++ ", "
         ++ quoted "desc" ++ ": " ++ quoted "10Gbase-SR" ++ "}, "
  ++ "{" ++ quoted "name" ++ ": " ++ quoted "Ethernet1/3" ++ ", "
         ++ quoted "productid" ++ ": " ++ quoted "SFP-10G-SR" ++ "}"
  ++ "]}}".

(** What [json.loads] makes of it. *)
Definition nxos_inventory_rows : list (list (string * pyval)) :=
  [ [("name", PyStr "Ethernet1/1"); ("desc", PyStr "1000base-SX");
     ("productid", PyStr "GLC-SX-MMD"); ("vid", PyStr "V01");
     ("serialnum", PyStr "AGM1234")];
    [("name", PyStr "Ethernet1/2"); ("desc", PyStr "10Gbase-SR")];
    [("name", PyStr "Ethernet1/3"); ("productid", PyStr "SFP-10G-SR")] ].

(** An NX-OS inventory that lists one port twice, the second time with
    another transceiver. *)
Definition nxos_inventory_repeat : string :=
  Eval cbv in
  "{" ++ quoted "TABLE_inv" ++ ": {" ++ quoted "ROW_inv" ++ ": ["
  ++ "{" ++ quoted "name" ++ ": " ++ quoted "Ethernet1/1" ++ ", "
         ++ quoted "desc" ++ ": " ++ quoted "1000base-SX" ++ ", "
         ++ quoted "productid" ++ ": " ++ quoted "GLC-SX-MMD" ++ ", "
         ++ quoted "vid" ++ ": " ++ quoted "V01" ++ ", "
         ++ quoted "serialnum" ++ ": " ++ quoted "AGM1234" ++ "}, "
  ++ "{" ++ quoted "name" ++ ": " ++ quoted "Ethernet1/1" ++ ", "
         ++ quoted "desc" ++ ": " ++ quoted "10Gbase-SR" ++ ", "
         ++ quoted "productid" ++ ": " ++ quoted "SFP-10G-SR" ++ ", "
         ++ quoted "vid" ++ ": " ++ quoted "V03" ++ ", "
         ++ quoted "serialnum" ++ ": " ++ quoted "FNS5678" ++ "}"
  ++ "]}}".

Definition nxos_inventory_repeat_rows : list (list (string * pyval)) :=
  [ [("name", PyStr "Ethernet1/1"); ("desc", PyStr "1000base-SX");
     ("productid", PyStr "GLC-SX-MMD"); ("vid", PyStr "V01");
     ("serialnum", PyStr "AGM1234")];
    [("name", PyStr "Ethernet1/1"); ("desc", PyStr "10Gbase-SR");
     ("productid", PyStr "SFP-10G-SR"); ("vid", PyStr "V03");
     ("serialnum", PyStr "FNS5678")] ].

(** An NX-OS device that answers [inventory] to the inventory command and
    [status] to every other command. *)
Definition nxos_switch (inventory status : string) : device :=
  {| device_type := Some "cisco_nxos";
     remote := {| connect_raises := None;
                  send_command_reply := fun _ command =>
                    if String.eqb command "show inventory all | json"
                    then inr inventory else inr status;
                  disconnect_raises := never_raises |} |}.

(** The first line of [show interface] on IOS-XR for a port that is shut
    down, followed by the next line of the reply. *)
Definition xr_shut_reply : string :=
  Eval cbv in
  "TenGigE0/0/0/1 is administratively down, line protocol is administratively down"
  ++ LF ++ "  Interface state transitions: 0".

(** [xr_router] with its optic shut down. *)
Definition xr_router_shut : device :=
  {| device_type := Some "cisco_xr";
     remote := {| connect_raises := None;
                  send_command_reply :=
                    scripted [("show inventory", inr xr_inventory);
                              ("show interface TenGigE0/0/0/1", inr xr_shut_reply)];
                  disconnect_raises := never_raises |} |}.

(** An NX-OS inventory with the single port [Gi1]. *)
Definition gi1_inventory : string :=
  Eval cbv in
  "{" ++ quoted "TABLE_inv" ++ ": {" ++ quoted "ROW_inv" ++ ": ["
  ++ "{" ++ quoted "name" ++ ": " ++ quoted "Gi1" ++ ", "
         ++ quoted "desc" ++ ": " ++ quoted "1000base-T" ++ ", "
         ++ quoted "productid" ++ ": " ++ quoted "GLC-T" ++ ", "
         ++ quoted "vid" ++ ": " ++ quoted "V02" ++ ", "
         ++ quoted "serialnum" ++ ": " ++ quoted "MTC5678" ++ "}"
  ++ "]}}".

(** A status reply whose first line, a description, comes before the
    state line. *)
Definition gi1_described_reply : string :=
  Eval cbv in "Description: uplink to distribution" ++ LF ++ "Gi1 is up (connected)".

(** A device of a platform the script has no command for, which cannot be
    reached. *)
Definition ios_unreachable : device :=
  unreachable "cisco_ios" "TCP connection to device failed".

(** A device of a platform the script has no command for, whose session
    opens. *)
Definition ios_router : device :=
  {| device_type := Some "cisco_ios";
     remote := {| connect_raises := None;
                  send_command_reply := scripted [];
                  disconnect_raises := never_raises |} |}.

(** [xr_router] with a session that fails to close. *)
Definition xr_router_stuck : device :=
  {| device_type := Some "cisco_xr";
     remote := {| connect_raises := None;
                  send_command_reply := send_command_reply (remote xr_router);
                  disconnect_raises :=
                    fun _ => Some (Raise OtherException "Socket is closed") |} |}.



(** An IOS-XR inventory that lists one port twice, the second time with
    another optic. *)
Definition xr_inventory_repeat : string :=
  Eval cbv in
  "NAME: " ++ DQ ++ "TenGigE0/0/0/1" ++ DQ ++ ", DESCR: " ++ DQ ++ "10GBASE-SR SFP+" ++ DQ ++ LF
  ++ "PID: SFP-10G-SR, VID: V03, SN: XYZ00000001" ++ LF
  ++ LF
  ++ "NAME: " ++ DQ ++ "TenGigE0/0/0/1" ++ DQ ++ ", DESCR: " ++ DQ ++ "10GBASE-LR SFP+" ++ DQ ++ LF
  ++ "PID: SFP-10G-LR, VID: V02, SN: ABC12345678" ++ LF.

(** An NX-OS inventory whose row list holds a number after a row. *)
Definition nxos_inventory_number : string :=
  Eval cbv in
  "{" ++ quoted "TABLE_inv" ++ ": {" ++ quoted "ROW_inv" ++ ": ["
  ++ "{" ++ quoted "name" ++ ": " ++ quoted "Ethernet1/1" ++ ", "
         ++ quoted "desc" ++ ": " ++ quoted "1000base-SX" ++ "}, 5"
  ++ "]}}".


(** An IOS-XE inventory: the chassis, an uplink module whose ports are
    named with a capital, and one of its optics. *)
Definition xe_inventory_ports : string :=
  Eval cbv in
  "NAME: " ++ DQ ++ "Chassis" ++ DQ ++ ", DESCR: " ++ DQ ++ "Cisco Catalyst 9300" ++ DQ ++ LF
  ++ "PID: C9300-24T, VID: V02, SN: FCW2233L0AB" ++ LF
  ++ LF
  ++ "NAME: " ++ DQ ++ "Uplink Port 1" ++ DQ ++ ", DESCR: " ++ DQ ++ "SFP-10GBase-SR" ++ DQ ++ LF
  ++ "PID: SFP-10G-SR, VID: V03, SN: AVD2213A1BC" ++ LF.

(** A console that writes every record. *)
Definition utf8_console : Console := {| print_raises := fun _ _ => None |}.

(** A console that cannot write the character [c]: printing a record
    whose description holds it raises [e]. *)
Definition console_without (c : ascii) (e : exn) : Console :=
  {| print_raises := fun _ details =>
       match Description details with
       | PyStr descr => if String (c) "" in_str descr then Some e else None
       | _ => None
       end |}.

(** The degree sign, code point 176. *)
Definition DEG : string := String "176"%char EmptyString.

(** A console with the ASCII encoding, as the record of [xr_router_degree]
    meets it: the degree sign is character 51 of the text printed. *)
Definition ascii_console : Console :=
  console_without "176"%char
    (Raise UnicodeEncodeError
       "'ascii' codec can't encode character '\xb0' in position 51: ordinal not in range(128)").

(** An IOS-XR inventory whose optic is described with its temperature
    range. *)
Definition xr_inventory_degree : string :=
  Eval cbv in
  "NAME: " ++ DQ ++ "TenGigE0/0/0/1" ++ DQ ++ ", DESCR: " ++ DQ
  ++ "10GBASE-LR SFP+ 70" ++ DEG ++ "C" ++ DQ ++ LF
  ++ "PID: SFP-10G-LR, VID: V02, SN: ABC12345678" ++ LF.

Definition xr_router_degree : device :=
  {| device_type := Some "cisco_xr";
     remote := {| connect_raises := None;
                  send_command_reply :=
                    scripted [("show inventory", inr xr_inventory_degree);
                              ("show interface TenGigE0/0/0/1",
                               inr "TenGigE0/0/0/1 is up, line protocol is up")];
                  disconnect_raises := never_raises |} |}.

(** ** Vocabulary of the properties *)

(** No two keys of the list are equal for Python. *)
Fixpoint distinct_keys (ks : list pykey) : Prop :=
  match ks with
  | [] => True
  | k :: ks' => Forall (fun k' => key_eqb k k' = false) ks' /\ distinct_keys ks'
  end.

(** The number of capturing groups of a pattern. *)
Fixpoint group_count (p : list Re.item) : nat :=
  match p with
  | [] => 0
  | Re.Cap _ _ :: p' => S (group_count p')
  | _ :: p' => group_count p'
  end.

(** The record the free-text parser builds from the groups of one match. *)
Definition text_record (descr pid vid sn : string) : port_record :=
  {| Description := PyStr descr; PID := PyStr pid; VID := PyStr vid; SN := PyStr sn;
     Operational_State := "Unknown" |}.

(** [key in row], with the value: the first item of that key. *)
Fixpoint row_lookup (row : list (string * pyval)) (key : string) : option pyval :=
  match row with
  | [] => None
  | (k, v) :: row' => if String.eqb k key then Some v else row_lookup row' key
  end.

(** The name of a row of [ROW_inv], [item.get("name")]. *)
Definition row_name (row : list (string * pyval)) : pyval :=
  items_get row "name" PyNone.

(** The test a row of [ROW_inv] must pass to be kept. *)
Definition row_kept (row : list (string * pyval)) : bool :=
  truthy (items_get row "name" PyNone)
  && truthy (items_get row "desc" PyNone)
  && truthy (items_get row "productid" NA).

(** The record built from a kept row. *)
Definition row_record (row : list (string * pyval)) : port_record :=
  {| Description := items_get row "desc" PyNone;
     PID := items_get row "productid" NA;
     VID := items_get row "vid" NA;
     SN := items_get row "serialnum" NA;
     Operational_State := "Unknown" |}.

(** From the words of the specification: [hay] contains the substring
    [needle]. *)
Definition spec_substring (needle hay : string) : Prop :=
  exists before after, hay = before ++ needle ++ after.

(** From the words of the specification: [c] is the letter [low], in
    either case. *)
Definition spec_letter (low up c : ascii) : Prop := c = low \/ c = up.

(** From the words of the specification: the name contains the substring
    [port], whatever the case of its four letters. *)
Definition spec_port_nocase (name : string) : Prop :=
  exists before p o r t after,
    name = before ++ String p (String o (String r (String t after)))
    /\ spec_letter "p" "P" p /\ spec_letter "o" "O" o
    /\ spec_letter "r" "R" r /\ spec_letter "t" "T" t.

(** From the words of the specification: the entries that are kept. *)
Definition spec_is_port_name (name : string) : Prop :=
  spec_port_nocase name \/ spec_substring "GigE" name \/ spec_substring "TenGigE" name.

(** The row is kept and its name is the key [k], as a dictionary compares
    keys. *)
Definition row_named (k : pykey) (row : list (string * pyval)) : bool :=
  row_kept row
  && match as_key (row_name row) with
     | inr key => key_eqb key k
     | inl _ => false
     end.

(** The last kept row named [k]. *)
Definition last_row (k : pykey) (rows : list (list (string * pyval)))
  : option (list (string * pyval)) :=
  last (List.filter (row_named k) rows).

(** The test that stops the NX-OS loop, on the lowercase line. *)
Definition nxos_stops_at (line_lower : string) : bool :=
  ("is" in_str line_lower) && (("up" in_str line_lower) || ("down" in_str line_lower)).

(** The state read from the line the NX-OS loop stops at. *)
Definition nxos_state_of (line_lower : string) : string :=
  if "administratively down" in_str line_lower then "ADMIN_DOWN"
  else if "is up" in_str line_lower then
    if "connected" in_str line_lower then "UP"
    else if "notconnect" in_str line_lower then "DOWN"
    else "UP"
  else "DOWN".

(** C6 in the words of the specification: the first line that contains
    the interface identifier together with [is up] or [is down] decides. *)
Definition spec_nxos_matches (intf_name : string) (line : string) : bool :=
  (intf_name in_str line) && (("is up" in_str line) || ("is down" in_str line)).

Definition spec_nxos_state (intf_name : string) (output : string) : string :=
  match find (spec_nxos_matches intf_name) (PyStr.split_lf output) with
  | Some line =>
      if "administratively down" in_str line then "ADMIN_DOWN"
      else if ("is up" in_str line) && ("connected" in_str line) then "UP"
      else if ("is up" in_str line) && ("notconnect" in_str line) then "DOWN"
      else if "is up" in_str line then "UP"
      else "DOWN"
  | None => "DOWN"
  end.

(** The platforms [process_device] has a command for. *)
Definition supported (platform : tag) : bool :=
  tag_is platform "cisco_xr" || tag_is platform "cisco_xe" || tag_is platform "cisco_nxos".

(** The state recorded for one status query, from what the session
    answered: [ERROR] when it raised, the state read from the reply
    otherwise. *)
Definition status_of_reply (platform : tag) (reply : result string) : string :=
  match reply with
  | inl _ => "ERROR"
  | inr output =>
      if tag_is platform "cisco_nxos" then nxos_lines (PyStr.split_lf output) "DOWN"
      else let '(status, protocol_status) :=
             xr_lines (PyStr.split_lf output) "DOWN" "DOWN" in
           status ++ "/" ++ protocol_status
  end.

(** What the session answers to the status queries for [names], sent one
    after the other after the calls [log]. *)
Fixpoint status_replies (connection : netmiko) (log : list call) (names : list pykey)
  : list (result string) :=
  match names with
  | [] => []
  | k :: names' =>
      send_command_reply connection log (show_interface k)
      :: status_replies connection (log ++ [SendCommand (show_interface k)])%list names'
  end.

(** The status queries for [names], as calls. *)
Definition status_queries (names : list pykey) : list call :=
  (fun k => SendCommand (show_interface k)) <$> names.

(** The calls of a device run up to the disconnect: the inventory command,
    then one status query for each record. *)
Definition calls_before_disconnect (command : string) (optics_info : optics) : list call :=
  SendCommand command :: status_queries (Dict.keys optics_info).

(** The records of [optics_info], each with the state recorded for its
    own status query. *)
Definition merged_records (platform : tag) (connection : netmiko) (command : string)
    (optics_info : optics) : optics :=
  zip_with (fun entry reply =>
              (fst entry, set_Operational_State (status_of_reply platform reply) (snd entry)))
    optics_info
    (status_replies connection [SendCommand command] (Dict.keys optics_info)).

(** ** More Python [str] operations *)

Module PyStrOps.

(** [s.replace(old, new)] for a non-empty [old]: occurrences are taken
    from left to right and do not overlap; [skip] counts the characters of
    the occurrence just replaced that are still to be passed over. *)
Fixpoint replace_from (old new : string) (skip : nat) (s : string) : string :=
  match s with
  | EmptyString => EmptyString
  | String c s' =>
      match skip with
      | S n => replace_from old new n s'
      | O =>
          if PyStr.startswith old s
          then new ++ replace_from old new (String.length old - 1) s'
          else String c (replace_from old new 0 s')
      end
  end.

(** [new] after every character of [s]. *)
Fixpoint after_each (new s : string) : string :=
  match s with
  | EmptyString => EmptyString
  | String c s' => String c (new ++ after_each new s')
  end.

(** [s.replace(old, new)]; an empty [old] matches before every character
    and at the end. *)
Definition replace (old new s : string) : string :=
  match old with
  | EmptyString => new ++ after_each new s
  | String _ _ => replace_from old new 0 s
  end.

(** [s.lstrip()] *)
Fixpoint lstrip (s : string) : string :=
  match s with
  | EmptyString => EmptyString
  | String c s' => if Re.isspace c then lstrip s' else s
  end.

(** [s.rstrip()] *)
Fixpoint rstrip (s : string) : string :=
  match s with
  | EmptyString => EmptyString
  | String c s' =>
      match rstrip s' with
      | EmptyString => if Re.isspace c then EmptyString else String c EmptyString
      | r => String c r
      end
  end.

(** [s.strip()] *)
Definition strip (s : string) : string := rstrip (lstrip s).

(** [s.rstrip('\n')] *)
Fixpoint rstrip_lf (s : string) : string :=
  match s with
  | EmptyString => EmptyString
  | String c s' =>
      match rstrip_lf s' with
      | EmptyString => if Ascii.eqb c "010"%char then EmptyString else String c EmptyString
      | r => String c r
      end
  end.

(** [s.split(sep, 1)] for a one-character [sep] that occurs in [s]: the
    text before the first [sep] and the text after it. *)
Fixpoint split_once (sep : ascii) (s : string) : option (string * string) :=
  match s with
  | EmptyString => None
  | String c s' =>
      if Ascii.eqb c sep then Some (EmptyString, s')
      else match split_once sep s' with
           | Some (a, b) => Some (String c a, b)
           | None => None
           end
  end.

(** The lines a text file yields when iterated, each with its line feed;
    [text] is the content after newline translation. *)
Fixpoint file_lines (text : string) : list string :=
  match text with
  | EmptyString => []
  | String c text' =>
      if Ascii.eqb c "010"%char then String c EmptyString :: file_lines text'
      else match text' with
           | EmptyString => [String c EmptyString]
           | String _ _ =>
               match file_lines text' with
               | l :: ls => String c l :: ls
               | [] => [String c EmptyString]
               end
           end
  end.

End PyStrOps.

(** ** The report files of [optic_inventory0.3.py] *)

(** A key as the value it is. *)
Definition key_val (k : pykey) : pyval :=
  match k with
  | KNone => PyNone
  | KBool b => PyBool b
  | KInt z => PyInt z
  | KStr s => PyStr s
  end.

(** A CSV file as the rows given to [csv_writer.writerow], in order. *)
Abbreviation table := (list (list pyval)).

(** The files written so far, by path. *)
Abbreviation files := (gmap string (list (list pyval))).

(** [with open(output_file, 'w', newline='') as csvfile] followed by the
    rows written: opening may raise ([open_raises]), in which case nothing
    is written; otherwise the file holds exactly the rows. *)
Definition write_rows (open_raises : string -> option exn) (output_file : string)
    (rows : list (list pyval)) : SE files unit :=
  fun fs => match open_raises output_file with
            | Some e => (inl e, fs)
            | None => (inr tt, <[output_file := rows]> fs)
            end.

Definition optics_header : list pyval :=
  [PyStr "Device Name"; PyStr "Port"; PyStr "Description"; PyStr "PID"; PyStr "VID";
   PyStr "SN"; PyStr "Operational_State"].

(** The row written for one port of one device ([details] is a dict). *)
Definition optics_row (device_name : pykey) (entry : pykey * port_record) : list pyval :=
  let '(port, details) := entry in
  [key_val device_name; key_val port; Description details; PID details; VID details;
   SN details; PyStr (Operational_State details)].

(** The rows [save_to_csv] writes: the header, then the ports of each
    device in the order of the two dictionaries. *)
Definition save_to_csv_rows (optics_data : list (pykey * optics)) : list (list pyval) :=
  optics_header
  :: flat_map (fun item => map (optics_row (fst item)) (snd item)) optics_data.

Definition save_to_csv (open_raises : string -> option exn)
    (optics_data : list (pykey * optics)) (output_file : string) : SE files unit :=
  write_rows open_raises output_file (save_to_csv_rows optics_data).

Definition failed_header : list pyval := [PyStr "Device Name"; PyStr "Error Message"].

Definition save_failed_connections_to_csv_rows (failed_connections : list (pykey * string))
  : list (list pyval) :=
  failed_header
  :: map (fun item => [key_val (fst item); PyStr (snd item)]) failed_connections.

Definition save_failed_connections_to_csv (open_raises : string -> option exn)
    (failed_connections : list (pykey * string)) (output_file : string) : SE files unit :=
  write_rows open_raises output_file
    (save_failed_connections_to_csv_rows failed_connections).

(** The two dictionaries of [main] with their insertion order, which is
    the order of the rows in the files. *)
Record ordered_report : Type := OrderedReport {
  optics_items : list (pykey * optics);
  failed_items : list (pykey * string)
}.

Definition set_optics_item (name : string) (optics_info : optics) (r : ordered_report)
  : ordered_report :=
  {| optics_items := Dict.set (KStr name) optics_info (optics_items r);
     failed_items := failed_items r |}.

Definition set_failed_item (name : string) (error_message : string) (r : ordered_report)
  : ordered_report :=
  {| optics_items := optics_items r;
     failed_items := Dict.set (KStr name) error_message (failed_items r) |}.

Definition collect_ordered_try `{JSON} `{Console} (device_name : string)
    (device_info : device) : SE ordered_report unit :=
  o <- lift (future_result device_name device_info);
  let '(name, optics_info, error_message) := o in
  if message_truthy error_message then
    modify (set_failed_item name (default "" error_message))
  else
    _ <- modify (set_optics_item name optics_info);
    if Dict.nonempty optics_info then for_each optics_info print_record
    else ret tt.

Definition collect_ordered `{JSON} `{Console} (r : ordered_report) (item : string * device)
  : ordered_report :=
  let '(device_name, device_info) := item in
  snd (try_except (collect_ordered_try device_name device_info)
         (fun e => modify (set_failed_item device_name (exn_str e))) r).

Definition main_loop_ordered `{JSON} `{Console} (completed : list (string * device))
  : ordered_report :=
  fold_left collect_ordered completed {| optics_items := []; failed_items := [] |}.

(** [output_csv.replace('.csv', '_failed_connections.csv')] *)
Definition failed_csv_path (output_csv : string) : string :=
  PyStrOps.replace ".csv" "_failed_connections.csv" output_csv.

(** What [main] does after the loop, inside its [try] block: it writes the
    optics file, then the failed-connections file when some device
    failed. *)
Definition main_save (open_raises : string -> option exn) (r : ordered_report)
    (output_csv : string) : SE files unit :=
  _ <- save_to_csv open_raises (optics_items r) output_csv;
  if Dict.nonempty (failed_items r) then
    let failed_csv := failed_csv_path output_csv in
    save_failed_connections_to_csv open_raises (failed_items r) failed_csv
  else ret tt.

(** [main], from the loaded roster on: the loop, the files, and the outer
    handler, which only prints. *)
Definition main_from_roster `{JSON} `{Console} (open_raises : string -> option exn)
    (completed : list (string * device)) (output_csv : string) : SE files unit :=
  try_except (main_save open_raises (main_loop_ordered completed) output_csv)
    (fun e => ret tt).

(** ** [iosxr_apply_config.py] *)

(** The loop over [variables.items()] of [read_config_file] on one line:
    for each variable the form with the dollar sign is replaced first,
    then the form without it. *)
Definition substitute (variables : list (pykey * string)) (line : string) : string :=
  fold_left
    (fun new_line item =>
       let var_name := key_format (fst item) in
       let var_value := snd item in
       let new_line := PyStrOps.replace ("${" ++ var_name ++ "}") var_value new_line in
       PyStrOps.replace ("{" ++ var_name ++ "}") var_value new_line)
    variables line.

(** [read_config_file(path, variables)]; [read_text path] is what opening
    and reading the file gives, [variables] is [None] or a dict. *)
Definition read_config_file (read_text : string -> result string) (path : string)
    (variables : option (list (pykey * string))) : result (list string) :=
  match read_text path with
  | inl e => inl e
  | inr text =>
      let lines :=
        map PyStrOps.rstrip_lf
          (filter (fun line => negb (String.eqb (PyStrOps.strip line) ""))
             (PyStrOps.file_lines text)) in
      match variables with
      | Some (item :: items) => inr (map (substitute (item :: items)) lines)
      | _ => inr lines
      end
  end.

(** The calls made on the IOS-XR session. *)
Inductive xr_call : Type :=
| ConfigSet (config_lines : list string)   (* [send_config_set], staying in config mode *)
| Command (command : string)               (* [send_command] *)
| CloseSession.                            (* [disconnect] *)

(** The IOS-XR session, by what each call does after the calls made
    before it. *)
Record xr_connection : Type := XrConnection {
  send_config_set_reply : list xr_call -> list string -> result string;
  xr_command_reply : list xr_call -> string -> result string;
  close_raises : list xr_call -> option exn
}.

(** What the script acts on: the session and the text files it writes. *)
Record world : Type := World {
  calls : list xr_call;
  texts : gmap string string
}.


Definition xr_send_command (connection : xr_connection) (command : string)
  : SE world string :=
  fun w => (xr_command_reply connection (calls w) command,
            {| calls := (calls w ++ [Command command])%list; texts := texts w |}).


(** [open(filename, 'w')]: it raises, or the file is there and empty. *)
Definition open_w (open_raises : string -> option exn) (filename : string)
  : SE world unit :=
  fun w => match open_raises filename with
           | Some e => (inl e, w)
           | None => (inr tt, {| calls := calls w; texts := <[filename := ""]> (texts w) |})
           end.

(** [f.write(chunk)] on the file opened as [filename], inside its [with]
    block. [write_raises filename written chunk] says what happens when
    [chunk] is written after [written]: [None] when the text is added, and
    [Some (e, kept)] when the write, or the flush it stands for when the
    block closes the file, raises [e]; the file then holds [kept], which
    may be empty, partial or all that was written before. *)
Definition file_write (write_raises : string -> string -> string -> option (exn * string))
    (filename chunk : string) : SE world unit :=
  fun w =>
    let written := default "" (texts w !! filename) in
    match write_raises filename written chunk with
    | Some (e, kept) =>
        (inl e, {| calls := calls w; texts := <[filename := kept]> (texts w) |})
    | None =>
        (inr tt, {| calls := calls w; texts := <[filename := written ++ chunk]> (texts w) |})
    end.



(** [save_backup(connection, host)]; [now] is [int(time.time())]. *)
Definition save_backup (open_raises : string -> option exn)
    (write_raises : string -> string -> string -> option (exn * string))
    (connection : xr_connection) (host : string) (now : Z) : SE world (option string) :=
  try_except
    (output <- xr_send_command connection "show running-config";
     let filename := host ++ "_running_config_backup_" ++ PyStr.of_Z now ++ ".txt" in
     _ <- open_w open_raises filename;
     _ <- file_write write_raises filename output;
     ret (Some filename))
    (fun e => ret None).

(** The loop of [main] over [args.var] and the two statements on
    [HOSTNAME]; [inl code] is [sys.exit(code)]. *)
Fixpoint parse_vars (var : list string) (variables : list (pykey * string))
  : nat + list (pykey * string) :=
  match var with
  | [] => inr variables
  | var_assignment :: var' =>
      if negb ("=" in_str var_assignment) then inl 1
      else match PyStrOps.split_once "061"%char var_assignment with
           | Some (var_name, var_value) =>
               parse_vars var' (Dict.set (KStr var_name) var_value variables)
           | None => inl 1
           end
  end.

Definition build_variables (var : option (list string)) (hostname : option string)
    (host : string) : nat + list (pykey * string) :=
  match parse_vars (default [] var) [] with
  | inl code => inl code
  | inr variables =>
      let variables :=
        match hostname with
        | Some (String c h) => Dict.set (KStr "HOSTNAME") (String c h) variables
        | _ => variables
        end in
      let variables :=
        match Dict.get variables (KStr "HOSTNAME") with
        | None => Dict.set (KStr "HOSTNAME") host variables
        | Some _ => variables
        end in
      inr variables
  end.









(** ** Vocabulary of the further properties *)

(** The exception of the first record of a record set whose [print]
    raises, if any. *)
Fixpoint print_failure `{Console} (optics_info : optics) : option exn :=
  match optics_info with
  | [] => None
  | (port, details) :: rest =>
      match print_raises port details with
      | Some e => Some e
      | None => print_failure rest
      end
  end.

(** The record set a device contributes to the success mapping, if it
    does: what its future holds, read as the loop of [main] reads it. *)
Definition success_of `{JSON} (name : string) (info : device) : option optics :=
  match future_result name info with
  | inr (_, optics_info, error_message) =>
      if message_truthy error_message then None else Some optics_info
  | inl _ => None
  end.

(** The error text a device contributes to the failure mapping, if it
    does: the message of its run or, when the run gave records, the text
    of the exception raised while they were printed. *)
Definition failure_of `{JSON} `{Console} (name : string) (info : device) : option string :=
  match future_result name info with
  | inr (_, optics_info, error_message) =>
      if message_truthy error_message then Some (default "" error_message)
      else exn_str <$> print_failure optics_info
  | inl e => Some (exn_str e)
  end.

(** The data rows a device of the roster gives the optics file. *)
Definition device_rows `{JSON} (item : string * device) : list (list pyval) :=
  match success_of (fst item) (snd item) with
  | Some records => map (optics_row (KStr (fst item))) records
  | None => []
  end.

(** The ordered dictionaries and the mappings hold the same entries. *)
Definition same_entries {V : Type} (items : list (pykey * V)) (m : gmap string V) : Prop :=
  (forall name, Dict.get items (KStr name) = m !! name)
  /\ Forall (fun k => exists name, k = KStr name) (Dict.keys items)
  /\ distinct_keys (Dict.keys items).

(** The test that stops the IOS-XR / IOS-XE loop, on the lowercase line. *)
Definition xr_stops_at (line_lower : string) : bool :=
  "line protocol is" in_str line_lower.

(** The combined state read from the line the IOS-XR / IOS-XE loop stops
    at. *)
Definition xr_state_of (line_lower : string) : string :=
  if "up" in_str line_lower then
    if "administratively down" in_str line_lower then "ADMIN_DOWN/DOWN"
    else if "line protocol is up" in_str line_lower then "UP/UP"
    else "UP/DOWN"
  else "DOWN/DOWN".

(** Every character of [s] passes the test [P]. *)
Fixpoint all_chars (P : ascii -> bool) (s : string) : bool :=
  match s with
  | EmptyString => true
  | String c s' => P c && all_chars P s'
  end.

(** The capturing groups of a pattern: the class each repeats and its
    least number of characters. *)
Fixpoint group_classes (p : list Re.item) : list (Re.cls * nat) :=
  match p with
  | [] => []
  | Re.Cap k lo :: p' => (k, lo) :: group_classes p'
  | _ :: p' => group_classes p'
  end.

(** The text of a group fits the group: all its characters are of the
    class, and there are enough of them. *)
Definition group_fits (g : string) (kl : Re.cls * nat) : Prop :=
  all_chars (Re.cls_ok (fst kl)) g = true /\ snd kl <= String.length g.

(** The first group of the match is [name]. *)
Definition is_named (name : string) (gs : list string) : bool :=
  match gs with
  | n :: _ => String.eqb n name
  | [] => false
  end.

(** The groups of the last match whose first group is [name]. *)
Definition last_match (name : string) (ms : list (list string)) : option (list string) :=
  last (List.filter (is_named name) ms).

(** The record of a match of five groups. *)
Definition record_of_groups (gs : list string) : option port_record :=
  match gs with
  | [_; descr; pid; vid; sn] => Some (text_record descr pid vid sn)
  | _ => None
  end.

(** The character is not a line feed. *)
Definition not_lf (c : ascii) : bool := negb (Ascii.eqb c "010"%char).

(** A line as a text file yields it: no line feed, except one at its
    end. *)
Definition file_line (l : string) : Prop :=
  exists body, all_chars not_lf body = true /\ (l = body \/ l = body ++ LF).

(** The character is not the equals sign. *)
Definition not_equals (c : ascii) : bool := negb (Ascii.eqb c "061"%char).


(** The states [get_interface_status] can record. *)
Definition recorded_states : list string :=
  ["ERROR"; "ADMIN_DOWN"; "UP"; "DOWN";
   "ADMIN_DOWN/DOWN"; "UP/UP"; "UP/DOWN"; "DOWN/DOWN"].

(** The value an assignment gives the variable [name], if it sets it. *)
Definition assigned (name : string) (a : string) : option string :=
  match PyStrOps.split_once "061"%char a with
  | Some (n, v) => if String.eqb n name then Some v else None
  | None => None
  end.




(** The name of the backup file of a run. *)
Definition backup_filename (host : string) (now : Z) : string :=
  host ++ "_running_config_backup_" ++ PyStr.of_Z now ++ ".txt".

(** * Properties *)

(** ** The aggregation loop *)

Section aggregation.
Context `{J : JSON} `{T : Console}.

Local Arguments collect : simpl never.

(** The [try] block of [process_device] returns the name it was given. *)
Lemma process_device_try_name device_name device_info log n d m log' :
  process_device_try device_name device_info log = (inr (n, d, m), log') ->
  n = device_name.
Proof.
  unfold process_device_try, bind, get_device_connection, ret, raise, lift.
  intros Hrun.
  repeat (case_match; simplify_eq/=); reflexivity.
Qed.

(** [process_device] catches every exception: the future holds a triple,
    whose first component is the device name. *)
Lemma future_result_returns device_name device_info :
  exists d m, future_result device_name device_info = inr (device_name, d, m).
Proof.
  unfold future_result, process_device, try_except.
  destruct (process_device_try device_name device_info []) as [[e | [[n d] m]] log'] eqn:Hrun.
  - simpl. eauto.
  - apply process_device_try_name in Hrun as ->. simpl. eauto.
Qed.

(** Printing the records stops at the first record that cannot be
    printed. *)
Lemma print_records_run {S : Type} (optics_info : optics) (s : S) :
  (if Dict.nonempty optics_info then for_each optics_info print_record else ret tt) s
  = (match print_failure optics_info with Some e => inl e | None => inr tt end, s).
Proof.
  assert (Hfor : forall d : optics,
             for_each d print_record s
             = (match print_failure d with Some e => inl e | None => inr tt end, s)).
  { induction d as [| [port details] d IH]; [reflexivity |].
    cbn [for_each print_failure]. unfold bind, print_record at 1.
    destruct (print_raises port details); [reflexivity | exact IH]. }
  destruct optics_info; [reflexivity | apply Hfor].
Qed.

(** One step of the loop. *)
Lemma collect_run r device_name device_info d m :
  future_result device_name device_info = inr (device_name, d, m) ->
  collect r (device_name, device_info)
  = if message_truthy m then set_failed device_name (default "" m) r
    else match print_failure d with
         | Some e => set_failed device_name (exn_str e) (set_optics device_name d r)
         | None => set_optics device_name d r
         end.
Proof.
  intros Hf. unfold collect, try_except, collect_try, bind, lift. rewrite Hf.
  destruct (message_truthy m); [reflexivity |].
  unfold modify at 1. rewrite print_records_run.
  destruct (print_failure d); reflexivity.
Qed.

Lemma collect_other r device_name device_info name :
  name <> device_name ->
  let r' := collect r (device_name, device_info) in
  optics_data r' !! name = optics_data r !! name
  /\ failed_connections r' !! name = failed_connections r !! name.
Proof.
  intros Hne.
  destruct (future_result_returns device_name device_info) as (d & m & Hf).
  cbv zeta. rewrite (collect_run _ _ _ _ _ Hf).
  destruct (message_truthy m); [| destruct (print_failure d)]; simpl;
    rewrite ?lookup_insert_ne by done; by split.
Qed.

(** The loop leaves alone the names it does not meet. *)
Lemma loop_other (completed : list (string * device)) (r : report) name :
  name ∉ completed.*1 ->
  let r' := fold_left collect completed r in
  optics_data r' !! name = optics_data r !! name
  /\ failed_connections r' !! name = failed_connections r !! name.
Proof.
  cbv zeta. revert r. induction completed as [| [n i] l IH]; intros r Hn; [by split |].
  simpl in *. apply not_elem_of_cons in Hn as [Hne Hn].
  destruct (IH (collect r (n, i)) Hn) as [H1 H2].
  destruct (collect_other r n i name Hne) as [H3 H4].
  split; congruence.
Qed.

Lemma completion_names devices completed :
  completion_of devices completed ->
  NoDup completed.*1 /\ list_to_set (completed.*1) = dom devices.
Proof.
  unfold completion_of. intros Hp. split.
  - rewrite Hp. apply NoDup_fst_map_to_list.
  - apply set_eq. intros n. rewrite elem_of_list_to_set, Hp, elem_of_dom.
    rewrite list_elem_of_fmap. split.
    + intros ([n' i] & -> & Hin). apply elem_of_map_to_list in Hin. eauto.
    + intros [i Hi]. exists (n, i). split; [reflexivity |].
      by apply elem_of_map_to_list.
Qed.

(** The loop leaves the entry of a device as its own step made it. *)
Lemma loop_lookup (completed : list (string * device)) (r : report) name info :
  NoDup completed.*1 ->
  (name, info) ∈ completed ->
  optics_data r !! name = None ->
  failed_connections r !! name = None ->
  let r' := fold_left collect completed r in
  optics_data r' !! name = success_of name info
  /\ failed_connections r' !! name = failure_of name info.
Proof.
  cbv zeta. revert r. induction completed as [| [n i] l IH]; intros r Hnd Hin Ho Hfl.
  - by apply elem_of_nil in Hin.
  - simpl in *. apply NoDup_cons in Hnd as [Hn Hnd].
    apply elem_of_cons in Hin as [Heq | Hin].
    + injection Heq as <- <-.
      destruct (loop_other l (collect r (name, info)) name Hn) as (-> & ->).
      destruct (future_result_returns name info) as (d & m & Hf).
      rewrite (collect_run _ _ _ _ _ Hf). unfold success_of, failure_of. rewrite Hf.
      destruct (message_truthy m); [| destruct (print_failure d)]; simpl;
        rewrite ?lookup_insert_eq; by split.
    + assert (Hne : name <> n).
      { intros ->. apply Hn. apply list_elem_of_fmap. by exists (n, info). }
      destruct (collect_other r n i name Hne) as [H3 H4].
      apply (IH (collect r (n, i)) Hnd Hin); congruence.
Qed.

Lemma main_loop_lookup devices completed name info :
  completion_of devices completed ->
  devices !! name = Some info ->
  optics_data (main_loop completed) !! name = success_of name info
  /\ failed_connections (main_loop completed) !! name = failure_of name info.
Proof.
  intros Hc Hdev. destruct (completion_names _ _ Hc) as [Hnd _].
  apply (loop_lookup completed _ name info); try assumption;
    try apply lookup_empty.
  unfold completion_of in Hc. rewrite Hc. by apply elem_of_map_to_list.
Qed.

(** C10. When the [try] block of [process_device] raises an exception
    whose [str] is empty, the batch puts the device in [optics_data] with
    an empty record set and not in [failed_connections]: the loop of
    [main] tests the truth of the message, and the empty string is
    false. *)
Theorem empty_error_text_routes_to_success
    (devices : gmap string device) (completed : list (string * device))
    (name : string) (info : device) (e : exn) (log : list call) :
  completion_of devices completed ->
  devices !! name = Some info ->
  process_device_try name info [] = (inl e, log) ->
  exn_str e = "" ->
  fst (process_device name info []) = inr (name, [], Some "")
  /\ optics_data (main_loop completed) !! name = Some []
  /\ failed_connections (main_loop completed) !! name = None.
Proof.
  intros Hc Hdev Hrun Hstr.
  assert (Hf : future_result name info = inr (name, [], Some "")).
  { unfold future_result, process_device, try_except. rewrite Hrun. simpl.
    by rewrite Hstr. }
  split; [exact Hf |].
  destruct (main_loop_lookup devices completed name info Hc Hdev) as [-> ->].
  unfold success_of, failure_of. by rewrite Hf.
Qed.
End aggregation.

Lemma roster3_completion :
  completion_of roster3
    [("lab1", unreachable "cisco_xr" "");
     ("core1", xr_router);
     ("edge1", unreachable "cisco_xe" "TCP connection to device failed")].
Proof.
  unfold completion_of. vm_compute.
  apply (Permutation_cons_app [_; _] []). reflexivity.
Defined.

(** C1. The loop of [main] does not keep every device in exactly one of
    the two mappings. The records of a device are printed inside the
    [try] block, after the device has been stored in [optics_data]; when
    a record cannot be printed (here a description with a degree sign, on
    a console with the ASCII encoding), the handler of the loop files the
    same device in [failed_connections] too. The roster of this run has
    one device, and it is a key of both mappings. *)
Theorem unprintable_record_files_device_twice :
  let r := @main_loop json_ref ascii_console [("core1", xr_router_degree)] in
  completion_of {["core1" := xr_router_degree]} [("core1", xr_router_degree)]
  /\ fst (@process_device json_ref "core1" xr_router_degree [])
     = inr ("core1",
            [(KStr "TenGigE0/0/0/1",
              {| Description := PyStr ("10GBASE-LR SFP+ 70" ++ DEG ++ "C");
                 PID := PyStr "SFP-10G-LR"; VID := PyStr "V02";
                 SN := PyStr "ABC12345678"; Operational_State := "UP/UP" |})],
            None)
  /\ "core1" ∈ dom (optics_data r) ∩ dom (failed_connections r)
  /\ failed_connections r !! "core1"
     = Some "'ascii' codec can't encode character '\xb0' in position 51: ordinal not in range(128)".
Proof.
  cbv zeta. split; [| split; [| split]].
  - unfold completion_of. by rewrite map_to_list_singleton.
  - vm_compute. reflexivity.
  - apply elem_of_intersection. split; apply elem_of_dom; vm_compute; eauto.
  - vm_compute. reflexivity.
Qed.

Lemma empty_error_text_routes_to_success_witness :
  fst (@process_device json_ref "lab1" (unreachable "cisco_xr" "") [])
  = inr ("lab1", [], Some "")
  /\ optics_data (@main_loop json_ref utf8_console
        [("lab1", unreachable "cisco_xr" "");
         ("core1", xr_router);
         ("edge1", unreachable "cisco_xe" "TCP connection to device failed")])
     !! "lab1" = Some []
  /\ failed_connections (@main_loop json_ref utf8_console
        [("lab1", unreachable "cisco_xr" "");
         ("core1", xr_router);
         ("edge1", unreachable "cisco_xe" "TCP connection to device failed")])
     !! "lab1" = None.
Proof.
  apply (@empty_error_text_routes_to_success json_ref utf8_console roster3 _ "lab1"
           (unreachable "cisco_xr" "") (Raise OtherException "") []).
  - exact roster3_completion.
  - vm_compute. reflexivity.
  - vm_compute. reflexivity.
  - reflexivity.
Defined.

(** ** Dictionaries *)

Section dict_facts.
Context {V : Type}.
Implicit Types (d : list (pykey * V)) (k : pykey) (v : V).

(** Two keys are equal for Python when they are the same number, the
    same string, or both [None]. *)
Lemma key_eqb_norm k1 k2 : key_eqb k1 k2 = true <-> key_norm k1 = key_norm k2.
Proof.
  destruct k1 as [| [|] | z1 | s1], k2 as [| [|] | z2 | s2];
    unfold key_eqb, key_norm, Bool.eqb;
    rewrite ?Z.eqb_eq, ?String.eqb_eq; split; intros H;
    try discriminate; try reflexivity; try congruence.
Qed.

Lemma key_eqb_refl k : key_eqb k k = true.
Proof. by apply key_eqb_norm. Qed.

Lemma key_eqb_sym k1 k2 : key_eqb k1 k2 = key_eqb k2 k1.
Proof.
  destruct (key_eqb k1 k2) eqn:H1, (key_eqb k2 k1) eqn:H2; try reflexivity.
  - apply key_eqb_norm in H1. symmetry in H1. apply key_eqb_norm in H1. congruence.
  - apply key_eqb_norm in H2. symmetry in H2. apply key_eqb_norm in H2. congruence.
Qed.

Lemma key_eqb_trans k1 k2 k3 :
  key_eqb k1 k2 = true -> key_eqb k2 k3 = true -> key_eqb k1 k3 = true.
Proof. rewrite !key_eqb_norm. congruence. Qed.

(** Equal keys look up the same. *)
Lemma key_eqb_congr k1 k2 k3 :
  key_eqb k1 k2 = true -> key_eqb k1 k3 = key_eqb k2 k3.
Proof.
  intros H12. destruct (key_eqb k1 k3) eqn:H13, (key_eqb k2 k3) eqn:H23;
    try reflexivity.
  - rewrite key_eqb_sym in H12. rewrite (key_eqb_trans _ _ _ H12 H13) in H23.
    discriminate.
  - rewrite (key_eqb_trans _ _ _ H12 H23) in H13. discriminate.
Qed.

Lemma get_set d k v k' :
  Dict.get (Dict.set k v d) k' = if key_eqb k k' then Some v else Dict.get d k'.
Proof.
  induction d as [| [k0 v0] d IH]; simpl.
  - reflexivity.
  - destruct (key_eqb k0 k) eqn:H0; simpl.
    + rewrite (key_eqb_congr _ _ k' H0). by destruct (key_eqb k k').
    + rewrite IH. destruct (key_eqb k0 k') eqn:H0', (key_eqb k k') eqn:Hk;
        try reflexivity.
      rewrite key_eqb_sym in Hk.
      rewrite (key_eqb_trans _ _ _ H0' Hk) in H0. discriminate.
Qed.

(** [d[k] = v] keeps the keys in place, and appends [k] when it is new. *)
Lemma keys_set d k v :
  Dict.keys (Dict.set k v d)
  = match Dict.get d k with
    | Some _ => Dict.keys d
    | None => (Dict.keys d ++ [k])%list
    end.
Proof.
  unfold Dict.keys. induction d as [| [k0 v0] d IH]; simpl.
  - reflexivity.
  - destruct (key_eqb k0 k); simpl; [reflexivity |].
    rewrite IH. by destruct (Dict.get d k).
Qed.
End dict_facts.

(** ** The regular expression *)

Lemma greedy_continues {R : Type} k (cont : string -> string -> option R) lo taken s r :
  Re.greedy k cont lo taken s = Some r -> exists txt rest, cont txt rest = Some r.
Proof.
  revert lo taken. induction s as [| c s IH]; intros lo taken; simpl.
  - destruct lo; [eauto | discriminate].
  - destruct (Re.cls_ok k c).
    + destruct (Re.greedy k cont (Init.Nat.pred lo) (String c taken) s) eqn:Hg.
      * intros [= <-]. eauto.
      * destruct lo; [eauto | discriminate].
    + destruct lo; [eauto | discriminate].
Qed.

(** A match binds every group of the pattern. *)
Lemma match_here_groups p s gs rest :
  Re.match_here p s = Some (gs, rest) -> length gs = group_count p.
Proof.
  revert s gs rest. induction p as [| [l | k lo | k lo] p IH]; intros s gs rest; simpl.
  - by intros [= <- <-].
  - destruct (PyStr.strip_prefix l s); [apply IH | discriminate].
  - intros Hg. apply greedy_continues in Hg as (txt & rest' & Hm). eauto.
  - intros Hg. apply greedy_continues in Hg as (txt & rest' & Hm).
    destruct (Re.match_here p rest') as [[gs' rest''] |] eqn:Hp; [| discriminate].
    injection Hm as <- <-. simpl. f_equal. eauto.
Qed.

Lemma finditer_groups p s :
  Forall (fun gs => length gs = group_count p) (Re.finditer p s).
Proof.
  unfold Re.finditer. generalize 0 as skip.
  induction s as [| c s IH]; intros skip; simpl.
  - destruct skip; [| constructor].
    destruct (Re.match_here p "") as [[gs rest] |] eqn:Hm; constructor;
      [by eapply match_here_groups | constructor].
  - destruct skip; [| apply IH].
    destruct (Re.match_here p (String c s)) as [[gs rest] |] eqn:Hm; [| apply IH].
    constructor; [by eapply match_here_groups | apply IH].
Qed.

(** ** The free-text parser *)

Lemma key_eqb_KStr name k : key_eqb (KStr name) k = true <-> k = KStr name.
Proof.
  destruct k; simpl; split; try discriminate.
  - intros H. apply String.eqb_eq in H. by subst.
  - intros [= ->]. apply String.eqb_refl.
Qed.

(** The loop over the matches, from any [optics_info]: it does not raise,
    and an entry of the dictionary after the loop was there before it or
    comes from a match with a port name. *)
Lemma text_loop (ms : list (list string)) (d0 : optics) :
  Forall (fun gs => length gs = 5) ms ->
  exists d,
    for_each ms text_match d0 = (inr tt, d)
    /\ (forall name,
          is_Some (Dict.get d (KStr name)) <->
          is_Some (Dict.get d0 (KStr name))
          \/ (is_port_name name = true
              /\ exists descr pid vid sn, [name; descr; pid; vid; sn] ∈ ms))
    /\ (forall k r,
          Dict.get d k = Some r ->
          Dict.get d0 k = Some r
          \/ exists name descr pid vid sn,
               k = KStr name /\ is_port_name name = true
               /\ [name; descr; pid; vid; sn] ∈ ms
               /\ r = text_record descr pid vid sn)
    /\ (ms = [] -> d = d0).
Proof.
  revert d0. induction ms as [| gs ms IH]; intros d0 Hlen.
  - exists d0. split; [reflexivity |]. split; [| split; [| reflexivity]].
    + intros name. split; [auto |]. intros [H | (_ & ? & ? & ? & ? & H)]; [done |].
      by apply elem_of_nil in H.
    + auto.
  - apply Forall_cons in Hlen as [Hgs Hlen]. specialize (fun d => IH d Hlen).
    destruct gs as [| name0 [| descr0 [| pid0 [| vid0 [| sn0 [| ? ?]]]]]];
      try discriminate Hgs.
    simpl. unfold bind. simpl.
    destruct (is_port_name name0) eqn:Hport; simpl.
    + destruct (IH (Dict.set (KStr name0) (text_record descr0 pid0 vid0 sn0) d0))
        as (d & Hrun & Hkeys & Hrec & _).
      exists d. split; [exact Hrun |]. split; [| split; [| discriminate]].
      * intros name. rewrite Hkeys, get_set. split.
        -- intros [Hin | (Hp & descr & pid & vid & sn & Hin)].
           ++ destruct (key_eqb (KStr name0) (KStr name)) eqn:Heq; [| by left].
              apply key_eqb_KStr in Heq as [= ->]. right. split; [done |].
              exists descr0, pid0, vid0, sn0. left.
           ++ right. split; [done |]. exists descr, pid, vid, sn. by right.
        -- intros [Hin | (Hp & descr & pid & vid & sn & Hin)].
           ++ left. by destruct (key_eqb (KStr name0) (KStr name)).
           ++ apply elem_of_cons in Hin as [[= -> -> -> -> ->] | Hin].
              ** left. by rewrite key_eqb_refl.
              ** right. split; [done |]. by exists descr, pid, vid, sn.
      * intros k r Hget. apply Hrec in Hget as [Hget | Hget].
        -- rewrite get_set in Hget.
           destruct (key_eqb (KStr name0) k) eqn:Heq; [| by left].
           apply key_eqb_KStr in Heq as ->. injection Hget as <-.
           right. exists name0, descr0, pid0, vid0, sn0.
           repeat split; try done. left.
        -- destruct Hget as (name & descr & pid & vid & sn & -> & Hp & Hin & ->).
           right. exists name, descr, pid, vid, sn. repeat split; try done. by right.
    + destruct (IH d0) as (d & Hrun & Hkeys & Hrec & _).
      exists d. split; [exact Hrun |]. split; [| split; [| discriminate]].
      * intros name. rewrite Hkeys. split.
        -- intros [Hin | (Hp & descr & pid & vid & sn & Hin)]; [by left |].
           right. split; [done |]. exists descr, pid, vid, sn. by right.
        -- intros [Hin | (Hp & descr & pid & vid & sn & Hin)]; [by left |].
           apply elem_of_cons in Hin as [[= -> -> -> -> ->] | Hin]; [congruence |].
           right. split; [done |]. by exists descr, pid, vid, sn.
      * intros k r Hget. apply Hrec in Hget as [Hget | Hget]; [by left |].
        destruct Hget as (name & descr & pid & vid & sn & -> & Hp & Hin & ->).
        right. exists name, descr, pid, vid, sn. repeat split; try done. by right.
Qed.

(** [str.lower] maps to a small letter that letter and its capital, and
    nothing else. *)
Lemma lower_char_p c : PyStr.lower_char c = "p"%char <-> spec_letter "p" "P" c.
Proof.
  unfold spec_letter.
  destruct c as [[] [] [] [] [] [] [] []]; vm_compute; split; intros H;
    solve [discriminate H | destruct H as [H | H]; discriminate H | auto].
Qed.

Lemma lower_char_o c : PyStr.lower_char c = "o"%char <-> spec_letter "o" "O" c.
Proof.
  unfold spec_letter.
  destruct c as [[] [] [] [] [] [] [] []]; vm_compute; split; intros H;
    solve [discriminate H | destruct H as [H | H]; discriminate H | auto].
Qed.

Lemma lower_char_r c : PyStr.lower_char c = "r"%char <-> spec_letter "r" "R" c.
Proof.
  unfold spec_letter.
  destruct c as [[] [] [] [] [] [] [] []]; vm_compute; split; intros H;
    solve [discriminate H | destruct H as [H | H]; discriminate H | auto].
Qed.

Lemma lower_char_t c : PyStr.lower_char c = "t"%char <-> spec_letter "t" "T" c.
Proof.
  unfold spec_letter.
  destruct c as [[] [] [] [] [] [] [] []]; vm_compute; split; intros H;
    solve [discriminate H | destruct H as [H | H]; discriminate H | auto].
Qed.

Lemma startswith_spec p s :
  PyStr.startswith p s = true <-> exists after, s = p ++ after.
Proof.
  revert s. induction p as [| a p IH]; intros s.
  - split; [intros _; by exists s | by destruct s].
  - destruct s as [| b s]; cbn [PyStr.startswith].
    + split; [discriminate | intros [after H]; discriminate H].
    + rewrite andb_true_iff, Ascii.eqb_eq, IH. split.
      * intros [-> [after ->]]. by exists after.
      * intros [after H]. change (String a p ++ after) with (String a (p ++ after)) in H.
        injection H as -> ->. split; [reflexivity | by exists after].
Qed.

(** [needle in hay] is the substring test. *)
Lemma contains_spec needle hay :
  (needle in_str hay) = true <-> spec_substring needle hay.
Proof.
  unfold spec_substring. induction hay as [| c hay IH]; cbn [PyStr.contains].
  - rewrite orb_false_r, startswith_spec. split.
    + intros [after H]. by exists "", after.
    + intros (before & after & H). destruct before; [by exists after | discriminate H].
  - rewrite orb_true_iff, startswith_spec, IH. split.
    + intros [[after H] | (before & after & H)].
      * by exists "", after.
      * exists (String c before), after. by rewrite H.
    + intros (before & after & H). destruct before as [| c' before].
      * left. by exists after.
      * right. change (String c' before ++ needle ++ after)
          with (String c' (before ++ needle ++ after)) in H.
        injection H as -> ->. by exists before, after.
Qed.

Lemma startswith_port_lower s :
  PyStr.startswith "port" (PyStr.lower s) = true
  <-> exists p o r t after,
        s = String p (String o (String r (String t after)))
        /\ spec_letter "p" "P" p /\ spec_letter "o" "O" o
        /\ spec_letter "r" "R" r /\ spec_letter "t" "T" t.
Proof.
  rewrite <- ?lower_char_p.
  destruct s as [| p [| o [| r [| t after]]]]; cbn [PyStr.lower PyStr.startswith];
    rewrite ?andb_false_r; try (split; [discriminate | by intros (? & ? & ? & ? & ? & ? & _)]).
  rewrite !andb_true_iff, !Ascii.eqb_eq. split.
  - intros (Hp & Ho & Hr & Ht & _). exists p, o, r, t, after.
    split; [reflexivity |].
    by rewrite <- lower_char_p, <- lower_char_o, <- lower_char_r, <- lower_char_t.
  - intros (p' & o' & r' & t' & after' & [= -> -> -> -> ->] & Hp & Ho & Hr & Ht).
    apply lower_char_p in Hp. apply lower_char_o in Ho.
    apply lower_char_r in Hr. apply lower_char_t in Ht. by repeat split.
Qed.

(** ['port' in name.lower()] tests for [port] in any case. *)
Lemma contains_port_lower name :
  ("port" in_str PyStr.lower name) = true <-> spec_port_nocase name.
Proof.
  unfold spec_port_nocase. induction name as [| c name IH].
  - split; [discriminate |].
    intros (before & p & o & r & t & after & H & _). destruct before; discriminate H.
  - change (PyStr.lower (String c name))
      with (String (PyStr.lower_char c) (PyStr.lower name)).
    cbn [PyStr.contains].
    change (String (PyStr.lower_char c) (PyStr.lower name))
      with (PyStr.lower (String c name)).
    rewrite orb_true_iff, startswith_port_lower, IH. split.
    + intros [(p & o & r & t & after & H & Hl) | (before & p & o & r & t & after & H & Hl)].
      * by exists "", p, o, r, t, after.
      * exists (String c before), p, o, r, t, after. by rewrite H.
    + intros (before & p & o & r & t & after & H & Hl). destruct before as [| c' before].
      * left. by exists p, o, r, t, after.
      * right. change (String c' before ++ ?x) with (String c' (before ++ x)) in H.
        injection H as -> ->. by exists before, p, o, r, t, after.
Qed.

(** The test of the script is the filter of the specification. *)
Lemma is_port_name_spec name : is_port_name name = true <-> spec_is_port_name name.
Proof.
  unfold is_port_name, spec_is_port_name.
  rewrite !orb_true_iff, contains_port_lower, !contains_spec. tauto.
Qed.

(** C4. On a free-text platform the parser never raises. The names it
    keeps are exactly the names of the pattern matches that contain
    [port] in any letter case, or [GigE], or [TenGigE]; each record
    carries the groups of such a match and the state [Unknown]. With no
    match the result is empty. When the matches are a block named
    [chassis] and a block named [TenGigE0/0/0/1], only the second gives a
    record; the sample inventory is such an input. *)
Theorem free_text_parser_keeps_port_names `{J : JSON}
    (output : string) (platform : tag) :
  tag_is platform "cisco_nxos" = false ->
  exists d,
    parse_inventory_output output platform = inr d
    /\ (forall name,
          is_Some (Dict.get d (KStr name)) <->
          spec_is_port_name name
          /\ exists descr pid vid sn,
               [name; descr; pid; vid; sn] ∈ Re.finditer pattern output)
    /\ (forall name, is_port_name name = true <-> spec_is_port_name name)
    /\ (forall k r,
          Dict.get d k = Some r ->
          exists name descr pid vid sn,
            k = KStr name /\ spec_is_port_name name
            /\ [name; descr; pid; vid; sn] ∈ Re.finditer pattern output
            /\ r = text_record descr pid vid sn)
    /\ (Re.finditer pattern output = [] -> d = [])
    /\ (forall descr1 pid1 vid1 sn1 descr2 pid2 vid2 sn2,
          Re.finditer pattern output
          = [["chassis"; descr1; pid1; vid1; sn1];
             ["TenGigE0/0/0/1"; descr2; pid2; vid2; sn2]] ->
          d = [(KStr "TenGigE0/0/0/1", text_record descr2 pid2 vid2 sn2)])
    /\ Re.finditer pattern xr_inventory
       = [["chassis"; "ASR 9006 AC Chassis"; "ASR-9006-AC"; "V01"; "FOX1234ABCD"];
          ["TenGigE0/0/0/1"; "10GBASE-LR SFP+"; "SFP-10G-LR"; "V02"; "ABC12345678"]]
    /\ parse_inventory_output xr_inventory platform
       = inr [(KStr "TenGigE0/0/0/1",
               text_record "10GBASE-LR SFP+" "SFP-10G-LR" "V02" "ABC12345678")].
Proof.
  intros Hplat. unfold parse_inventory_output. rewrite Hplat.
  destruct (text_loop (Re.finditer pattern output) []) as (d & Hrun & Hkeys & Hrec & Hnil).
  { apply (finditer_groups pattern output). }
  exists d. rewrite Hrun. split; [reflexivity |].
  split; [| split; [| split; [| split; [| split; [| split]]]]].
  - intros name. rewrite Hkeys, <- is_port_name_spec. simpl. split.
    + intros [[? [=]] | H]; exact H.
    + auto.
  - exact is_port_name_spec.
  - intros k r Hget. apply Hrec in Hget as [[=] | H].
    destruct H as (name & descr & pid & vid & sn & Hk & Hp & Hin & Hr).
    exists name, descr, pid, vid, sn. by rewrite <- is_port_name_spec.
  - exact Hnil.
  - intros descr1 pid1 vid1 sn1 descr2 pid2 vid2 sn2 Hms.
    rewrite Hms in Hrun. vm_compute in Hrun. by injection Hrun as <-.
  - vm_compute. reflexivity.
  - vm_compute. reflexivity.
Qed.

Lemma free_text_parser_keeps_port_names_witness :
  exists d,
    @parse_inventory_output json_ref xe_inventory_ports (Some "cisco_xe") = inr d
    /\ is_Some (Dict.get d (KStr "Uplink Port 1"))
    /\ ~ is_Some (Dict.get d (KStr "Chassis"))
    /\ @parse_inventory_output json_ref xr_inventory (Some "cisco_xe")
       = inr [(KStr "TenGigE0/0/0/1",
               text_record "10GBASE-LR SFP+" "SFP-10G-LR" "V02" "ABC12345678")].
Proof.
  destruct (@free_text_parser_keeps_port_names json_ref xe_inventory_ports
              (Some "cisco_xe")) as (d & Hparse & Hkeys & Hspec & _ & _ & _ & _ & Hxr).
  - reflexivity.
  - exists d. split; [exact Hparse |]. split; [| split; [| exact Hxr]].
    + apply Hkeys. split.
      * left. exists "Uplink ", "P"%char, "o"%char, "r"%char, "t"%char, " 1".
        unfold spec_letter. by repeat split; auto.
      * exists "SFP-10GBase-SR", "SFP-10G-SR", "V03", "AVD2213A1BC".
        vm_compute. right. left.
    + intros Hin. apply Hkeys in Hin as [Hp _]. apply Hspec in Hp. discriminate Hp.
Defined.

(** ** The JSON parser *)

Lemma items_get_lookup row key (absent : pyval) :
  items_get row key absent = default absent (row_lookup row key).
Proof.
  induction row as [| [k v] row IH]; simpl; [reflexivity |].
  by destruct (String.eqb k key).
Qed.

(** The loop body on a row that is an object. *)
Lemma nxos_row_object row (d : optics) :
  nxos_row (PyDict row) d
  = if row_kept row then
      match as_key (row_name row) with
      | inr key => (inr tt, Dict.set key (row_record row) d)
      | inl e => (inl e, d)
      end
    else (inr tt, d).
Proof.
  unfold nxos_row, row_kept, row_name, row_record, bind, lift, modify, ret. simpl.
  destruct (truthy (items_get row "name" PyNone)
            && truthy (items_get row "desc" PyNone)
            && truthy (items_get row "productid" NA)); [| reflexivity].
  by destruct (as_key (items_get row "name" PyNone)).
Qed.

(** The loop over rows that are objects, from any [optics_info]: when the
    names of the kept rows can be keys it does not raise, and an entry of
    the dictionary after the loop was there before it or comes from a kept
    row. *)
Lemma nxos_loop (rows : list (list (string * pyval))) (d0 : optics) :
  (forall row, row ∈ rows -> row_kept row = true ->
               exists key, as_key (row_name row) = inr key) ->
  exists d,
    for_each (PyDict <$> rows) nxos_row d0 = (inr tt, d)
    /\ (forall k,
          is_Some (Dict.get d k) <->
          is_Some (Dict.get d0 k)
          \/ exists row key, row ∈ rows /\ row_kept row = true
                             /\ as_key (row_name row) = inr key
                             /\ key_eqb key k = true)
    /\ (forall k r,
          Dict.get d k = Some r ->
          Dict.get d0 k = Some r
          \/ exists row key, row ∈ rows /\ row_kept row = true
                             /\ as_key (row_name row) = inr key
                             /\ key_eqb key k = true
                             /\ r = row_record row).
Proof.
  revert d0. induction rows as [| row rows IH]; intros d0 Hkeys.
  - exists d0. split; [reflexivity |]. split.
    + intros k. split; [auto |]. intros [H | (? & ? & H & _)]; [done |].
      by apply elem_of_nil in H.
    + auto.
  - assert (Hrest : forall row', row' ∈ rows -> row_kept row' = true ->
                                 exists key, as_key (row_name row') = inr key).
    { intros row' Hin. apply Hkeys. by right. }
    simpl. unfold bind. rewrite nxos_row_object.
    destruct (row_kept row) eqn:Hkept.
    + destruct (Hkeys row) as [key Hkey]; [left | done |]. rewrite Hkey.
      destruct (IH (Dict.set key (row_record row) d0) Hrest) as (d & Hrun & Hdom & Hrec).
      exists d. split; [exact Hrun |]. split.
      * intros k. rewrite Hdom, get_set. split.
        -- intros [Hin | (row' & key' & Hin & H)].
           ++ destruct (key_eqb key k) eqn:Heq; [| by left].
              right. exists row, key. repeat split; try done. left.
           ++ right. exists row', key'. split; [by right | done].
        -- intros [Hin | (row' & key' & Hin & Hk' & Hkey' & Heq)].
           ++ left. by destruct (key_eqb key k).
           ++ apply elem_of_cons in Hin as [-> | Hin].
              ** left. replace key' with key in Heq by congruence. by rewrite Heq.
              ** right. exists row', key'. by repeat split.
      * intros k r Hget. apply Hrec in Hget as [Hget | Hget].
        -- rewrite get_set in Hget. destruct (key_eqb key k) eqn:Heq; [| by left].
           injection Hget as <-. right. exists row, key. repeat split; try done. left.
        -- destruct Hget as (row' & key' & Hin & H). right. exists row', key'.
           split; [by right | done].
    + destruct (IH d0 Hrest) as (d & Hrun & Hdom & Hrec).
      exists d. split; [exact Hrun |]. split.
      * intros k. rewrite Hdom. split.
        -- intros [Hin | (row' & key' & Hin & H)]; [by left |].
           right. exists row', key'. split; [by right | done].
        -- intros [Hin | (row' & key' & Hin & Hk' & Hkey' & Heq)]; [by left |].
           apply elem_of_cons in Hin as [-> | Hin]; [congruence |].
           right. exists row', key'. by repeat split.
      * intros k r Hget. apply Hrec in Hget as [Hget | Hget]; [by left |].
        destruct Hget as (row' & key' & Hin & H). right. exists row', key'.
        split; [by right | done].
Qed.

(** The loop over rows that are objects, looked up at one key: the last
    kept row of that name decides, and without one the entry is as
    before. *)
Lemma nxos_loop_last (rows : list (list (string * pyval))) (d0 d : optics) :
  (forall row, row ∈ rows -> row_kept row = true ->
               exists key, as_key (row_name row) = inr key) ->
  for_each (PyDict <$> rows) nxos_row d0 = (inr tt, d) ->
  forall k,
    Dict.get d k
    = match last_row k rows with
      | Some row => Some (row_record row)
      | None => Dict.get d0 k
      end.
Proof.
  unfold last_row. revert d0. induction rows as [| row rows IH]; intros d0 Hkeys.
  - simpl. by intros [= <-].
  - assert (Hrest : forall row', row' ∈ rows -> row_kept row' = true ->
                                 exists key, as_key (row_name row') = inr key).
    { intros row' Hin. apply Hkeys. by right. }
    simpl. unfold bind. rewrite nxos_row_object. unfold row_named at 1.
    destruct (row_kept row) eqn:Hkept.
    + destruct (Hkeys row) as [key Hkey]; [left | done |]. rewrite Hkey.
      intros Hrun k. rewrite (IH _ Hrest Hrun k). cbn [andb].
      destruct (key_eqb key k) eqn:Heq.
      * rewrite last_cons.
        destruct (last (List.filter (row_named k) rows)); [reflexivity |].
        by rewrite get_set, Heq.
      * destruct (last (List.filter (row_named k) rows)); [reflexivity |].
        by rewrite get_set, Heq.
    + intros Hrun k. cbn [andb]. apply (IH _ Hrest Hrun k).
Qed.

(** C3, as the script has it. When the text decodes to an object whose
    [TABLE_inv] holds under [ROW_inv] a list of objects, and the names of
    the kept rows can be dictionary keys, the parser returns a dictionary
    whose keys are the names of the kept rows, each with the record of
    the last kept row of that name: description, product ID, VID and SN
    as found, state [Unknown]. A row is kept when its name, its
    description and its product ID are true values: a row without name or
    without description is skipped; a row without [productid] gets the
    product ID [N/A] and is kept like the rows without [vid] or
    [serialnum], which get [N/A] too; only a [productid] that is present
    and false (empty, null, zero) makes the row skipped. *)
Theorem nxos_parser_keeps_named_described_rows `{J : JSON}
    (output : string) (data table : pyval) (rows : list (list (string * pyval))) :
  json_loads output = inr data ->
  py_get data "TABLE_inv" (PyDict []) = inr table ->
  py_get table "ROW_inv" (PyList []) = inr (PyList (PyDict <$> rows)) ->
  (forall row, row ∈ rows -> row_kept row = true ->
               exists key, as_key (row_name row) = inr key) ->
  (exists d,
      parse_inventory_output output (Some "cisco_nxos") = inr d
      /\ (forall k,
            is_Some (Dict.get d k) <->
            exists row key, row ∈ rows /\ row_kept row = true
                            /\ as_key (row_name row) = inr key
                            /\ key_eqb key k = true)
      /\ (forall k r,
            Dict.get d k = Some r ->
            exists row key, row ∈ rows /\ row_kept row = true
                            /\ as_key (row_name row) = inr key
                            /\ key_eqb key k = true
                            /\ r = row_record row)
      /\ (forall k, Dict.get d k = row_record <$> last_row k rows))
  /\ (forall row,
        row_lookup row "name" = None \/ row_lookup row "desc" = None ->
        row_kept row = false)
  /\ (forall row,
        row_lookup row "productid" = None ->
        row_kept row = truthy (row_name row) && truthy (Description (row_record row))
        /\ PID (row_record row) = PyStr "N/A")
  /\ (forall row v,
        row_lookup row "productid" = Some v -> truthy v = false ->
        row_kept row = false)
  /\ (forall row, row_lookup row "vid" = None -> VID (row_record row) = PyStr "N/A")
  /\ (forall row, row_lookup row "serialnum" = None -> SN (row_record row) = PyStr "N/A").
Proof.
  intros Hloads Htable Hrows Hkeys. split; [| split; [| split; [| split; [| split]]]].
  - destruct (nxos_loop rows [] Hkeys) as (d & Hrun & Hdom & Hrec).
    exists d. split; [| split; [| split]].
    + unfold parse_inventory_output, bind, lift. simpl.
      rewrite Hloads, Htable, Hrows. simpl. by rewrite Hrun.
    + intros k. rewrite Hdom. simpl. split.
      * intros [[? [=]] | H]; exact H.
      * auto.
    + intros k r Hget. apply Hrec in Hget as [[=] | H]. exact H.
    + intros k. rewrite (nxos_loop_last rows [] d Hkeys Hrun k).
      by destruct (last_row k rows).
  - intros row [H | H]; unfold row_kept; rewrite !items_get_lookup, H; simpl.
    + reflexivity.
    + by rewrite andb_false_r.
  - intros row H. unfold row_kept, row_record, row_name. simpl.
    rewrite (items_get_lookup row "productid"), H. simpl.
    split; [apply andb_true_r | reflexivity].
  - intros row v H Hv. unfold row_kept.
    rewrite (items_get_lookup row "productid"), H. simpl. rewrite Hv.
    apply andb_false_r.
  - intros row H. unfold row_record. simpl. by rewrite items_get_lookup, H.
  - intros row H. unfold row_record. simpl. by rewrite items_get_lookup, H.
Qed.

Lemma nxos_parser_keeps_named_described_rows_witness :
  exists d,
    @parse_inventory_output json_ref nxos_inventory_repeat (Some "cisco_nxos") = inr d
    /\ Dict.keys d = [KStr "Ethernet1/1"]
    /\ Dict.get d (KStr "Ethernet1/1")
       = Some {| Description := PyStr "10Gbase-SR"; PID := PyStr "SFP-10G-SR";
                 VID := PyStr "V03"; SN := PyStr "FNS5678";
                 Operational_State := "Unknown" |}.
Proof.
  destruct (@nxos_parser_keeps_named_described_rows json_ref nxos_inventory_repeat
              (PyDict [("TABLE_inv",
                        PyDict [("ROW_inv", PyList (PyDict <$> nxos_inventory_repeat_rows))])])
              (PyDict [("ROW_inv", PyList (PyDict <$> nxos_inventory_repeat_rows))])
              nxos_inventory_repeat_rows) as [(d & Hparse & _ & _ & Hlast) _].
  - vm_compute. reflexivity.
  - reflexivity.
  - reflexivity.
  - intros row Hin _. unfold nxos_inventory_repeat_rows in Hin.
    repeat (apply elem_of_cons in Hin as [-> | Hin]; [eexists; reflexivity |]).
    by apply elem_of_nil in Hin.
  - exists d. split; [exact Hparse |]. split.
    + vm_compute in Hparse. by injection Hparse as <-.
    + rewrite Hlast. vm_compute. reflexivity.
Defined.

(** C3, as stated, fails: the second row of the sample inventory has no
    [productid] and is kept, with the product ID [N/A]; the third row has
    no [desc] and is skipped. *)
Lemma row_without_productid_is_kept :
  nth_error nxos_inventory_rows 1
  = Some [("name", PyStr "Ethernet1/2"); ("desc", PyStr "10Gbase-SR")]
  /\ @json_loads json_ref nxos_inventory
     = inr (PyDict [("TABLE_inv",
                     PyDict [("ROW_inv", PyList (PyDict <$> nxos_inventory_rows))])])
  /\ @parse_inventory_output json_ref nxos_inventory (Some "cisco_nxos")
     = inr [ (KStr "Ethernet1/1",
              {| Description := PyStr "1000base-SX"; PID := PyStr "GLC-SX-MMD";
                 VID := PyStr "V01"; SN := PyStr "AGM1234";
                 Operational_State := "Unknown" |});
             (KStr "Ethernet1/2",
              {| Description := PyStr "10Gbase-SR"; PID := PyStr "N/A";
                 VID := PyStr "N/A"; SN := PyStr "N/A";
                 Operational_State := "Unknown" |}) ].
Proof. repeat split; vm_compute; reflexivity. Qed.

(** C2, as the script has it. A text that [json.loads] rejects with
    [JSONDecodeError] gives the empty record set, and the parser raises
    nothing; an NX-OS device that answers the inventory command with such
    a text, and whose session opens and closes, comes out of
    [process_device] with no record and no error message, after the
    inventory command and the disconnect. *)
Theorem undecodable_inventory_gives_empty_result `{J : JSON}
    (output : string) (e : exn) :
  json_loads output = inl e ->
  is_JSONDecodeError e = true ->
  parse_inventory_output output (Some "cisco_nxos") = inr []
  /\ forall (device_name : string) (device_info : device),
       device_type device_info = Some "cisco_nxos" ->
       connect_raises (remote device_info) = None ->
       send_command_reply (remote device_info) [] "show inventory all | json"
       = inr output ->
       disconnect_raises (remote device_info) [SendCommand "show inventory all | json"]
       = None ->
       process_device device_name device_info []
       = (inr (device_name, [], None),
          [SendCommand "show inventory all | json"; Disconnect]).
Proof.
  intros Hloads He.
  assert (Hparse : parse_inventory_output output (Some "cisco_nxos") = inr []).
  { unfold parse_inventory_output, bind, lift. simpl. by rewrite Hloads, He. }
  split; [exact Hparse |].
  intros device_name device_info Htype Hconn Hsend Hdisc.
  unfold process_device, try_except, process_device_try, bind, lift,
    get_device_connection, send_command, disconnect, ret.
  rewrite Hconn, Htype. simpl. rewrite Hsend, Hparse. simpl. by rewrite Hdisc.
Qed.

Lemma undecodable_inventory_gives_empty_result_witness :
  @parse_inventory_output json_ref "% Invalid command" (Some "cisco_nxos") = inr []
  /\ @process_device json_ref "n9k-1" (nxos_switch "% Invalid command" "") []
     = (inr ("n9k-1", [], None),
        [SendCommand "show inventory all | json"; Disconnect]).
Proof.
  destruct (@undecodable_inventory_gives_empty_result json_ref "% Invalid command"
              (Raise JSONDecodeError "Expecting value")) as [Hparse Hrun].
  - vm_compute. reflexivity.
  - reflexivity.
  - split; [exact Hparse |].
    apply (Hrun "n9k-1" (nxos_switch "% Invalid command" "")); reflexivity.
Defined.

(** C2, as stated, fails: the text [[]] is JSON but holds no inventory
    table; the parser raises [AttributeError] past itself, and the device
    ends in [failed_connections]. *)
Lemma inventory_of_wrong_shape_raises :
  @json_loads json_ref "[]" = inr (PyList [])
  /\ @parse_inventory_output json_ref "[]" (Some "cisco_nxos")
     = inl (Raise AttributeError "'list' object has no attribute 'get'")
  /\ fst (@process_device json_ref "n9k-1" (nxos_switch "[]" "") [])
     = inr ("n9k-1", [], Some "'list' object has no attribute 'get'")
  /\ optics_data (@main_loop json_ref utf8_console [("n9k-1", nxos_switch "[]" "")])
     !! "n9k-1" = None
  /\ failed_connections (@main_loop json_ref utf8_console [("n9k-1", nxos_switch "[]" "")])
     !! "n9k-1"
     = Some "'list' object has no attribute 'get'".
Proof. repeat split; vm_compute; reflexivity. Qed.

(** ** The status normalizer *)

(** C5 fails on the script. The first line IOS-XR prints for a port that
    is shut down reads [is administratively down, line protocol is
    administratively down]. The script looks for [administratively down]
    only under the test that the line contains [up]; this line does not,
    so the state recorded is [DOWN/DOWN], not [ADMIN_DOWN/DOWN]. *)
Theorem xr_shut_port_reads_down_down :
  xr_lines (PyStr.split_lf xr_shut_reply) "DOWN" "DOWN" = ("DOWN", "DOWN")
  /\ fst (get_interface_status (remote xr_router_shut) (Some "cisco_xr")
            [KStr "TenGigE0/0/0/1"] [])
     = inr [(KStr "TenGigE0/0/0/1", "DOWN/DOWN")]
  /\ fst (@process_device json_ref "core1" xr_router_shut [])
     = inr ("core1",
            [(KStr "TenGigE0/0/0/1",
              {| Description := PyStr "10GBASE-LR SFP+"; PID := PyStr "SFP-10G-LR";
                 VID := PyStr "V02"; SN := PyStr "ABC12345678";
                 Operational_State := "DOWN/DOWN" |})],
            None).
Proof. repeat split; vm_compute; reflexivity. Qed.

(** The NX-OS loop stops at the first line that passes its test and reads
    the state there; with no such line the state stays as it was set
    before the loop. *)
Lemma nxos_lines_first lines :
  nxos_lines lines "DOWN"
  = match find nxos_stops_at (PyStr.lower <$> lines) with
    | Some line_lower => nxos_state_of line_lower
    | None => "DOWN"
    end.
Proof.
  induction lines as [| line lines IH]; simpl; [reflexivity |].
  unfold nxos_stops_at at 1.
  destruct (("is" in_str PyStr.lower line)
            && (("up" in_str PyStr.lower line) || ("down" in_str PyStr.lower line)));
    [| exact IH].
  unfold nxos_state_of.
  destruct ("administratively down" in_str PyStr.lower line); [reflexivity |].
  destruct ("is up" in_str PyStr.lower line); [reflexivity |].
  by destruct ("is down" in_str PyStr.lower line).
Qed.

(** X22. On the NX-OS platform the state of an interface is read from
    the first line of the reply whose lowercase text contains [is] and
    contains [up] or [down]; the interface name is not looked for, later
    lines are not read, and with no such line the state is [DOWN]. On
    that line the state is [ADMIN_DOWN] exactly when it contains
    [administratively down]; otherwise it is [UP] exactly when it
    contains [is up] and either contains [connected] or does not contain
    [notconnect]; in every other case it is [DOWN]. The reply
    [Gi1 is up (connected)] gives the record of [Gi1] the state [UP]. *)
Theorem nxos_state_from_first_is_up_down_line
    (connection : netmiko) (interface_status : list (pykey * string))
    (intf_name : pykey) (log : list call) (output : string) :
  send_command_reply connection log (show_interface intf_name) = inr output ->
  interface_query connection (Some "cisco_nxos") interface_status intf_name log
  = (inr (Dict.set intf_name
            (match find nxos_stops_at (PyStr.lower <$> PyStr.split_lf output) with
             | Some line_lower => nxos_state_of line_lower
             | None => "DOWN"
             end) interface_status),
     (log ++ [SendCommand (show_interface intf_name)])%list)
  /\ (forall line_lower,
        nxos_state_of line_lower = "ADMIN_DOWN"
        <-> ("administratively down" in_str line_lower) = true)
  /\ (forall line_lower,
        nxos_state_of line_lower = "UP"
        <-> ("administratively down" in_str line_lower) = false
            /\ ("is up" in_str line_lower) = true
            /\ (("connected" in_str line_lower) = true
                \/ ("notconnect" in_str line_lower) = false))
  /\ (forall line_lower,
        nxos_state_of line_lower = "ADMIN_DOWN" \/ nxos_state_of line_lower = "UP"
        \/ nxos_state_of line_lower = "DOWN")
  /\ fst (@process_device json_ref "n9k-1"
            (nxos_switch gi1_inventory "Gi1 is up (connected)") [])
     = inr ("n9k-1",
            [(KStr "Gi1",
              {| Description := PyStr "1000base-T"; PID := PyStr "GLC-T";
                 VID := PyStr "V02"; SN := PyStr "MTC5678";
                 Operational_State := "UP" |})],
            None).
Proof.
  intros Hreply. split; [| split; [| split; [| split; [| vm_compute; reflexivity]]]].
  - unfold interface_query, bind, send_command, ret. simpl.
    rewrite Hreply. by rewrite nxos_lines_first.
  - intros l. unfold nxos_state_of.
    destruct ("administratively down" in_str l); [done |].
    destruct ("is up" in_str l); [| done].
    destruct ("connected" in_str l); [done |].
    by destruct ("notconnect" in_str l).
  - intros l. unfold nxos_state_of.
    destruct ("administratively down" in_str l), ("is up" in_str l),
      ("connected" in_str l), ("notconnect" in_str l); naive_solver.
  - intros l. unfold nxos_state_of.
    destruct ("administratively down" in_str l); [by left |].
    destruct ("is up" in_str l); [| by right; right].
    destruct ("connected" in_str l); [by right; left |].
    destruct ("notconnect" in_str l); [by right; right | by right; left].
Qed.

Lemma nxos_state_from_first_is_up_down_line_witness :
  interface_query (remote (nxos_switch gi1_inventory gi1_described_reply))
    (Some "cisco_nxos") [] (KStr "Gi1") [SendCommand "show inventory all | json"]
  = (inr [(KStr "Gi1", "DOWN")],
     [SendCommand "show inventory all | json"; SendCommand "show interface Gi1"]).
Proof.
  apply (nxos_state_from_first_is_up_down_line
           (remote (nxos_switch gi1_inventory gi1_described_reply)) []
           (KStr "Gi1") [SendCommand "show inventory all | json"]
           gi1_described_reply).
  reflexivity.
Defined.

(** C6. The script does not do what the claim says, and what its own
    comment says it looks for (the line that contains both the interface
    and its status). In this reply the line [Gi1 is up (connected)] is
    the first that contains the interface name with [is up], and the
    state the claim gives is [UP]. The test of the script never uses the
    interface name: it stops at the description line before it, which
    contains [is] (in [distribution]) and [up] (in [uplink]), reads no
    state there, and records [DOWN] for a port that is up. *)
Theorem nxos_description_line_hides_state :
  spec_nxos_state "Gi1" gi1_described_reply = "UP"
  /\ PyStr.split_lf gi1_described_reply
     = ["Description: uplink to distribution"; "Gi1 is up (connected)"]
  /\ nxos_lines (PyStr.split_lf gi1_described_reply) "DOWN" = "DOWN"
  /\ fst (@process_device json_ref "n9k-1"
            (nxos_switch gi1_inventory gi1_described_reply) [])
     = inr ("n9k-1",
            [(KStr "Gi1",
              {| Description := PyStr "1000base-T"; PID := PyStr "GLC-T";
                 VID := PyStr "V02"; SN := PyStr "MTC5678";
                 Operational_State := "DOWN" |})],
            None).
Proof. repeat split; vm_compute; reflexivity. Qed.

(** ** The status loop *)

Lemma status_replies_length connection log names :
  length (status_replies connection log names) = length names.
Proof.
  revert log. induction names as [| k names IH]; intros log; simpl; [reflexivity |].
  by rewrite IH.
Qed.

(** One turn of the loop of [get_interface_status] never raises: it sends
    the query and records the state, [ERROR] when the query raised. *)
Lemma interface_turn connection platform interface_status intf_name log :
  supported platform = true ->
  try_except (interface_query connection platform interface_status intf_name)
    (fun e => ret (Dict.set intf_name "ERROR" interface_status)) log
  = (inr (Dict.set intf_name
            (status_of_reply platform
               (send_command_reply connection log (show_interface intf_name)))
            interface_status),
     (log ++ [SendCommand (show_interface intf_name)])%list).
Proof.
  intros Hsup. unfold try_except, interface_query, bind, send_command, ret, status_of_reply.
  destruct (tag_is platform "cisco_nxos") eqn:Hnx.
  - by destruct (send_command_reply connection log (show_interface intf_name)).
  - unfold supported in Hsup. rewrite Hnx, orb_false_r in Hsup. rewrite Hsup.
    destruct (send_command_reply connection log (show_interface intf_name)); [reflexivity |].
    by destruct (xr_lines (PyStr.split_lf s) "DOWN" "DOWN").
Qed.

(** The whole loop: every query is sent, in the order of the names, and
    nothing is raised. *)
Lemma status_loop connection platform names interface_status log :
  supported platform = true ->
  get_interface_status_loop connection platform names interface_status log
  = (inr (fold_left (fun st entry => Dict.set (fst entry) (snd entry) st)
            (zip names (status_of_reply platform <$> status_replies connection log names))
            interface_status),
     (log ++ status_queries names)%list).
Proof.
  intros Hsup. revert interface_status log.
  induction names as [| k names IH]; intros interface_status log.
  - simpl. unfold ret. by rewrite app_nil_r.
  - cbn [get_interface_status_loop]. unfold bind at 1.
    rewrite (interface_turn _ _ _ _ _ Hsup), IH. simpl.
    by rewrite <- app_assoc.
Qed.

(** ** Keys stay distinct *)

Section distinct.
Context {V : Type}.
Implicit Types (d : list (pykey * V)) (k : pykey) (v : V).

Lemma get_None d k :
  Dict.get d k = None <-> Forall (fun k' => key_eqb k' k = false) (Dict.keys d).
Proof.
  unfold Dict.keys. induction d as [| [k0 v0] d IH]; simpl.
  - split; [constructor | reflexivity].
  - rewrite Forall_cons. destruct (key_eqb k0 k); simpl.
    + split; [discriminate | intros [[=] _]].
    + rewrite IH. tauto.
Qed.

Lemma distinct_snoc ks k :
  distinct_keys ks -> Forall (fun k' => key_eqb k' k = false) ks ->
  distinct_keys (ks ++ [k]).
Proof.
  induction ks as [| k0 ks IH]; simpl.
  - intros _ _. split; [constructor | exact I].
  - intros [Hk0 Hks] Hall. apply Forall_cons in Hall as [H0 Hall]. split.
    + apply Forall_app. split; [exact Hk0 |]. constructor; [exact H0 | constructor].
    + by apply IH.
Qed.

Lemma distinct_set d k v :
  distinct_keys (Dict.keys d) -> distinct_keys (Dict.keys (Dict.set k v d)).
Proof.
  intros Hd. rewrite keys_set. destruct (Dict.get d k) eqn:Hget; [exact Hd |].
  apply distinct_snoc; [exact Hd |]. by apply get_None.
Qed.

(** In a list of distinct keys, the keys before a key differ from it. *)
Lemma distinct_before ks1 k ks2 :
  distinct_keys (ks1 ++ k :: ks2) -> Forall (fun k' => key_eqb k' k = false) ks1.
Proof.
  induction ks1 as [| k0 ks1 IH]; simpl; [constructor |].
  intros [Hk0 Hks]. constructor; [| by apply IH].
  apply Forall_app in Hk0 as [_ Hk0]. by apply Forall_cons in Hk0 as [Hk0 _].
Qed.
End distinct.

(** A loop keeps what each turn keeps. *)
Lemma for_each_invariant {S A : Type} (P : S -> Prop) (body : A -> SE S unit) :
  (forall x s, P s -> P (snd (body x s))) ->
  forall xs s, P s -> P (snd (for_each xs body s)).
Proof.
  intros Hbody xs. induction xs as [| x xs IH]; intros s Hs; simpl; [exact Hs |].
  unfold bind. specialize (Hbody x s Hs).
  destruct (body x s) as [[e | []] s']; simpl in *; [exact Hbody | by apply IH].
Qed.

Lemma nxos_row_distinct item (d : optics) :
  distinct_keys (Dict.keys d) -> distinct_keys (Dict.keys (snd (nxos_row item d))).
Proof.
  intros Hd. unfold nxos_row, bind, lift, modify, ret.
  repeat (case_match; simplify_eq/=); try exact Hd.
  by apply distinct_set.
Qed.

Lemma text_match_distinct groups (d : optics) :
  distinct_keys (Dict.keys d) -> distinct_keys (Dict.keys (snd (text_match groups d))).
Proof.
  intros Hd. unfold text_match, modify, ret, raise.
  repeat (case_match; simplify_eq/=); try exact Hd.
  by apply distinct_set.
Qed.

(** The keys of the dictionary the parser returns are distinct. *)
Lemma parse_inventory_output_distinct `{J : JSON} output platform d :
  parse_inventory_output output platform = inr d -> distinct_keys (Dict.keys d).
Proof.
  unfold parse_inventory_output. destruct (tag_is platform "cisco_nxos").
  - unfold bind, lift.
    destruct (json_loads output) as [e | data]; simpl.
    { destruct (is_JSONDecodeError e); [intros [= <-]; exact I | discriminate]. }
    destruct (py_get data "TABLE_inv" (PyDict [])) as [e | table]; simpl.
    { destruct (is_JSONDecodeError e); [intros [= <-]; exact I | discriminate]. }
    destruct (py_get table "ROW_inv" (PyList [])) as [e | rows]; simpl.
    { destruct (is_JSONDecodeError e); [intros [= <-]; exact I | discriminate]. }
    destruct (py_iter rows) as [e | items]; simpl.
    { destruct (is_JSONDecodeError e); [intros [= <-]; exact I | discriminate]. }
    pose proof (for_each_invariant (fun s : optics => distinct_keys (Dict.keys s))
                  nxos_row nxos_row_distinct items [] I) as Hinv.
    destruct (for_each items nxos_row []) as [[e | []] s]; simpl in Hinv.
    + destruct (is_JSONDecodeError e); [intros [= <-]; exact Hinv | discriminate].
    + intros [= <-]. exact Hinv.
  - pose proof (for_each_invariant (fun s : optics => distinct_keys (Dict.keys s))
                  text_match text_match_distinct (Re.finditer pattern output) [] I) as Hinv.
    destruct (for_each (Re.finditer pattern output) text_match []) as [[e | []] s];
      simpl in Hinv; [discriminate |].
    intros [= <-]. exact Hinv.
Qed.

(** ** Merging the states into the records *)

Section merge.
Implicit Types (st : list (pykey * string)) (names : list pykey) (ss : list string).

Lemma fold_set_other names ss st k :
  Forall (fun k' => key_eqb k k' = false) names ->
  Dict.get (fold_left (fun st entry => Dict.set (fst entry) (snd entry) st)
              (zip names ss) st) k
  = Dict.get st k.
Proof.
  revert ss st. induction names as [| k0 names IH]; intros ss st Hall; [reflexivity |].
  apply Forall_cons in Hall as [H0 Hall].
  destruct ss as [| s ss]; [reflexivity |]. simpl.
  rewrite (IH _ _ Hall). rewrite get_set. by rewrite key_eqb_sym, H0.
Qed.

(** After the status loop over distinct names, each name has the state
    of its own query. *)
Lemma fold_set_get names ss st i k s :
  distinct_keys names ->
  names !! i = Some k -> ss !! i = Some s ->
  Dict.get (fold_left (fun st entry => Dict.set (fst entry) (snd entry) st)
              (zip names ss) st) k
  = Some s.
Proof.
  revert ss st i. induction names as [| k0 names IH]; intros ss st i Hd Hk Hs.
  - by rewrite lookup_nil in Hk.
  - destruct Hd as [H0 Hd]. destruct ss as [| s0 ss]; [by rewrite lookup_nil in Hs |].
    destruct i as [| i]; simpl in *.
    + injection Hk as ->. injection Hs as ->.
      rewrite (fold_set_other _ _ _ _ H0).
      rewrite get_set. by rewrite key_eqb_refl.
    + by apply (IH ss _ i).
Qed.

Lemma set_state_skip (pre : optics) k status r (d : optics) :
  Forall (fun k' => key_eqb k' k = false) (Dict.keys pre) ->
  set_state k status (pre ++ (k, r) :: d)%list
  = (pre ++ (k, set_Operational_State status r) :: d)%list.
Proof.
  unfold Dict.keys. induction pre as [| [k0 r0] pre IH]; simpl; intros Hall.
  - by rewrite key_eqb_refl.
  - apply Forall_cons in Hall as [H0 Hall]. simpl in H0. rewrite H0.
    by rewrite IH.
Qed.

(** The loop that writes the states visits every record once and gives
    it the state found under its own key, [Unknown] when there is none. *)
Lemma update_states_map st (optics_info : optics) :
  distinct_keys (Dict.keys optics_info) ->
  update_states st optics_info
  = (fun entry =>
       (fst entry,
        set_Operational_State (default "Unknown" (Dict.get st (fst entry))) (snd entry)))
    <$> optics_info.
Proof.
  unfold update_states.
  assert (Hgen : forall (d pre : optics),
             distinct_keys (Dict.keys pre ++ Dict.keys d)%list ->
             fold_left
               (fun d0 interface_name =>
                  set_state interface_name
                    (default "Unknown" (Dict.get st interface_name)) d0)
               (Dict.keys d) (pre ++ d)%list
             = (pre ++ ((fun entry =>
                          (fst entry,
                           set_Operational_State
                             (default "Unknown" (Dict.get st (fst entry))) (snd entry)))
                         <$> d))%list).
  { induction d as [| [k r] d IH]; intros pre Hd; [reflexivity |].
    cbn [Dict.keys map fst fold_left] in *.
    rewrite set_state_skip by (by eapply distinct_before).
    rewrite (cons_middle _ pre d), app_assoc. rewrite IH.
    - rewrite <- app_assoc. reflexivity.
    - unfold Dict.keys in *. rewrite map_app, <- app_assoc. exact Hd. }
  intros Hd. exact (Hgen optics_info [] Hd).
Qed.
End merge.

(** ** The device run *)

Lemma inventory_command_supported platform command :
  inventory_command platform = Some command -> supported platform = true.
Proof.
  unfold inventory_command, supported.
  destruct (tag_is platform "cisco_xr"), (tag_is platform "cisco_xe"),
    (tag_is platform "cisco_nxos"); simpl; intros; try reflexivity; discriminate.
Qed.


(** Writing the states found by the status loop gives each record the
    state of its own query. *)
Lemma update_states_merged platform connection command (optics_info : optics) :
  distinct_keys (Dict.keys optics_info) ->
  update_states
    (fold_left (fun st entry => Dict.set (fst entry) (snd entry) st)
       (zip (Dict.keys optics_info)
          (status_of_reply platform
             <$> status_replies connection [SendCommand command] (Dict.keys optics_info)))
       [])
    optics_info
  = merged_records platform connection command optics_info.
Proof.
  intros Hd. rewrite (update_states_map _ _ Hd). unfold merged_records.
  apply list_eq. intros i. rewrite list_lookup_fmap, lookup_zip_with.
  destruct (optics_info !! i) as [[k r] |] eqn:Hi; simpl; [| reflexivity].
  assert (Hk : Dict.keys optics_info !! i = Some k).
  { unfold Dict.keys. change (map fst optics_info) with (fst <$> optics_info).
    by rewrite list_lookup_fmap, Hi. }
  destruct (status_replies connection [SendCommand command] (Dict.keys optics_info) !! i)
    as [reply |] eqn:Hr.
  - simpl. rewrite (fold_set_get _ _ _ i k (status_of_reply platform reply) Hd Hk);
      [reflexivity |].
    by rewrite list_lookup_fmap, Hr.
  - apply lookup_ge_None in Hr. rewrite status_replies_length in Hr.
    apply lookup_lt_Some in Hk. lia.
Qed.

(** A run of the [try] block once the inventory is parsed: every status
    query is sent, none of them makes the block raise, and the block ends
    on the disconnect. *)
Lemma process_device_try_run `{J : JSON} device_name device_info command output
    (optics_info : optics) :
  connect_raises (remote device_info) = None ->
  inventory_command (device_type device_info) = Some command ->
  send_command_reply (remote device_info) [] command = inr output ->
  parse_inventory_output output (device_type device_info) = inr optics_info ->
  process_device_try device_name device_info []
  = (match disconnect_raises (remote device_info)
             (calls_before_disconnect command optics_info) with
     | Some e => inl e
     | None => inr (device_name,
                    merged_records (device_type device_info) (remote device_info)
                      command optics_info,
                    None)
     end,
     (calls_before_disconnect command optics_info ++ [Disconnect])%list).
Proof.
  intros Hconn Hcmd Hsend Hparse.
  pose proof (inventory_command_supported _ _ Hcmd) as Hsup.
  pose proof (parse_inventory_output_distinct _ _ _ Hparse) as Hd.
  unfold process_device_try, get_device_connection. rewrite Hconn.
  unfold bind at 1. unfold ret at 1. rewrite Hcmd.
  unfold bind at 1. unfold send_command at 1. rewrite Hsend. simpl app.
  unfold bind at 1. unfold lift at 1. rewrite Hparse.
  unfold bind at 1.
  destruct optics_info as [| entry optics_info'] eqn:Hoi.
  - simpl. unfold ret, disconnect, bind, calls_before_disconnect. simpl.
    by destruct (disconnect_raises (remote device_info) [SendCommand command]).
  - rewrite <- Hoi in *. replace (Dict.nonempty optics_info) with true by (by rewrite Hoi).
    unfold bind at 1. unfold get_interface_status.
    rewrite (status_loop _ _ _ _ _ Hsup).
    unfold ret at 1. rewrite (update_states_merged _ _ _ _ Hd).
    unfold bind, disconnect, ret, calls_before_disconnect. simpl.
    by destruct (disconnect_raises (remote device_info)
                   (SendCommand command :: status_queries (Dict.keys optics_info))).
Qed.

Lemma nxos_lines_states lines :
  nxos_lines lines "DOWN" = "ADMIN_DOWN" \/ nxos_lines lines "DOWN" = "UP"
  \/ nxos_lines lines "DOWN" = "DOWN".
Proof.
  rewrite nxos_lines_first.
  destruct (find nxos_stops_at (PyStr.lower <$> lines)) as [l |]; [| auto].
  unfold nxos_state_of. repeat case_match; auto.
Qed.

Lemma xr_lines_states lines :
  xr_lines lines "DOWN" "DOWN" = ("ADMIN_DOWN", "DOWN")
  \/ xr_lines lines "DOWN" "DOWN" = ("UP", "UP")
  \/ xr_lines lines "DOWN" "DOWN" = ("UP", "DOWN")
  \/ xr_lines lines "DOWN" "DOWN" = ("DOWN", "DOWN").
Proof.
  induction lines as [| line lines IH]; simpl; [auto |].
  repeat case_match; auto.
Qed.





(** C8, as the script has it. The session is opened before the platform
    tag is looked at. For a tag outside [cisco_xr], [cisco_xe] and
    [cisco_nxos], no command is ever sent and no record is returned; when
    the session opens, the error message is [Unsupported platform: ]
    followed by the tag; when opening it raises, the error message is the
    text of that exception instead. *)
Theorem unsupported_platform_sends_nothing `{J : JSON}
    (device_name : string) (device_info : device) :
  inventory_command (device_type device_info) = None ->
  process_device device_name device_info []
  = (inr (device_name, [],
          Some (match connect_raises (remote device_info) with
                | Some e => exn_str e
                | None => "Unsupported platform: " ++ tag_format (device_type device_info)
                end)),
     []).
Proof.
  intros Hcmd.
  unfold process_device, try_except, process_device_try, get_device_connection,
    bind, ret, raise.
  destruct (connect_raises (remote device_info)); [reflexivity |].
  by rewrite Hcmd.
Qed.

Lemma unsupported_platform_sends_nothing_witness :
  inventory_command (device_type ios_router) = None
  /\ @process_device json_ref "edge7" ios_router []
     = (inr ("edge7", [], Some "Unsupported platform: cisco_ios"), []).
Proof.
  split; [reflexivity |].
  apply (@unsupported_platform_sends_nothing json_ref "edge7" ios_router).
  reflexivity.
Defined.

(** C8, as stated, fails: this device has an unsupported platform tag and
    cannot be reached; its outcome carries the connection error, which
    says nothing of the platform. *)
Lemma unreachable_unsupported_device_reports_connection_error :
  inventory_command (device_type ios_unreachable) = None
  /\ @process_device json_ref "edge7" ios_unreachable []
     = (inr ("edge7", [], Some "TCP connection to device failed"), [])
  /\ ("unsupported platform" in_str PyStr.lower "TCP connection to device failed") = false.
Proof. repeat split; vm_compute; reflexivity. Qed.

(** C9, as the script has it. The disconnect is inside the [try] block of
    [process_device]. When the inventory and status work is done and the
    disconnect raises, the records are dropped and the device comes out
    with an empty record set and the text of the exception as its error
    message; when that text is not empty, the batch puts the device in
    [failed_connections] and not in [optics_data]. *)
Theorem disconnect_failure_fails_the_device `{J : JSON} `{T : Console}
    (device_name : string) (device_info : device) (command output : string)
    (optics_info : list (pykey * port_record)) (e : exn) :
  connect_raises (remote device_info) = None ->
  inventory_command (device_type device_info) = Some command ->
  send_command_reply (remote device_info) [] command = inr output ->
  parse_inventory_output output (device_type device_info) = inr optics_info ->
  disconnect_raises (remote device_info) (calls_before_disconnect command optics_info)
  = Some e ->
  process_device device_name device_info []
  = (inr (device_name, [], Some (exn_str e)),
     (SendCommand command :: status_queries (Dict.keys optics_info) ++ [Disconnect])%list)
  /\ forall (devices : gmap string device) (completed : list (string * device)),
       completion_of devices completed ->
       devices !! device_name = Some device_info ->
       exn_str e <> "" ->
       optics_data (main_loop completed) !! device_name = None
       /\ failed_connections (main_loop completed) !! device_name = Some (exn_str e).
Proof.
  intros Hconn Hcmd Hsend Hparse Hdisc.
  assert (Hrun : process_device device_name device_info []
                 = (inr (device_name, [], Some (exn_str e)),
                    (SendCommand command :: status_queries (Dict.keys optics_info)
                     ++ [Disconnect])%list)).
  { unfold process_device, try_except.
    rewrite (process_device_try_run _ _ _ _ _ Hconn Hcmd Hsend Hparse), Hdisc.
    reflexivity. }
  split; [exact Hrun |].
  intros devices completed Hc Hdev Hne.
  assert (Hf : future_result device_name device_info
               = inr (device_name, [], Some (exn_str e))).
  { unfold future_result. by rewrite Hrun. }
  destruct (main_loop_lookup devices completed device_name device_info Hc Hdev)
    as [-> ->].
  unfold success_of, failure_of. rewrite Hf. simpl.
  apply String.eqb_neq in Hne. by rewrite Hne.
Qed.

Lemma disconnect_failure_fails_the_device_witness :
  @process_device json_ref "core1" xr_router_stuck []
  = (inr ("core1", [], Some "Socket is closed"),
     [SendCommand "show inventory"; SendCommand "show interface TenGigE0/0/0/1";
      Disconnect]).
Proof.
  refine (proj1 (@disconnect_failure_fails_the_device json_ref utf8_console "core1"
                   xr_router_stuck
                   "show inventory" xr_inventory
                   [(KStr "TenGigE0/0/0/1",
                     text_record "10GBASE-LR SFP+" "SFP-10G-LR" "V02" "ABC12345678")]
                   (Raise OtherException "Socket is closed") _ _ _ _ _)).
  - reflexivity.
  - reflexivity.
  - reflexivity.
  - vm_compute. reflexivity.
  - reflexivity.
Defined.

(** C9, as stated, fails: this router answers the inventory command and
    the status query, and its session fails to close; the device comes
    out with no record and ends in [failed_connections]. *)
Lemma failed_disconnect_loses_the_records :
  @process_device json_ref "core1" xr_router_stuck []
  = (inr ("core1", [], Some "Socket is closed"),
     [SendCommand "show inventory"; SendCommand "show interface TenGigE0/0/0/1";
      Disconnect])
  /\ optics_data (@main_loop json_ref utf8_console [("core1", xr_router_stuck)])
     !! "core1" = None
  /\ failed_connections (@main_loop json_ref utf8_console [("core1", xr_router_stuck)])
     !! "core1"
     = Some "Socket is closed".
Proof. repeat split; vm_compute; reflexivity. Qed.

(** * Further properties *)

(** ** The batch, whatever the completion order *)

Section batch.
Context `{J : JSON} `{T : Console}.

Local Arguments collect : simpl never.
Local Arguments collect_ordered : simpl never.

(** A name outside the roster is in neither mapping. *)
Lemma main_loop_outside devices completed name :
  completion_of devices completed ->
  devices !! name = None ->
  optics_data (main_loop completed) !! name = None
  /\ failed_connections (main_loop completed) !! name = None.
Proof.
  intros Hc Hdev. destruct (completion_names _ _ Hc) as [_ Hnames].
  assert (Hnot : name ∉ completed.*1).
  { intros Hin. apply (elem_of_list_to_set (C := gset string)) in Hin.
    rewrite Hnames in Hin. by apply not_elem_of_dom in Hdev. }
  destruct (loop_other completed {| optics_data := ∅; failed_connections := ∅ |}
              name Hnot) as [H1 H2].
  unfold main_loop. rewrite H1, H2. simpl. by rewrite !lookup_empty.
Qed.

(** Each mapping holds, for every device of the roster, what that
    device's own run and the printing of its records decide, and nothing
    else. *)
Lemma main_loop_entries devices completed :
  completion_of devices completed ->
  (forall name,
      optics_data (main_loop completed) !! name = devices !! name ≫= success_of name)
  /\ (forall name,
        failed_connections (main_loop completed) !! name
        = devices !! name ≫= failure_of name).
Proof.
  intros Hc. split; intros name.
  - destruct (devices !! name) as [info |] eqn:Hdev; simpl.
    + by destruct (main_loop_lookup devices completed name info Hc Hdev).
    + by destruct (main_loop_outside devices completed name Hc Hdev).
  - destruct (devices !! name) as [info |] eqn:Hdev; simpl.
    + by destruct (main_loop_lookup devices completed name info Hc Hdev).
    + by destruct (main_loop_outside devices completed name Hc Hdev).
Qed.

Lemma outcome_cases name info d m :
  future_result name info = inr (name, d, m) ->
  success_of name info = (if message_truthy m then None else Some d)
  /\ failure_of name info
     = (if message_truthy m then Some (default "" m) else exn_str <$> print_failure d).
Proof. intros Hr. unfold success_of, failure_of. by rewrite Hr. Qed.

Lemma print_failure_none (optics_info : optics) :
  (forall port details, print_raises port details = None) ->
  print_failure optics_info = None.
Proof.
  intros Hq. induction optics_info as [| [port details] d IH]; [reflexivity |].
  simpl. by rewrite Hq.
Qed.

(** X1. The report does not depend on the order in which the devices
    complete. For every device of the roster, the success mapping holds
    its records exactly when its run ends without a true error message;
    the failure mapping holds the message of its run when that is true
    and, when the run gave records, the text of the exception raised by
    the first record that could not be printed; a name outside the roster
    is in neither. Two completion orders of one roster give the same
    report. *)
Theorem report_is_decided_device_by_device
    (devices : gmap string device) (completed : list (string * device)) :
  completion_of devices completed ->
  (forall name,
      optics_data (main_loop completed) !! name
      = devices !! name ≫= success_of name)
  /\ (forall name,
        failed_connections (main_loop completed) !! name
        = devices !! name ≫= failure_of name)
  /\ (forall completed',
        completion_of devices completed' -> main_loop completed' = main_loop completed).
Proof.
  intros Hc. destruct (main_loop_entries devices completed Hc) as [Ho Hf].
  split; [exact Ho |]. split; [exact Hf |].
  intros completed' Hc'. destruct (main_loop_entries devices completed' Hc') as [Ho' Hf'].
  destruct (main_loop completed') as [od' fc'], (main_loop completed) as [od fc].
  simpl in *. f_equal; apply map_eq; intros name; congruence.
Qed.

(** X21. Every device of the roster is a key of at least one of the two
    mappings, and no other name is. A device is a key of both exactly
    when its run gave records and printing one of them raised; on a
    console that prints every record the two key sets are disjoint. *)
Theorem mappings_cover_roster_and_overlap_on_print_failure
    (devices : gmap string device) (completed : list (string * device)) :
  completion_of devices completed ->
  let r := main_loop completed in
  dom (optics_data r) ∪ dom (failed_connections r) = dom devices
  /\ (forall name,
        name ∈ dom (optics_data r) ∩ dom (failed_connections r)
        <-> exists info records e,
              devices !! name = Some info
              /\ success_of name info = Some records
              /\ print_failure records = Some e)
  /\ ((forall port details, print_raises port details = None) ->
      dom (optics_data r) ∩ dom (failed_connections r) = ∅).
Proof.
  intros Hc. cbv zeta. destruct (main_loop_entries devices completed Hc) as [Ho Hf].
  assert (Hboth : forall name,
             name ∈ dom (optics_data (main_loop completed))
                    ∩ dom (failed_connections (main_loop completed))
             <-> exists info records e,
                   devices !! name = Some info
                   /\ success_of name info = Some records
                   /\ print_failure records = Some e).
  { intros name. rewrite elem_of_intersection, !elem_of_dom, Ho, Hf.
    destruct (devices !! name) as [info |]; simpl.
    - destruct (future_result_returns name info) as (d & m & Hr).
      destruct (outcome_cases name info d m Hr) as [Hs Hfl].
      rewrite Hs, Hfl. destruct (message_truthy m).
      + split; [by intros [[? ?] _] |].
        intros (info0 & records & e & [= <-] & Hrec & _). by rewrite Hs in Hrec.
      + split.
        * intros [_ [msg Hmsg]].
          destruct (print_failure d) as [e |] eqn:He; [| done]. by exists info, d, e.
        * intros (info0 & records & e & [= <-] & Hrec & He). rewrite Hs in Hrec.
          injection Hrec as <-. rewrite He. split; eauto.
    - split; [by intros [[? ?] _] | by intros (? & ? & ? & ? & _)]. }
  split; [| split; [exact Hboth |]].
  - apply set_eq. intros name. rewrite elem_of_union, !elem_of_dom, Ho, Hf.
    destruct (devices !! name) as [info |]; simpl.
    + unfold success_of, failure_of.
      destruct (future_result_returns name info) as (d & m & Hr). rewrite Hr. cbv beta iota.
      destruct (message_truthy m); split; eauto.
    + split; [intros [[? ?] | [? ?]]; done | intros [? ?]; done].
  - intros Hq. apply set_eq. intros name. rewrite Hboth. split.
    + intros (info & records & e & _ & _ & He).
      by rewrite (print_failure_none records Hq) in He.
    + intros Hin. by apply elem_of_empty in Hin.
Qed.
End batch.

Lemma report_is_decided_device_by_device_witness :
  @main_loop json_ref utf8_console
    [("edge1", unreachable "cisco_xe" "TCP connection to device failed");
     ("core1", xr_router);
     ("lab1", unreachable "cisco_xr" "")]
  = @main_loop json_ref utf8_console
      [("lab1", unreachable "cisco_xr" "");
       ("core1", xr_router);
       ("edge1", unreachable "cisco_xe" "TCP connection to device failed")].
Proof.
  refine (proj2 (proj2 (@report_is_decided_device_by_device json_ref utf8_console roster3 _
                          roster3_completion)) _ _).
  unfold completion_of. vm_compute.
  apply (Permutation_cons_app [_] [_]). reflexivity.
Defined.

Lemma mappings_cover_roster_and_overlap_on_print_failure_witness :
  let r := @main_loop json_ref utf8_console
             [("lab1", unreachable "cisco_xr" "");
              ("core1", xr_router);
              ("edge1", unreachable "cisco_xe" "TCP connection to device failed")] in
  dom (optics_data r) ∪ dom (failed_connections r) = dom roster3
  /\ dom (optics_data r) ∩ dom (failed_connections r) = ∅.
Proof.
  destruct (@mappings_cover_roster_and_overlap_on_print_failure json_ref utf8_console
              roster3 _ roster3_completion) as (Hu & _ & Hd).
  split; [exact Hu | apply Hd; reflexivity].
Defined.

(** ** The report files *)

Section same_entries_facts.
Context {V : Type}.
Implicit Types (items : list (pykey * V)) (m : gmap string V).

Lemma same_entries_empty : same_entries (V := V) [] ∅.
Proof.
  split; [| split]; simpl; [| constructor | exact I].
  intros name. by rewrite lookup_empty.
Qed.

Lemma same_entries_set items m name v :
  same_entries items m ->
  same_entries (Dict.set (KStr name) v items) (<[name := v]> m).
Proof.
  intros (Hget & Hkeys & Hdist). split; [| split].
  - intros n. rewrite get_set, lookup_insert. simpl.
    destruct (String.eqb_spec name n) as [-> | Hne].
    + by rewrite decide_True.
    + rewrite decide_False by done. apply Hget.
  - rewrite keys_set. destruct (Dict.get items (KStr name)); [exact Hkeys |].
    apply Forall_app. split; [exact Hkeys |]. constructor; [eauto | constructor].
  - by apply distinct_set.
Qed.

(** With distinct keys, the items of a dictionary are what [get] finds. *)
Lemma distinct_elem_get items k v :
  distinct_keys (Dict.keys items) -> (k, v) ∈ items -> Dict.get items k = Some v.
Proof.
  unfold Dict.keys. induction items as [| [k0 v0] items IH]; simpl; intros Hd Hin.
  - by apply elem_of_nil in Hin.
  - destruct Hd as [H0 Hd]. apply elem_of_cons in Hin as [[= -> ->] | Hin].
    + by rewrite key_eqb_refl.
    + assert (Hk : key_eqb k0 k = false).
      { rewrite Forall_forall in H0. apply H0.
        apply list_elem_of_fmap. by exists (k, v). }
      rewrite Hk. by apply IH.
Qed.

Lemma get_elem items k v :
  Dict.get items k = Some v -> exists k', key_eqb k' k = true /\ (k', v) ∈ items.
Proof.
  induction items as [| [k0 v0] items IH]; simpl; [discriminate |].
  destruct (key_eqb k0 k) eqn:Hk.
  - intros [= ->]. exists k0. split; [exact Hk | left].
  - intros Hget. destruct (IH Hget) as (k' & Hk' & Hin). exists k'. split; [exact Hk' |].
    by right.
Qed.

Lemma same_entries_elem items m k v :
  same_entries items m ->
  (k, v) ∈ items <-> exists name, k = KStr name /\ m !! name = Some v.
Proof.
  intros (Hget & Hkeys & Hdist). split.
  - intros Hin. rewrite Forall_forall in Hkeys.
    destruct (Hkeys k) as [name ->].
    { apply list_elem_of_fmap. by exists (k, v). }
    exists name. split; [reflexivity |]. rewrite <- Hget.
    by apply distinct_elem_get.
  - intros (name & -> & Hm). rewrite <- Hget in Hm.
    apply get_elem in Hm as (k' & Hk' & Hin).
    rewrite key_eqb_sym in Hk'. apply key_eqb_KStr in Hk'. by subst.
Qed.

Lemma same_entries_nonempty items m name v :
  same_entries items m -> m !! name = Some v -> Dict.nonempty items = true.
Proof.
  intros Hs Hm. assert (Hin : (KStr name, v) ∈ items).
  { apply (same_entries_elem _ _ _ _ Hs). eauto. }
  destruct items; [by apply elem_of_nil in Hin | reflexivity].
Qed.
End same_entries_facts.

Section ordered.
Context `{J : JSON} `{T : Console}.

Local Arguments collect : simpl never.
Local Arguments collect_ordered : simpl never.

(** One step of the loop, on the ordered dictionaries. *)
Lemma collect_ordered_run ro device_name device_info d m :
  future_result device_name device_info = inr (device_name, d, m) ->
  collect_ordered ro (device_name, device_info)
  = if message_truthy m then set_failed_item device_name (default "" m) ro
    else match print_failure d with
         | Some e =>
             set_failed_item device_name (exn_str e) (set_optics_item device_name d ro)
         | None => set_optics_item device_name d ro
         end.
Proof.
  intros Hf. unfold collect_ordered, try_except, collect_ordered_try, bind, lift.
  rewrite Hf. destruct (message_truthy m); [reflexivity |].
  unfold modify at 1. rewrite print_records_run.
  destruct (print_failure d); reflexivity.
Qed.

(** The ordered dictionaries of the loop hold the entries of the two
    mappings. *)
Lemma main_loop_ordered_entries completed :
  same_entries (optics_items (main_loop_ordered completed))
    (optics_data (main_loop completed))
  /\ same_entries (failed_items (main_loop_ordered completed))
       (failed_connections (main_loop completed)).
Proof.
  unfold main_loop_ordered, main_loop.
  assert (Hgen : forall ro r,
             same_entries (optics_items ro) (optics_data r) ->
             same_entries (failed_items ro) (failed_connections r) ->
             same_entries (optics_items (fold_left collect_ordered completed ro))
               (optics_data (fold_left collect completed r))
             /\ same_entries (failed_items (fold_left collect_ordered completed ro))
                  (failed_connections (fold_left collect completed r))).
  { induction completed as [| [n i] l IH]; intros ro r Ho Hf; [by split |].
    simpl. destruct (future_result_returns n i) as (d & m & Hr).
    apply IH; rewrite (collect_run _ _ _ _ _ Hr), (collect_ordered_run _ _ _ _ _ Hr);
      (destruct (message_truthy m); [| destruct (print_failure d)]); simpl;
      first [assumption | by apply same_entries_set]. }
  apply Hgen; apply same_entries_empty.
Qed.

Lemma set_fresh {V : Type} (items : list (pykey * V)) k v :
  Dict.get items k = None -> Dict.set k v items = (items ++ [(k, v)])%list.
Proof.
  induction items as [| [k0 v0] items IH]; simpl; [reflexivity |].
  destruct (key_eqb k0 k); [discriminate |]. intros Hg. by rewrite IH.
Qed.

(** The optics dictionary lists the devices that succeeded in the order
    in which they completed. *)
Lemma loop_optics_items completed ro :
  NoDup completed.*1 ->
  (forall n, n ∈ completed.*1 -> Dict.get (optics_items ro) (KStr n) = None) ->
  optics_items (fold_left collect_ordered completed ro)
  = (optics_items ro
     ++ omap (fun item => pair (KStr (fst item)) <$> success_of (fst item) (snd item))
          completed)%list.
Proof.
  revert ro. induction completed as [| [n i] l IH]; intros ro Hnd Hnew.
  - simpl. by rewrite app_nil_r.
  - simpl in *. apply NoDup_cons in Hnd as [Hn Hnd].
    destruct (future_result_returns n i) as (d & m & Hr).
    destruct (outcome_cases n i d m Hr) as [Hs _].
    assert (Hstep : optics_items (collect_ordered ro (n, i))
                    = (optics_items ro
                       ++ match success_of n i with
                          | Some records => [(KStr n, records)]
                          | None => []
                          end)%list).
    { rewrite (collect_ordered_run _ _ _ _ _ Hr), Hs.
      destruct (message_truthy m); [by rewrite app_nil_r |].
      assert (Hset : optics_items (set_optics_item n d ro)
                     = (optics_items ro ++ [(KStr n, d)])%list).
      { simpl. apply set_fresh. apply Hnew. left. }
      by destruct (print_failure d). }
    rewrite IH; [| exact Hnd |].
    + rewrite Hstep, <- app_assoc. f_equal. by destruct (success_of n i).
    + intros n' Hn'. assert (Hne : n <> n') by (intros ->; contradiction).
      rewrite Hstep. destruct (success_of n i) as [records |].
      * rewrite <- (set_fresh _ _ _ (Hnew n ltac:(left))), get_set.
        destruct (key_eqb (KStr n) (KStr n')) eqn:Hk.
        -- apply key_eqb_KStr in Hk. congruence.
        -- apply Hnew. by right.
      * rewrite app_nil_r. apply Hnew. by right.
Qed.

(** The data rows of the optics file, device by device. *)
Lemma optics_rows_by_device completed :
  NoDup completed.*1 ->
  flat_map (fun item => map (optics_row (fst item)) (snd item))
    (optics_items (main_loop_ordered completed))
  = completed ≫= device_rows.
Proof.
  intros Hnd. unfold main_loop_ordered.
  rewrite (loop_optics_items completed _ Hnd) by done. simpl.
  clear Hnd. induction completed as [| [n i] l IH]; [reflexivity |].
  cbn [omap list_omap mbind list_bind]. unfold device_rows at 1. simpl.
  destruct (success_of n i) as [records |]; simpl; by rewrite IH.
Qed.
End ordered.

(** ** [str.replace] *)

Lemma contains_tail needle c s :
  (needle in_str String c s) = false ->
  PyStr.startswith needle (String c s) = false /\ (needle in_str s) = false.
Proof.
  cbn [PyStr.contains]. intros H. apply orb_false_iff in H. exact H.
Qed.

(** Without an occurrence of [old], the text is returned as it is. *)
Lemma replace_absent old new s :
  (old in_str s) = false -> PyStrOps.replace old new s = s.
Proof.
  destruct old as [| a old'].
  - destruct s; discriminate.
  - unfold PyStrOps.replace. induction s as [| c s IH]; intros H; [reflexivity |].
    apply contains_tail in H as [Hs Ht].
    cbn [PyStrOps.replace_from]. rewrite Hs. by rewrite IH.
Qed.

Lemma length_append (a b : string) :
  String.length (a ++ b) = String.length a + String.length b.
Proof. induction a as [| c a IH]; simpl; [reflexivity | by rewrite IH]. Qed.

Lemma replace_from_length old new skip s :
  0 < String.length old -> String.length old <= String.length new ->
  String.length s <= String.length (PyStrOps.replace_from old new skip s) + skip.
Proof.
  intros Hpos Hlen. revert skip. induction s as [| c s IH]; intros skip; simpl; [lia |].
  destruct skip as [| n].
  - destruct (PyStr.startswith old (String c s)).
    + rewrite length_append. specialize (IH (String.length old - 1)). lia.
    + simpl. specialize (IH 0). lia.
  - specialize (IH n). lia.
Qed.

(** Replacing by a longer text makes a text with an occurrence longer. *)
Lemma replace_longer old new s :
  0 < String.length old -> String.length old < String.length new ->
  (old in_str s) = true ->
  String.length s < String.length (PyStrOps.replace old new s).
Proof.
  intros Hpos Hlen. destruct old as [| a old']; [simpl in Hpos; lia |].
  unfold PyStrOps.replace. induction s as [| c s IH]; intros H; [discriminate |].
  cbn [PyStr.contains] in H. cbn [PyStrOps.replace_from].
  destruct (PyStr.startswith (String a old') (String c s)) eqn:Hs.
  - rewrite length_append.
    pose proof (replace_from_length (String a old') new
                  (String.length (String a old') - 1) s) as Hr.
    simpl String.length in *. lia.
  - simpl in H. specialize (IH H). simpl. lia.
Qed.

(** The failed-connections path is the output path exactly when the
    output path does not contain [.csv]. *)
Lemma failed_csv_path_same output_csv :
  failed_csv_path output_csv = output_csv <-> (".csv" in_str output_csv) = false.
Proof.
  unfold failed_csv_path. split.
  - intros Heq. destruct (".csv" in_str output_csv) eqn:Hc; [| reflexivity].
    pose proof (replace_longer ".csv" "_failed_connections.csv" output_csv) as Hl.
    rewrite Heq in Hl. simpl in Hl. specialize (Hl ltac:(lia) ltac:(lia) Hc). lia.
  - apply replace_absent.
Qed.

(** ** What the files hold *)

Section report_files.
Context `{J : JSON} `{T : Console}.

(** The data rows of the optics file: one for each port of each device of
    the success mapping. *)
Lemma optics_rows_elem devices completed row :
  completion_of devices completed ->
  row ∈ flat_map (fun item => map (optics_row (fst item)) (snd item))
          (optics_items (main_loop_ordered completed))
  <-> exists name info records port details,
        devices !! name = Some info
        /\ success_of name info = Some records
        /\ (port, details) ∈ records
        /\ row = optics_row (KStr name) (port, details).
Proof.
  intros Hc. destruct (main_loop_ordered_entries completed) as [Ho _].
  destruct (main_loop_entries devices completed Hc) as [Hod _].
  rewrite list_elem_of_In, in_flat_map. split.
  - intros ([k records] & Hin & Hrow). simpl in Hrow.
    apply in_map_iff in Hrow as ([port details] & <- & Hp).
    apply list_elem_of_In in Hin, Hp.
    apply (same_entries_elem _ _ _ _ Ho) in Hin as (name & -> & Hm).
    rewrite Hod in Hm. destruct (devices !! name) as [info |] eqn:Hdev; [| discriminate].
    simpl in Hm. exists name, info, records, port, details. by repeat split.
  - intros (name & info & records & port & details & Hdev & Hs & Hp & ->).
    exists (KStr name, records). split.
    + apply list_elem_of_In. apply (same_entries_elem _ _ _ _ Ho).
      exists name. split; [reflexivity |]. by rewrite Hod, Hdev.
    + simpl. apply in_map_iff. exists (port, details). split; [reflexivity |].
      by apply list_elem_of_In.
Qed.

(** The data rows of the failed-connections file: one for each device of
    the failure mapping. *)
Lemma failed_rows_elem devices completed row :
  completion_of devices completed ->
  row ∈ map (fun item => [key_val (fst item); PyStr (snd item)])
          (failed_items (main_loop_ordered completed))
  <-> exists name info message,
        devices !! name = Some info
        /\ failure_of name info = Some message
        /\ row = [PyStr name; PyStr message].
Proof.
  intros Hc. destruct (main_loop_ordered_entries completed) as [_ Hf].
  destruct (main_loop_entries devices completed Hc) as [_ Hfc].
  rewrite list_elem_of_In, in_map_iff. split.
  - intros ([k message] & <- & Hin). apply list_elem_of_In in Hin.
    apply (same_entries_elem _ _ _ _ Hf) in Hin as (name & -> & Hm).
    rewrite Hfc in Hm. destruct (devices !! name) as [info |] eqn:Hdev; [| discriminate].
    simpl in Hm. by exists name, info, message.
  - intros (name & info & message & Hdev & Hs & ->).
    exists (KStr name, message). split; [reflexivity |].
    apply list_elem_of_In. apply (same_entries_elem _ _ _ _ Hf).
    exists name. split; [reflexivity |]. by rewrite Hfc, Hdev.
Qed.

(** X2. The optics file starts with the seven-column header. Its other
    rows are, up to the order of the devices, the rows of the devices of
    the roster taken one after the other: a device that ended in the
    success mapping gives one row for each of its port records, in their
    order, and any other device gives none, so a port record is written
    exactly once. A row carries the device name, the port, the four
    inventory fields and the state. *)
Theorem optics_file_lists_every_port
    (devices : gmap string device) (completed : list (string * device)) :
  completion_of devices completed ->
  let rows := save_to_csv_rows (optics_items (main_loop_ordered completed)) in
  head rows = Some optics_header
  /\ drop 1 rows = completed ≫= device_rows
  /\ drop 1 rows ≡ₚ map_to_list devices ≫= device_rows
  /\ forall row,
       row ∈ drop 1 rows
       <-> exists name info records port details,
             devices !! name = Some info
             /\ success_of name info = Some records
             /\ (port, details) ∈ records
             /\ row = [PyStr name; key_val port; Description details; PID details;
                       VID details; SN details; PyStr (Operational_State details)].
Proof.
  intros Hc rows. destruct (completion_names _ _ Hc) as [Hnd _].
  assert (Hrows : drop 1 rows = completed ≫= device_rows).
  { unfold rows, save_to_csv_rows. simpl drop. rewrite drop_0.
    by apply optics_rows_by_device. }
  split; [reflexivity |]. split; [exact Hrows |]. split.
  - rewrite Hrows. unfold completion_of in Hc. by rewrite Hc.
  - intros row. unfold rows, save_to_csv_rows. simpl drop. rewrite drop_0.
    apply (optics_rows_elem devices completed row Hc).
Qed.

(** X3. A device whose run succeeds with no port record is named in no
    data row of either file: it is in the success mapping, which gives the
    optics file one row per port, and not in the failure mapping. *)
Theorem device_without_records_leaves_no_row
    (devices : gmap string device) (completed : list (string * device))
    (name : string) (info : device) :
  completion_of devices completed ->
  devices !! name = Some info ->
  success_of name info = Some [] ->
  optics_data (main_loop completed) !! name = Some []
  /\ (forall row,
        row ∈ drop 1 (save_to_csv_rows (optics_items (main_loop_ordered completed))) ->
        head row <> Some (PyStr name))
  /\ (forall row,
        row ∈ drop 1 (save_failed_connections_to_csv_rows
                        (failed_items (main_loop_ordered completed))) ->
        head row <> Some (PyStr name)).
Proof.
  intros Hc Hdev Hs. split; [| split].
  - destruct (main_loop_entries devices completed Hc) as [Ho _].
    by rewrite Ho, Hdev.
  - intros row Hin. unfold save_to_csv_rows in Hin. simpl drop in Hin.
    rewrite drop_0 in Hin.
    apply (optics_rows_elem devices completed row Hc) in Hin
      as (n & i & records & port & details & Hd & Hsn & Hp & ->).
    simpl. intros [= ->]. rewrite Hdev in Hd. injection Hd as <-.
    rewrite Hs in Hsn. injection Hsn as <-. by apply elem_of_nil in Hp.
  - intros row Hin. unfold save_failed_connections_to_csv_rows in Hin. simpl drop in Hin.
    rewrite drop_0 in Hin.
    apply (failed_rows_elem devices completed row Hc) in Hin
      as (n & i & message & Hd & Hf & ->).
    simpl. intros [= ->]. rewrite Hdev in Hd. injection Hd as <-.
    unfold success_of in Hs. unfold failure_of in Hf.
    destruct (future_result name info) as [e | [[? d] m]]; [discriminate |].
    destruct (message_truthy m); [discriminate |]. by injection Hs as ->.
Qed.

(** X4. When some device failed and every file can be written, [main]
    writes the optics table to the output path and the failure table to
    the path with [.csv] replaced. If the output path contains [.csv] the
    two paths differ and both tables are kept; if it does not, the two
    paths are the same and the failure table replaces the optics table. *)
Theorem failure_table_path
    (devices : gmap string device) (completed : list (string * device))
    (name : string) (info : device) (message : string)
    (output_csv : string) (fs : gmap string (list (list pyval))) :
  completion_of devices completed ->
  devices !! name = Some info ->
  failure_of name info = Some message ->
  let ro := main_loop_ordered completed in
  let fs' := snd (main_from_roster (fun _ => None) completed output_csv fs) in
  [PyStr name; PyStr message] ∈ save_failed_connections_to_csv_rows (failed_items ro)
  /\ fs' !! failed_csv_path output_csv
     = Some (save_failed_connections_to_csv_rows (failed_items ro))
  /\ ((".csv" in_str output_csv) = true ->
      failed_csv_path output_csv <> output_csv
      /\ fs' !! output_csv = Some (save_to_csv_rows (optics_items ro)))
  /\ ((".csv" in_str output_csv) = false ->
      failed_csv_path output_csv = output_csv
      /\ fs' = <[output_csv := save_failed_connections_to_csv_rows (failed_items ro)]> fs).
Proof.
  intros Hc Hdev Hfail ro fs'.
  assert (Hrow : [PyStr name; PyStr message]
                 ∈ map (fun item => [key_val (fst item); PyStr (snd item)])
                     (failed_items ro)).
  { apply (failed_rows_elem devices completed _ Hc). by exists name, info, message. }
  assert (Hne : Dict.nonempty (failed_items ro) = true).
  { destruct (failed_items ro); [by apply elem_of_nil in Hrow | reflexivity]. }
  assert (Hfs : fs' = <[failed_csv_path output_csv :=
                          save_failed_connections_to_csv_rows (failed_items ro)]>
                        (<[output_csv := save_to_csv_rows (optics_items ro)]> fs)).
  { unfold fs', main_from_roster, try_except, main_save, bind, save_to_csv,
      save_failed_connections_to_csv, write_rows. simpl. fold ro. by rewrite Hne. }
  split; [by right |]. split; [by rewrite Hfs, lookup_insert_eq |]. split.
  - intros Hcsv. assert (Hp : failed_csv_path output_csv <> output_csv).
    { intros Heq. apply failed_csv_path_same in Heq. congruence. }
    split; [exact Hp |]. rewrite Hfs, lookup_insert_ne by exact Hp.
    by rewrite lookup_insert_eq.
  - intros Hcsv. apply failed_csv_path_same in Hcsv. split; [exact Hcsv |].
    rewrite Hfs, Hcsv. apply insert_insert_eq.
Qed.

End report_files.

Lemma optics_file_lists_every_port_witness :
  drop 1 (save_to_csv_rows
            (optics_items
               (@main_loop_ordered json_ref utf8_console
                  [("lab1", unreachable "cisco_xr" "");
                   ("core1", xr_router);
                   ("edge1", unreachable "cisco_xe" "TCP connection to device failed")])))
  = [[PyStr "core1"; PyStr "TenGigE0/0/0/1"; PyStr "10GBASE-LR SFP+"; PyStr "SFP-10G-LR";
      PyStr "V02"; PyStr "ABC12345678"; PyStr "UP/UP"]].
Proof.
  rewrite (proj1 (proj2 (@optics_file_lists_every_port json_ref utf8_console roster3 _
                           roster3_completion))).
  vm_compute. reflexivity.
Defined.

Lemma device_without_records_leaves_no_row_witness :
  optics_data (@main_loop json_ref utf8_console
                 [("lab1", unreachable "cisco_xr" "");
                  ("core1", xr_router);
                  ("edge1", unreachable "cisco_xe" "TCP connection to device failed")])
  !! "lab1" = Some [].
Proof.
  refine (proj1 (@device_without_records_leaves_no_row json_ref utf8_console roster3 _ "lab1"
                   (unreachable "cisco_xr" "") roster3_completion _ _)).
  - vm_compute. reflexivity.
  - vm_compute. reflexivity.
Defined.

Lemma failure_table_path_witness :
  failed_csv_path "optics" = "optics"
  /\ snd (@main_from_roster json_ref utf8_console (fun _ => None)
            [("lab1", unreachable "cisco_xr" "");
             ("core1", xr_router);
             ("edge1", unreachable "cisco_xe" "TCP connection to device failed")]
            "optics" ∅)
     = <["optics" := [failed_header;
                      [PyStr "edge1"; PyStr "TCP connection to device failed"]]]> ∅.
Proof.
  refine (proj2 (proj2 (proj2
            (@failure_table_path json_ref utf8_console roster3 _ "edge1"
               (unreachable "cisco_xe" "TCP connection to device failed")
               "TCP connection to device failed" "optics" ∅ roster3_completion _ _))) _).
  - vm_compute. reflexivity.
  - vm_compute. reflexivity.
  - reflexivity.
Defined.


(** ** The calls of a device run *)

Lemma merged_records_keys platform connection command (optics_info : optics) :
  Dict.keys (merged_records platform connection command optics_info)
  = Dict.keys optics_info.
Proof.
  unfold merged_records.
  pose proof (status_replies_length connection [SendCommand command]
                (Dict.keys optics_info)) as Hlen.
  unfold Dict.keys in *. rewrite length_map in Hlen.
  revert Hlen. generalize (status_replies connection [SendCommand command]
                             (map fst optics_info)).
  induction optics_info as [| [k r] d IH]; intros replies Hlen; [reflexivity |].
  destruct replies as [| reply replies]; [discriminate |].
  simpl. f_equal. apply IH. by injection Hlen.
Qed.

(** Every way a device run can go. *)
Lemma process_device_cases `{J : JSON} device_name device_info :
  process_device device_name device_info []
  = match connect_raises (remote device_info) with
    | Some e => (inr (device_name, [], Some (exn_str e)), [])
    | None =>
        match inventory_command (device_type device_info) with
        | None =>
            (inr (device_name, [],
                  Some ("Unsupported platform: " ++ tag_format (device_type device_info))),
             [])
        | Some command =>
            match send_command_reply (remote device_info) [] command with
            | inl e => (inr (device_name, [], Some (exn_str e)), [SendCommand command])
            | inr output =>
                match parse_inventory_output output (device_type device_info) with
                | inl e => (inr (device_name, [], Some (exn_str e)), [SendCommand command])
                | inr optics_info =>
                    (match disconnect_raises (remote device_info)
                             (calls_before_disconnect command optics_info) with
                     | Some e => inr (device_name, [], Some (exn_str e))
                     | None =>
                         inr (device_name,
                              merged_records (device_type device_info)
                                (remote device_info) command optics_info,
                              None)
                     end,
                     (calls_before_disconnect command optics_info ++ [Disconnect])%list)
                end
            end
        end
    end.
Proof.
  destruct (connect_raises (remote device_info)) as [e |] eqn:Hconn.
  { unfold process_device, try_except, process_device_try, get_device_connection,
      bind, raise. by rewrite Hconn. }
  destruct (inventory_command (device_type device_info)) as [command |] eqn:Hcmd.
  2: { unfold process_device, try_except, process_device_try, get_device_connection,
         bind, ret. by rewrite Hconn, Hcmd. }
  destruct (send_command_reply (remote device_info) [] command) as [e | output] eqn:Hsend.
  { unfold process_device, try_except, process_device_try, get_device_connection,
      bind, ret, send_command. rewrite Hconn, Hcmd. simpl. by rewrite Hsend. }
  destruct (parse_inventory_output output (device_type device_info))
    as [e | optics_info] eqn:Hparse.
  { unfold process_device, try_except, process_device_try, get_device_connection,
      bind, ret, send_command, lift. rewrite Hconn, Hcmd. simpl.
    by rewrite Hsend, Hparse. }
  unfold process_device, try_except.
  rewrite (process_device_try_run _ _ _ _ _ Hconn Hcmd Hsend Hparse).
  by destruct (disconnect_raises (remote device_info)
                 (calls_before_disconnect command optics_info)).
Qed.

(** X6. A device run that ends without error message went through the
    whole sequence: the session opened, the platform has an inventory
    command, that command was answered, the answer parsed to records with
    the keys of the records returned, the session closed, and the calls
    made are that command, then one status query for each record
    returned, in their order, then the disconnect. *)
Theorem clean_outcome_means_full_sequence `{J : JSON}
    (device_name : string) (device_info : device)
    (name : string) (optics_info : list (pykey * port_record)) (log : list call) :
  process_device device_name device_info [] = (inr (name, optics_info, None), log) ->
  name = device_name
  /\ connect_raises (remote device_info) = None
  /\ exists command output parsed,
       inventory_command (device_type device_info) = Some command
       /\ send_command_reply (remote device_info) [] command = inr output
       /\ parse_inventory_output output (device_type device_info) = inr parsed
       /\ Dict.keys optics_info = Dict.keys parsed
       /\ optics_info
          = merged_records (device_type device_info) (remote device_info) command parsed
       /\ disconnect_raises (remote device_info) (calls_before_disconnect command parsed)
          = None
       /\ log = (SendCommand command :: status_queries (Dict.keys optics_info)
                 ++ [Disconnect])%list.
Proof.
  rewrite process_device_cases.
  destruct (connect_raises (remote device_info)); [discriminate |].
  destruct (inventory_command (device_type device_info)) as [command |]; [| discriminate].
  destruct (send_command_reply (remote device_info) [] command) as [| output] eqn:Hsend;
    [discriminate |].
  destruct (parse_inventory_output output (device_type device_info)) as [| parsed] eqn:Hparse;
    [discriminate |].
  destruct (disconnect_raises (remote device_info)
              (calls_before_disconnect command parsed)) eqn:Hdisc; [discriminate |].
  intros [= <- <- <-]. split; [reflexivity |]. split; [reflexivity |].
  exists command, output, parsed. rewrite merged_records_keys. by repeat split.
Qed.

Lemma clean_outcome_means_full_sequence_witness :
  exists command output parsed,
    inventory_command (device_type xr_router) = Some command
    /\ send_command_reply (remote xr_router) [] command = inr output
    /\ @parse_inventory_output json_ref output (device_type xr_router) = inr parsed
    /\ Dict.keys
         [(KStr "TenGigE0/0/0/1",
           {| Description := PyStr "10GBASE-LR SFP+"; PID := PyStr "SFP-10G-LR";
              VID := PyStr "V02"; SN := PyStr "ABC12345678";
              Operational_State := "UP/UP" |})]
       = Dict.keys parsed
    /\ [SendCommand "show inventory"; SendCommand "show interface TenGigE0/0/0/1";
        Disconnect]
       = (SendCommand command
          :: status_queries
               (Dict.keys
                  [(KStr "TenGigE0/0/0/1",
                    {| Description := PyStr "10GBASE-LR SFP+";
                       PID := PyStr "SFP-10G-LR"; VID := PyStr "V02";
                       SN := PyStr "ABC12345678"; Operational_State := "UP/UP" |})])
          ++ [Disconnect])%list.
Proof.
  destruct (@clean_outcome_means_full_sequence json_ref "core1" xr_router "core1"
              [(KStr "TenGigE0/0/0/1",
                {| Description := PyStr "10GBASE-LR SFP+"; PID := PyStr "SFP-10G-LR";
                   VID := PyStr "V02"; SN := PyStr "ABC12345678";
                   Operational_State := "UP/UP" |})]
              [SendCommand "show inventory"; SendCommand "show interface TenGigE0/0/0/1";
               Disconnect])
    as (_ & _ & command & output & parsed & Hc & Hs & Hp & Hk & _ & _ & Hl).
  - vm_compute. reflexivity.
  - by exists command, output, parsed.
Defined.


(** ** [get_interface_status] on its own *)





(** ** The IOS-XR / IOS-XE status lines *)

Lemma xr_lines_first lines :
  (let '(status, protocol_status) := xr_lines lines "DOWN" "DOWN" in
   status ++ "/" ++ protocol_status)
  = match find xr_stops_at (PyStr.lower <$> lines) with
    | Some line_lower => xr_state_of line_lower
    | None => "DOWN/DOWN"
    end.
Proof.
  induction lines as [| line lines IH]; simpl; [reflexivity |].
  unfold xr_stops_at at 1.
  destruct ("line protocol is" in_str PyStr.lower line); [| exact IH].
  unfold xr_state_of.
  destruct ("up" in_str PyStr.lower line); [| reflexivity].
  destruct ("administratively down" in_str PyStr.lower line); [reflexivity |].
  by destruct ("line protocol is up" in_str PyStr.lower line).
Qed.

Lemma startswith_app_contains a b s :
  PyStr.startswith (a ++ b) s = true -> (b in_str s) = true.
Proof.
  revert s. induction a as [| c a IH]; intros s.
  - change ("" ++ b) with b. intros H. destruct s; cbn [PyStr.contains]; by rewrite H.
  - change (String c a ++ b) with (String c (a ++ b)).
    destruct s as [| c' s]; [discriminate |]. cbn [PyStr.startswith]. intros H.
    apply andb_true_iff in H as [_ H]. cbn [PyStr.contains].
    rewrite (IH s H). apply orb_true_r.
Qed.

(** A text that contains [a ++ b] contains [b]. *)
Lemma contains_app_r a b s : (a ++ b in_str s) = true -> (b in_str s) = true.
Proof.
  induction s as [| c s IH]; cbn [PyStr.contains].
  - rewrite orb_false_r. apply startswith_app_contains.
  - intros H. apply orb_true_iff in H as [H | H].
    + by apply startswith_app_contains in H.
    + rewrite (IH H). cbn [PyStr.contains]. apply orb_true_r.
Qed.

(** X9. On IOS-XR and IOS-XE the state of an interface is read from the
    first line of the reply whose lowercase text contains
    [line protocol is]; later lines are not read, and with no such line
    the state is [DOWN/DOWN]. On that line the state is [UP/UP] exactly
    when it contains [line protocol is up] and not
    [administratively down]; it is [DOWN/DOWN] whenever the line does not
    contain [up]; and [ADMIN_DOWN/DOWN] needs both [up] and
    [administratively down] on the line. *)
Theorem xr_state_from_first_line_protocol_line
    (connection : netmiko) (platform : tag)
    (interface_status : list (pykey * string))
    (intf_name : pykey) (log : list call) (output : string) :
  tag_is platform "cisco_xr" || tag_is platform "cisco_xe" = true ->
  send_command_reply connection log (show_interface intf_name) = inr output ->
  interface_query connection platform interface_status intf_name log
  = (inr (Dict.set intf_name
            (match find xr_stops_at (PyStr.lower <$> PyStr.split_lf output) with
             | Some line_lower => xr_state_of line_lower
             | None => "DOWN/DOWN"
             end) interface_status),
     (log ++ [SendCommand (show_interface intf_name)])%list)
  /\ (forall line_lower,
        xr_state_of line_lower = "UP/UP"
        <-> ("line protocol is up" in_str line_lower) = true
            /\ ("administratively down" in_str line_lower) = false)
  /\ (forall line_lower,
        ("up" in_str line_lower) = false -> xr_state_of line_lower = "DOWN/DOWN")
  /\ (forall line_lower,
        xr_state_of line_lower = "ADMIN_DOWN/DOWN"
        <-> ("up" in_str line_lower) = true
            /\ ("administratively down" in_str line_lower) = true).
Proof.
  intros Hplat Hreply. split; [| split; [| split]].
  - assert (Hnx : tag_is platform "cisco_nxos" = false).
    { destruct platform as [p |]; [| reflexivity]. simpl in *.
      destruct (String.eqb_spec p "cisco_nxos") as [-> |]; [discriminate | reflexivity]. }
    unfold interface_query, bind, send_command, ret.
    rewrite Hnx, Hplat, Hreply.
    pose proof (xr_lines_first (PyStr.split_lf output)) as Hx.
    destruct (xr_lines (PyStr.split_lf output) "DOWN" "DOWN") as [st ps].
    by rewrite Hx.
  - intros l. unfold xr_state_of. split.
    + destruct ("up" in_str l); [| discriminate].
      destruct ("administratively down" in_str l); [discriminate |].
      destruct ("line protocol is up" in_str l); [done | discriminate].
    + intros [Hup Hadm].
      rewrite (contains_app_r "line protocol is " "up" l Hup), Hadm, Hup. reflexivity.
  - intros l Hup. unfold xr_state_of. by rewrite Hup.
  - intros l. unfold xr_state_of. split.
    + destruct ("up" in_str l); [| discriminate].
      destruct ("administratively down" in_str l); [done |].
      destruct ("line protocol is up" in_str l); discriminate.
    + intros [-> ->]. reflexivity.
Qed.

Lemma xr_state_from_first_line_protocol_line_witness :
  interface_query (remote xr_router) (Some "cisco_xr") [] (KStr "TenGigE0/0/0/1")
    [SendCommand "show inventory"]
  = (inr [(KStr "TenGigE0/0/0/1", "UP/UP")],
     [SendCommand "show inventory"; SendCommand "show interface TenGigE0/0/0/1"]).
Proof.
  apply (proj1 (xr_state_from_first_line_protocol_line (remote xr_router)
                  (Some "cisco_xr") [] (KStr "TenGigE0/0/0/1")
                  [SendCommand "show inventory"]
                  "TenGigE0/0/0/1 is up, line protocol is up" eq_refl eq_refl)).
Defined.

(** ** What the pattern captures *)

Lemma all_chars_rev_append P s acc :
  all_chars P (PyStr.rev_append s acc) = all_chars P s && all_chars P acc.
Proof.
  revert acc. induction s as [| c s IH]; intros acc; simpl; [reflexivity |].
  rewrite IH. simpl. destruct (P c), (all_chars P s); reflexivity.
Qed.

Lemma length_rev_append s acc :
  String.length (PyStr.rev_append s acc) = String.length s + String.length acc.
Proof.
  revert acc. induction s as [| c s IH]; intros acc; simpl; [reflexivity |].
  rewrite IH. simpl. lia.
Qed.

(** What a greedy repetition hands to the rest of the pattern is a run of
    characters of its class, long enough. *)
Lemma greedy_shape {R : Type} k (cont : string -> string -> option R) lo taken s r :
  all_chars (Re.cls_ok k) taken = true ->
  Re.greedy k cont lo taken s = Some r ->
  exists txt rest,
    cont txt rest = Some r
    /\ all_chars (Re.cls_ok k) txt = true
    /\ String.length taken + lo <= String.length txt.
Proof.
  revert lo taken. induction s as [| c s IH]; intros lo taken Htaken; simpl.
  - destruct lo; [| discriminate]. intros Hc. eexists _, _. split; [exact Hc |].
    rewrite all_chars_rev_append, length_rev_append, Htaken. simpl. split; [done | lia].
  - assert (Hstop : match lo with
                    | 0 => cont (PyStr.rev_append taken "") (String c s)
                    | S _ => None
                    end = Some r ->
                    exists txt rest,
                      cont txt rest = Some r /\ all_chars (Re.cls_ok k) txt = true
                      /\ String.length taken + lo <= String.length txt).
    { destruct lo; [| discriminate]. intros Hc. eexists _, _. split; [exact Hc |].
      rewrite all_chars_rev_append, length_rev_append, Htaken. simpl. split; [done | lia]. }
    destruct (Re.cls_ok k c) eqn:Hok; [| exact Hstop].
    destruct (Re.greedy k cont (Init.Nat.pred lo) (String c taken) s) eqn:Hg;
      [| exact Hstop].
    intros [= <-]. apply IH in Hg as (txt & rest & Hc & Hall & Hlen).
    + exists txt, rest. split; [exact Hc |]. split; [exact Hall |]. simpl in Hlen. lia.
    + simpl. by rewrite Hok, Htaken.
Qed.

Lemma match_here_shape p s gs rest :
  Re.match_here p s = Some (gs, rest) -> Forall2 group_fits gs (group_classes p).
Proof.
  revert s gs rest. induction p as [| [l | k lo | k lo] p IH]; intros s gs rest; simpl.
  - intros [= <- <-]. constructor.
  - destruct (PyStr.strip_prefix l s); [apply IH | discriminate].
  - intros Hg. apply greedy_continues in Hg as (txt & rest' & Hm). eauto.
  - intros Hg. apply greedy_shape in Hg as (txt & rest' & Hm & Hall & Hlen);
      [| reflexivity].
    destruct (Re.match_here p rest') as [[gs' rest''] |] eqn:Hp; [| discriminate].
    injection Hm as <- <-. constructor; [| eauto].
    split; [exact Hall | simpl in *; lia].
Qed.

Lemma finditer_shape p s :
  Forall (fun gs => Forall2 group_fits gs (group_classes p)) (Re.finditer p s).
Proof.
  unfold Re.finditer. generalize 0 as skip.
  induction s as [| c s IH]; intros skip; simpl.
  - destruct skip; [| constructor].
    destruct (Re.match_here p "") as [[gs rest] |] eqn:Hm; constructor;
      [by eapply match_here_shape | constructor].
  - destruct skip; [| apply IH].
    destruct (Re.match_here p (String c s)) as [[gs rest] |] eqn:Hm; [| apply IH].
    constructor; [by eapply match_here_shape | apply IH].
Qed.

(** X10. Every record of the free-text parser has a string key and string
    fields taken from one match; the name and the description hold no
    line feed, and PID, VID and SN are non-empty and hold no white
    space. *)
Theorem free_text_fields_are_well_formed `{J : JSON}
    (output : string) (platform : tag) (d : list (pykey * port_record))
    (k : pykey) (r : port_record) :
  tag_is platform "cisco_nxos" = false ->
  parse_inventory_output output platform = inr d ->
  Dict.get d k = Some r ->
  exists name descr pid vid sn,
    k = KStr name
    /\ r = text_record descr pid vid sn
    /\ all_chars (Re.cls_ok Re.Dot) name = true
    /\ all_chars (Re.cls_ok Re.Dot) descr = true
    /\ (all_chars (Re.cls_ok Re.NonSpace) pid = true /\ 1 <= String.length pid)
    /\ (all_chars (Re.cls_ok Re.NonSpace) vid = true /\ 1 <= String.length vid)
    /\ (all_chars (Re.cls_ok Re.NonSpace) sn = true /\ 1 <= String.length sn).
Proof.
  intros Hplat Hparse Hget. unfold parse_inventory_output in Hparse. rewrite Hplat in Hparse.
  destruct (text_loop (Re.finditer pattern output) [])
    as (d' & Hrun & _ & Hrec & _); [apply (finditer_groups pattern output) |].
  rewrite Hrun in Hparse. injection Hparse as <-.
  apply Hrec in Hget as [[=] | (name & descr & pid & vid & sn & -> & _ & Hin & ->)].
  pose proof (finditer_shape pattern output) as Hshape.
  rewrite Forall_forall in Hshape. specialize (Hshape _ Hin).
  change (group_classes pattern)
    with [(Re.Dot, 0); (Re.Dot, 0); (Re.NonSpace, 1); (Re.NonSpace, 1); (Re.NonSpace, 1)]
    in Hshape.
  apply Forall2_cons in Hshape as [[Hn _] Hshape].
  apply Forall2_cons in Hshape as [[Hd _] Hshape].
  apply Forall2_cons in Hshape as [Hp Hshape].
  apply Forall2_cons in Hshape as [Hv Hshape].
  apply Forall2_cons in Hshape as [Hs _].
  unfold group_fits in *. simpl in *.
  exists name, descr, pid, vid, sn. tauto.
Qed.

Lemma free_text_fields_are_well_formed_witness :
  exists name descr pid vid sn,
    KStr "TenGigE0/0/0/1" = KStr name
    /\ text_record "10GBASE-LR SFP+" "SFP-10G-LR" "V02" "ABC12345678"
       = text_record descr pid vid sn
    /\ all_chars (Re.cls_ok Re.Dot) name = true
    /\ all_chars (Re.cls_ok Re.Dot) descr = true
    /\ (all_chars (Re.cls_ok Re.NonSpace) pid = true /\ 1 <= String.length pid)
    /\ (all_chars (Re.cls_ok Re.NonSpace) vid = true /\ 1 <= String.length vid)
    /\ (all_chars (Re.cls_ok Re.NonSpace) sn = true /\ 1 <= String.length sn).
Proof.
  apply (@free_text_fields_are_well_formed json_ref xr_inventory (Some "cisco_xr")
           [(KStr "TenGigE0/0/0/1",
             text_record "10GBASE-LR SFP+" "SFP-10G-LR" "V02" "ABC12345678")]).
  - reflexivity.
  - vm_compute. reflexivity.
  - reflexivity.
Defined.

(** ** Repeated names *)

(** The loop over the matches, looked up at one port name: the last match
    of that name decides, and without one the entry is as before. *)
Lemma text_loop_last (ms : list (list string)) (d0 d : optics) (name : string) :
  Forall (fun gs => length gs = 5) ms ->
  is_port_name name = true ->
  for_each ms text_match d0 = (inr tt, d) ->
  Dict.get d (KStr name)
  = match last_match name ms with
    | Some gs => record_of_groups gs
    | None => Dict.get d0 (KStr name)
    end.
Proof.
  unfold last_match. revert d0. induction ms as [| gs ms IH]; intros d0 Hlen Hport.
  - simpl. by intros [= <-].
  - apply Forall_cons in Hlen as [Hgs Hlen].
    destruct gs as [| name0 [| descr0 [| pid0 [| vid0 [| sn0 [| ? ?]]]]]];
      try discriminate Hgs.
    cbn [for_each]. unfold bind. cbn [text_match List.filter is_named].
    destruct (String.eqb_spec name0 name) as [-> | Hne].
    + rewrite Hport. simpl. intros Hrun. rewrite (IH _ Hlen Hport Hrun).
      rewrite last_cons.
      destruct (last (List.filter (is_named name) ms)); [reflexivity |].
      rewrite get_set. by rewrite key_eqb_refl.
    + destruct (is_port_name name0); simpl; intros Hrun;
        rewrite (IH _ Hlen Hport Hrun);
        destruct (last (List.filter (is_named name) ms)); try reflexivity.
      rewrite get_set. simpl. by apply String.eqb_neq in Hne as ->.
Qed.

(** X11. When the free-text inventory repeats a port name, the last block
    of that name wins: the record kept under a port name carries the
    description, PID, VID and SN of the last pattern match with that
    name. *)
Theorem last_block_of_a_name_wins `{J : JSON}
    (output : string) (platform : tag) (d : list (pykey * port_record)) (name : string) :
  tag_is platform "cisco_nxos" = false ->
  parse_inventory_output output platform = inr d ->
  is_port_name name = true ->
  Dict.get d (KStr name)
  = last_match name (Re.finditer pattern output) ≫= record_of_groups.
Proof.
  intros Hplat Hparse Hport. unfold parse_inventory_output in Hparse.
  rewrite Hplat in Hparse.
  destruct (for_each (Re.finditer pattern output) text_match []) as [[e | []] d'] eqn:Hrun;
    [discriminate |].
  injection Hparse as <-.
  rewrite (text_loop_last _ _ _ name (finditer_groups pattern output) Hport Hrun).
  by destruct (last_match name (Re.finditer pattern output)).
Qed.

Lemma last_block_of_a_name_wins_witness :
  Re.finditer pattern xr_inventory_repeat
  = [["TenGigE0/0/0/1"; "10GBASE-SR SFP+"; "SFP-10G-SR"; "V03"; "XYZ00000001"];
     ["TenGigE0/0/0/1"; "10GBASE-LR SFP+"; "SFP-10G-LR"; "V02"; "ABC12345678"]]
  /\ Dict.get [(KStr "TenGigE0/0/0/1",
                text_record "10GBASE-LR SFP+" "SFP-10G-LR" "V02" "ABC12345678")]
       (KStr "TenGigE0/0/0/1")
     = last_match "TenGigE0/0/0/1" (Re.finditer pattern xr_inventory_repeat)
       ≫= record_of_groups.
Proof.
  split; [vm_compute; reflexivity |].
  apply (@last_block_of_a_name_wins json_ref xr_inventory_repeat (Some "cisco_xr")).
  - reflexivity.
  - vm_compute. reflexivity.
  - reflexivity.
Defined.

(** ** Rows that are not objects *)

Lemma for_each_app {S A : Type} (xs ys : list A) (body : A -> SE S unit) (s : S) :
  for_each (xs ++ ys) body s
  = match for_each xs body s with
    | (inr _, s') => for_each ys body s'
    | (inl e, s') => (inl e, s')
    end.
Proof.
  revert s. induction xs as [| x xs IH]; intros s; simpl; [reflexivity |].
  unfold bind. destruct (body x s) as [[e | []] s']; [reflexivity | apply IH].
Qed.

(** X12. The NX-OS parser has no partial result: when the decoded
    [ROW_inv] yields, after any number of rows that are objects and whose
    names, where the row is kept, can be dictionary keys, an element that
    is not an object, the parser raises [AttributeError] for that element
    and the rows read before it are lost. This is the case when [ROW_inv]
    holds a single object instead of a list of objects: the loop then
    visits the object's keys, which are strings. *)
Theorem row_that_is_no_object_raises `{J : JSON}
    (output : string) (data table rows item : pyval)
    (before : list (list (string * pyval))) (after : list pyval) :
  json_loads output = inr data ->
  py_get data "TABLE_inv" (PyDict []) = inr table ->
  py_get table "ROW_inv" (PyList []) = inr rows ->
  py_iter rows = inr ((PyDict <$> before) ++ item :: after)%list ->
  (forall row, row ∈ before -> row_kept row = true ->
               exists key, as_key (row_name row) = inr key) ->
  (forall row, item <> PyDict row) ->
  parse_inventory_output output (Some "cisco_nxos") = inl (no_attribute_get item)
  /\ (forall key value row,
        rows = PyDict ((key, value) :: row) -> before = [] /\ item = PyStr key).
Proof.
  intros Hloads Htable Hrows Hiter Hkeys Hitem. split.
  - destruct (nxos_loop before [] Hkeys) as (d & Hrun & _).
    assert (Hrow : nxos_row item d = (inl (no_attribute_get item), d)).
    { unfold nxos_row, bind, lift. destruct item; try reflexivity.
      by destruct (Hitem d0). }
    unfold parse_inventory_output, bind, lift. simpl.
    rewrite Hloads, Htable, Hrows, Hiter. simpl.
    rewrite for_each_app, Hrun. simpl. unfold bind. rewrite Hrow.
    by destruct item.
  - intros key value row ->. simpl in Hiter. injection Hiter as Hiter.
    destruct before as [| b before]; simpl in Hiter.
    + by injection Hiter as <- _.
    + discriminate.
Qed.

Lemma row_that_is_no_object_raises_witness :
  @parse_inventory_output json_ref nxos_inventory_number (Some "cisco_nxos")
  = inl (Raise AttributeError "'int' object has no attribute 'get'").
Proof.
  refine (proj1 (@row_that_is_no_object_raises json_ref nxos_inventory_number
                   (PyDict [("TABLE_inv",
                             PyDict [("ROW_inv",
                                      PyList [PyDict [("name", PyStr "Ethernet1/1");
                                                      ("desc", PyStr "1000base-SX")];
                                              PyInt 5])])])
                   (PyDict [("ROW_inv",
                             PyList [PyDict [("name", PyStr "Ethernet1/1");
                                             ("desc", PyStr "1000base-SX")];
                                     PyInt 5])])
                   (PyList [PyDict [("name", PyStr "Ethernet1/1");
                                    ("desc", PyStr "1000base-SX")];
                            PyInt 5])
                   (PyInt 5)
                   [[("name", PyStr "Ethernet1/1"); ("desc", PyStr "1000base-SX")]] []
                   _ _ _ _ _ _)).
  - vm_compute. reflexivity.
  - reflexivity.
  - reflexivity.
  - reflexivity.
  - intros row Hin _. apply list_elem_of_singleton in Hin as ->. by eexists.
  - discriminate.
Defined.

(** ** [read_config_file] *)

Lemma file_lines_shape text : Forall file_line (PyStrOps.file_lines text).
Proof.
  induction text as [| c text IH]; [constructor |].
  cbn [PyStrOps.file_lines]. destruct (Ascii.eqb c "010") eqn:Hc.
  - apply Ascii.eqb_eq in Hc as ->. constructor; [| exact IH].
    exists "". split; [reflexivity | by right].
  - destruct text as [| c' text'].
    + constructor; [| constructor]. exists (String c ""). split; [| by left].
      simpl. unfold not_lf. by rewrite Hc.
    + destruct (PyStrOps.file_lines (String c' text')) as [| l ls]; [| ].
      * constructor; [| constructor]. exists (String c ""). split; [| by left].
        simpl. unfold not_lf. by rewrite Hc.
      * apply Forall_cons in IH as [(body & Hb & Hl) Hls]. constructor; [| exact Hls].
        exists (String c body). split.
        -- simpl. unfold not_lf at 1. by rewrite Hc, Hb.
        -- destruct Hl as [-> | ->]; [by left | by right].
Qed.

Lemma rstrip_lf_clean body :
  all_chars not_lf body = true -> PyStrOps.rstrip_lf body = body.
Proof.
  induction body as [| c body IH]; [reflexivity |]. simpl.
  intros H. apply andb_true_iff in H as [Hc Hb]. rewrite (IH Hb).
  unfold not_lf in Hc. apply negb_true_iff in Hc. rewrite Hc. by destruct body.
Qed.

Lemma rstrip_lf_line body :
  all_chars not_lf body = true -> PyStrOps.rstrip_lf (body ++ LF) = body.
Proof.
  induction body as [| c body IH]; [reflexivity |].
  change (String c body ++ LF) with (String c (body ++ LF)). cbn [PyStrOps.rstrip_lf].
  cbn [all_chars]. intros H. apply andb_true_iff in H as [Hc Hb]. rewrite (IH Hb).
  unfold not_lf in Hc. apply negb_true_iff in Hc. rewrite Hc. by destruct body.
Qed.

Lemma all_chars_app P a b : all_chars P (a ++ b) = all_chars P a && all_chars P b.
Proof.
  induction a as [| c a IH]; [reflexivity |].
  change (String c a ++ b) with (String c (a ++ b)). cbn [all_chars].
  rewrite IH. by rewrite andb_assoc.
Qed.

Lemma lstrip_blank s : PyStrOps.lstrip s = "" <-> all_chars Re.isspace s = true.
Proof.
  induction s as [| c s IH]; simpl; [done |].
  destruct (Re.isspace c); simpl; [exact IH |]. split; discriminate.
Qed.

Lemma rstrip_blank s : PyStrOps.rstrip s = "" <-> all_chars Re.isspace s = true.
Proof.
  induction s as [| c s IH]; simpl; [done |].
  destruct (PyStrOps.rstrip s) eqn:Hr.
  - destruct IH as [IH _]. rewrite (IH eq_refl), andb_true_r.
    destruct (Re.isspace c); split; done.
  - split; [discriminate |]. intros H. apply andb_true_iff in H as [_ H].
    apply IH in H. discriminate.
Qed.

Lemma lstrip_all_chars s :
  all_chars Re.isspace (PyStrOps.lstrip s) = all_chars Re.isspace s.
Proof.
  induction s as [| c s IH]; simpl; [reflexivity |].
  destruct (Re.isspace c) eqn:Hc; [exact IH |]. simpl. by rewrite Hc.
Qed.

(** [s.strip()] is empty exactly when [s] is made of white space. *)
Lemma strip_blank s : PyStrOps.strip s = "" <-> all_chars Re.isspace s = true.
Proof. unfold PyStrOps.strip. by rewrite rstrip_blank, lstrip_all_chars. Qed.

(** X13. Without variables, [read_config_file] returns the lines of the
    file that are not blank, in order, without their line feed: a line
    made of white space only is dropped, every line returned holds a
    character that is not white space and holds no line feed; an empty
    dict of variables is treated like no variables. A file that cannot
    be read makes the function raise the exception of the reading,
    whatever the variables. *)
Theorem read_config_file_drops_blank_lines
    (read_text : string -> result string) (path : string) :
  (forall e variables,
      read_text path = inl e -> read_config_file read_text path variables = inl e)
  /\ (forall text,
        read_text path = inr text ->
        exists lines,
          read_config_file read_text path None = inr lines
          /\ read_config_file read_text path (Some []) = inr lines
          /\ lines
             = PyStrOps.rstrip_lf
                 <$> List.filter (fun line => negb (all_chars Re.isspace line))
                       (PyStrOps.file_lines text)
          /\ forall line,
               line ∈ lines ->
               all_chars Re.isspace line = false /\ all_chars not_lf line = true).
Proof.
  split; [intros e variables Hread; unfold read_config_file; by rewrite Hread |].
  intros text Hread. unfold read_config_file. rewrite Hread.
  assert (Hfilter : forall ls : list string,
             filter (fun line => negb (String.eqb (PyStrOps.strip line) "")) ls
             = List.filter (fun line => negb (all_chars Re.isspace line)) ls).
  { induction ls as [| l ls IH]; [reflexivity |].
    cbn [List.filter]. destruct (all_chars Re.isspace l) eqn:Hb.
    - pose proof (proj2 (strip_blank l) Hb) as Hs.
      rewrite filter_cons_False; [exact IH |]. rewrite Hs. simpl. tauto.
    - assert (Hs : String.eqb (PyStrOps.strip l) "" = false).
      { apply String.eqb_neq. intros He. apply strip_blank in He. congruence. }
      rewrite filter_cons_True; [simpl; by rewrite IH |]. rewrite Hs. exact I. }
  eexists. split; [reflexivity |]. split; [reflexivity |]. split.
  - by rewrite Hfilter.
  - intros line Hin. rewrite Hfilter in Hin.
    apply list_elem_of_fmap in Hin as (l & -> & Hin).
    apply list_elem_of_In, filter_In in Hin as [Hin Hnb].
    apply negb_true_iff in Hnb.
    pose proof (file_lines_shape text) as Hshape. rewrite Forall_forall in Hshape.
    destruct (Hshape l) as (body & Hb & [-> | ->]); [by apply list_elem_of_In | |].
    + rewrite (rstrip_lf_clean _ Hb). by split.
    + rewrite (rstrip_lf_line _ Hb). split; [| exact Hb].
      rewrite all_chars_app in Hnb. simpl in Hnb. by rewrite andb_true_r in Hnb.
Qed.

Lemma read_config_file_drops_blank_lines_witness :
  read_config_file (fun _ => inl (Raise OtherException "No such file or directory"))
    "lo0.cfg" None
  = inl (Raise OtherException "No such file or directory")
  /\ exists lines,
      read_config_file (fun _ => inr ("interface Loopback0" ++ LF ++ "  " ++ LF ++ " shutdown"))
        "lo0.cfg" None = inr lines
      /\ read_config_file
           (fun _ => inr ("interface Loopback0" ++ LF ++ "  " ++ LF ++ " shutdown"))
           "lo0.cfg" (Some []) = inr lines
      /\ lines
         = PyStrOps.rstrip_lf
             <$> List.filter (fun line => negb (all_chars Re.isspace line))
                   (PyStrOps.file_lines
                      ("interface Loopback0" ++ LF ++ "  " ++ LF ++ " shutdown"))
      /\ forall line,
           line ∈ lines ->
           all_chars Re.isspace line = false /\ all_chars not_lf line = true.
Proof.
  split.
  - apply (proj1 (read_config_file_drops_blank_lines
                    (fun _ => inl (Raise OtherException "No such file or directory"))
                    "lo0.cfg")).
    reflexivity.
  - apply (proj2 (read_config_file_drops_blank_lines
                    (fun _ => inr ("interface Loopback0" ++ LF ++ "  " ++ LF ++ " shutdown"))
                    "lo0.cfg")).
    reflexivity.
Defined.

(** A line that holds no [{name}] for any variable is left as it is. *)
Lemma substitute_absent (variables : list (pykey * string)) (line : string) :
  (forall item, item ∈ variables ->
                ("{" ++ key_format (fst item) ++ "}" in_str line) = false) ->
  substitute variables line = line.
Proof.
  unfold substitute. induction variables as [| [k v] variables IH]; intros Habs;
    [reflexivity |].
  cbn [fold_left fst snd].
  assert (Hplain : ("{" ++ key_format k ++ "}" in_str line) = false).
  { apply (Habs (k, v)). left. }
  assert (Hdollar : ("${" ++ key_format k ++ "}" in_str line) = false).
  { destruct ("${" ++ key_format k ++ "}" in_str line) eqn:Hd; [| reflexivity].
    rewrite (contains_app_r "$" ("{" ++ key_format k ++ "}") line Hd) in Hplain.
    discriminate. }
  rewrite (replace_absent _ _ _ Hdollar), (replace_absent _ _ _ Hplain).
  apply IH. intros item Hin. apply Habs. by right.
Qed.

(** X14. Substituting variables never adds or removes a line, and leaves
    every line that holds no [{name}] token of any variable exactly as it
    was read (a line holding [${name}] holds [{name}] too). *)
Theorem substitution_keeps_lines_without_token
    (read_text : string -> result string) (path : string)
    (variables : list (pykey * string)) (lines : list string) :
  read_config_file read_text path None = inr lines ->
  exists lines',
    read_config_file read_text path (Some variables) = inr lines'
    /\ length lines' = length lines
    /\ forall i line,
         lines !! i = Some line ->
         (forall item, item ∈ variables ->
                       ("{" ++ key_format (fst item) ++ "}" in_str line) = false) ->
         lines' !! i = Some line.
Proof.
  unfold read_config_file. destruct (read_text path) as [e | text]; [discriminate |].
  intros [= <-].
  set (lines0 := map PyStrOps.rstrip_lf _).
  destruct variables as [| item items].
  - eexists. split; [reflexivity |]. split; [reflexivity |]. auto.
  - eexists. split; [reflexivity |]. split; [by rewrite length_map |].
    intros i line Hi Habs.
    change (map (substitute (item :: items)) lines0)
      with (substitute (item :: items) <$> lines0).
    rewrite list_lookup_fmap, Hi.
    change (Some (substitute (item :: items) line) = Some line).
    f_equal. by apply substitute_absent.
Qed.

Lemma substitution_keeps_lines_without_token_witness :
  exists lines',
    read_config_file (fun _ => inr ("hostname {HOSTNAME}" ++ LF ++ "logging console"))
      "base.cfg" (Some [(KStr "HOSTNAME", "pe1")]) = inr lines'
    /\ length lines' = length ["hostname {HOSTNAME}"; "logging console"]
    /\ forall i line,
         ["hostname {HOSTNAME}"; "logging console"] !! i = Some line ->
         (forall item, item ∈ [(KStr "HOSTNAME", "pe1")] ->
                       ("{" ++ key_format (fst item) ++ "}" in_str line) = false) ->
         lines' !! i = Some line.
Proof.
  apply (substitution_keeps_lines_without_token
           (fun _ => inr ("hostname {HOSTNAME}" ++ LF ++ "logging console")) "base.cfg").
  vm_compute. reflexivity.
Defined.

(** ** [apply_config] *)


(** ** The variables of [iosxr_apply_config.py] *)

Lemma split_once_spec s a b :
  PyStrOps.split_once "061" s = Some (a, b) ->
  s = a ++ "=" ++ b /\ all_chars not_equals a = true.
Proof.
  revert a b. induction s as [| c s IH]; intros a b; simpl; [discriminate |].
  destruct (Ascii.eqb c "061") eqn:Hc.
  - intros [= <- <-]. apply Ascii.eqb_eq in Hc as ->. by split.
  - destruct (PyStrOps.split_once "061" s) as [[a' b'] |]; [| discriminate].
    intros [= <- <-]. destruct (IH a' b' eq_refl) as [-> Ha]. split; [reflexivity |].
    simpl. unfold not_equals at 1. by rewrite Hc, Ha.
Qed.

Lemma split_once_found s :
  ("=" in_str s) = true -> PyStrOps.split_once "061" s <> None.
Proof.
  induction s as [| c s IH]; [discriminate |]. cbn [PyStr.contains PyStr.startswith].
  simpl PyStrOps.split_once. rewrite Ascii.eqb_sym.
  destruct (Ascii.eqb c "061"); [discriminate |]. simpl. intros H.
  specialize (IH H). by destruct (PyStrOps.split_once "061" s) as [[? ?] |].
Qed.

Lemma parse_vars_exit var variables code :
  parse_vars var variables = inl code ->
  code = 1 /\ exists a, a ∈ var /\ ("=" in_str a) = false.
Proof.
  revert variables. induction var as [| a var IH]; intros variables; simpl; [discriminate |].
  destruct ("=" in_str a) eqn:Heq; simpl.
  - pose proof (split_once_found a Heq) as Hs.
    destruct (PyStrOps.split_once "061" a) as [[n v] |]; [| done].
    intros H. destruct (IH _ H) as (-> & a' & Hin & Ha'). split; [reflexivity |].
    exists a'. split; [by right | exact Ha'].
  - intros [= <-]. split; [reflexivity |]. exists a. split; [left | exact Heq].
Qed.

Lemma parse_vars_bad var variables a :
  a ∈ var -> ("=" in_str a) = false -> parse_vars var variables = inl 1.
Proof.
  revert variables. induction var as [| a0 var IH]; intros variables Hin Ha.
  - by apply elem_of_nil in Hin.
  - simpl. destruct ("=" in_str a0) eqn:Heq; simpl; [| reflexivity].
    apply elem_of_cons in Hin as [-> | Hin]; [congruence |].
    destruct (PyStrOps.split_once "061" a0) as [[n v] |]; [| reflexivity].
    by apply IH.
Qed.

Lemma parse_vars_get var variables parsed k v :
  parse_vars var variables = inr parsed ->
  Dict.get parsed k = Some v ->
  Dict.get variables k = Some v
  \/ exists a name, a ∈ var /\ k = KStr name /\ a = name ++ "=" ++ v
                    /\ all_chars not_equals name = true.
Proof.
  revert variables. induction var as [| a var IH]; intros variables; simpl.
  - intros [= <-]. auto.
  - destruct ("=" in_str a); simpl; [| discriminate].
    destruct (PyStrOps.split_once "061" a) as [[n val] |] eqn:Hs; [| discriminate].
    intros Hp Hget. destruct (IH _ Hp Hget) as [Hv | (a' & name & Hin & H)].
    + rewrite get_set in Hv. destruct (key_eqb (KStr n) k) eqn:Hk; [| by left].
      apply key_eqb_KStr in Hk as ->. injection Hv as ->.
      apply split_once_spec in Hs as [-> Hn]. right. exists (n ++ "=" ++ v), n.
      split; [left | done].
    + right. exists a', name. split; [by right | exact H].
Qed.

Lemma split_once_app name v :
  all_chars not_equals name = true ->
  PyStrOps.split_once "061" (name ++ "=" ++ v) = Some (name, v).
Proof.
  induction name as [| c name IH]; [reflexivity |].
  cbn [all_chars]. intros H. apply andb_true_iff in H as [Hc Hn].
  change (String c name ++ "=" ++ v) with (String c (name ++ "=" ++ v)).
  cbn [PyStrOps.split_once]. unfold not_equals in Hc. apply negb_true_iff in Hc.
  by rewrite Hc, (IH Hn).
Qed.

(** An assignment sets [name] to [v] exactly when it reads [name=v]. *)
Lemma assigned_spec name a v :
  all_chars not_equals name = true ->
  assigned name a = Some v <-> a = name ++ "=" ++ v.
Proof.
  intros Hname. unfold assigned. split.
  - destruct (PyStrOps.split_once "061" a) as [[n v'] |] eqn:Hs; [| discriminate].
    destruct (String.eqb_spec n name) as [-> |]; [| discriminate].
    intros [= ->]. by apply split_once_spec in Hs as [-> _].
  - intros ->. by rewrite (split_once_app _ _ Hname), String.eqb_refl.
Qed.

Lemma omap_nil_Forall {A B : Type} (f : A -> option B) (l : list A) :
  omap f l = [] <-> Forall (fun a => f a = None) l.
Proof.
  induction l as [| x l IH]; simpl; [by split; [constructor |] |].
  destruct (f x) eqn:Hx.
  - split; [discriminate |]. intros H. apply Forall_cons in H as [H _]. congruence.
  - rewrite IH. split; [by constructor | by intros [_ H]%Forall_cons].
Qed.

(** The last value a partial function gives along a list. *)
Lemma last_omap_spec {A B : Type} (f : A -> option B) (l : list A) (v : B) :
  last (omap f l) = Some v
  <-> exists before a after,
        l = (before ++ a :: after)%list /\ f a = Some v
        /\ Forall (fun a' => f a' = None) after.
Proof.
  induction l as [| x l IH].
  - split; [discriminate |]. intros (before & a & after & H & _). by destruct before.
  - assert (Hdec : (exists before a after,
                       x :: l = (before ++ a :: after)%list /\ f a = Some v
                       /\ Forall (fun a' => f a' = None) after)
                   <-> (f x = Some v /\ Forall (fun a' => f a' = None) l)
                       \/ last (omap f l) = Some v).
    { rewrite IH. split.
      - intros (before & a & after & H & Ha & Hafter). destruct before as [| b before].
        + injection H as -> ->. by left.
        + injection H as -> ->. right. by exists before, a, after.
      - intros [[Hx Hl] | (before & a & after & -> & Ha & Hafter)].
        + by exists [], x, l.
        + by exists (x :: before), a, after. }
    rewrite Hdec. cbn [omap list_omap]. destruct (f x) as [y |] eqn:Hx.
    + rewrite last_cons. destruct (last (omap f l)) as [z |] eqn:Hl.
      * split; [by right |]. intros [[_ Hnone] | H]; [| exact H].
        apply omap_nil_Forall in Hnone. by rewrite Hnone in Hl.
      * split.
        -- intros [= ->]. left. split; [reflexivity |].
           apply omap_nil_Forall. by apply last_None.
        -- by intros [[[= ->] _] | ?].
    + split; [by right |]. by intros [[? _] | ?].
Qed.

(** The loop over the assignments, looked up at one name: the last
    assignment of that name decides, and without one the entry is as
    before. *)
Lemma parse_vars_last var variables parsed name :
  parse_vars var variables = inr parsed ->
  Dict.get parsed (KStr name)
  = match last (omap (assigned name) var) with
    | Some v => Some v
    | None => Dict.get variables (KStr name)
    end.
Proof.
  revert variables. induction var as [| a var IH]; intros variables.
  - simpl. by intros [= <-].
  - cbn [parse_vars omap list_omap]. unfold assigned at 1.
    destruct ("=" in_str a); simpl; [| discriminate].
    destruct (PyStrOps.split_once "061" a) as [[n val] |]; [| discriminate].
    intros Hp. rewrite (IH _ Hp), get_set. simpl.
    destruct (String.eqb n name).
    + rewrite last_cons. by destruct (last (omap (assigned name) var)).
    + reflexivity.
Qed.

(** X16. The variables of a run. An assignment without [=] makes the
    script exit with code 1, and nothing else does at this stage.
    Otherwise the dictionary is never empty: it always defines
    [HOSTNAME], as the [--hostname] option when that is given and not
    empty, else as the last [--var HOSTNAME=...], else as the host; every
    other variable that some [--var] assigns is defined, with the value
    of the last assignment of its name, the name being the text before
    the first [=] of an assignment and the value all the text after it;
    and no other variable is defined. *)
Theorem variables_always_define_hostname
    (var : option (list string)) (hostname : option string) (host : string) :
  (forall code,
      build_variables var hostname host = inl code ->
      code = 1 /\ exists a, a ∈ default [] var /\ ("=" in_str a) = false)
  /\ (forall a,
        a ∈ default [] var -> ("=" in_str a) = false ->
        build_variables var hostname host = inl 1)
  /\ (forall variables,
        build_variables var hostname host = inr variables ->
        Dict.nonempty variables = true
        /\ exists parsed,
             parse_vars (default [] var) [] = inr parsed
             /\ Dict.get variables (KStr "HOSTNAME")
                = Some (match hostname with
                        | Some (String c h) => String c h
                        | _ => default host (Dict.get parsed (KStr "HOSTNAME"))
                        end)
             /\ (forall k, key_eqb (KStr "HOSTNAME") k = false ->
                           Dict.get variables k = Dict.get parsed k)
             /\ (forall k v,
                   Dict.get parsed k = Some v ->
                   exists a name,
                     a ∈ default [] var /\ k = KStr name /\ a = name ++ "=" ++ v
                     /\ all_chars not_equals name = true)
             /\ (forall name v,
                   all_chars not_equals name = true ->
                   Dict.get parsed (KStr name) = Some v
                   <-> exists before after,
                         default [] var = (before ++ (name ++ "=" ++ v)%string :: after)%list
                         /\ forall a' v', a' ∈ after -> a' <> name ++ "=" ++ v')).
Proof.
  unfold build_variables. split; [| split].
  - intros code. destruct (parse_vars (default [] var) []) eqn:Hp; [| discriminate].
    intros [= <-]. by apply parse_vars_exit in Hp.
  - intros a Hin Ha. by rewrite (parse_vars_bad _ [] a Hin Ha).
  - intros variables. destruct (parse_vars (default [] var) []) as [| parsed] eqn:Hp;
      [discriminate |].
    intros [= <-].
    set (named := match hostname with
                  | Some (String c h) => Dict.set (KStr "HOSTNAME") (String c h) parsed
                  | _ => parsed
                  end).
    assert (Hnamed : Dict.get named (KStr "HOSTNAME")
                     = match hostname with
                       | Some (String c h) => Some (String c h)
                       | _ => Dict.get parsed (KStr "HOSTNAME")
                       end
                     /\ forall k, key_eqb (KStr "HOSTNAME") k = false ->
                                  Dict.get named k = Dict.get parsed k).
    { unfold named. destruct hostname as [[| c h] |]; try by split.
      split; [by rewrite get_set |]. intros k Hk. by rewrite get_set, Hk. }
    destruct Hnamed as [Hhost Hother].
    assert (Hfinal : Dict.get
                       match Dict.get named (KStr "HOSTNAME") with
                       | Some _ => named
                       | None => Dict.set (KStr "HOSTNAME") host named
                       end (KStr "HOSTNAME")
                     = Some match hostname with
                            | Some (String c h) => String c h
                            | _ => default host (Dict.get parsed (KStr "HOSTNAME"))
                            end
                     /\ forall k, key_eqb (KStr "HOSTNAME") k = false ->
                                  Dict.get
                                    match Dict.get named (KStr "HOSTNAME") with
                                    | Some _ => named
                                    | None => Dict.set (KStr "HOSTNAME") host named
                                    end k
                                  = Dict.get parsed k).
    { destruct (Dict.get named (KStr "HOSTNAME")) as [h0 |] eqn:Hn.
      - split; [| exact Hother]. rewrite Hn, Hhost.
        destruct hostname as [[| c h] |]; try reflexivity;
          by destruct (Dict.get parsed (KStr "HOSTNAME")).
      - split.
        + rewrite get_set. simpl.
          destruct hostname as [[| c h] |]; try discriminate; by rewrite <- Hhost.
        + intros k Hk. rewrite get_set, Hk. by apply Hother. }
    destruct Hfinal as [Hget Hrest]. split.
    + destruct (match Dict.get named (KStr "HOSTNAME") with
                | Some _ => named
                | None => Dict.set (KStr "HOSTNAME") host named
                end); [discriminate | reflexivity].
    + exists parsed. split; [reflexivity |]. split; [exact Hget |].
      split; [exact Hrest |]. split.
      * intros k v Hk.
        destruct (parse_vars_get _ _ _ k v Hp Hk) as [[=] | H]. exact H.
      * intros name v Hname. rewrite (parse_vars_last _ _ _ name Hp). simpl.
        assert (Hlast : match last (omap (assigned name) (default [] var)) with
                        | Some v0 => Some v0
                        | None => None
                        end = Some v
                        <-> last (omap (assigned name) (default [] var)) = Some v).
        { by destruct (last (omap (assigned name) (default [] var))). }
        rewrite Hlast, last_omap_spec. split.
        -- intros (before & a & after & Hvar & Ha & Hafter).
           apply (assigned_spec _ _ _ Hname) in Ha as ->.
           exists before, after. split; [exact Hvar |].
           intros a' v' Hin Heq. rewrite Forall_forall in Hafter.
           specialize (Hafter a' Hin).
           apply (assigned_spec _ _ _ Hname) in Heq. congruence.
        -- intros (before & after & Hvar & Hafter).
           exists before, (name ++ "=" ++ v), after. split; [exact Hvar |].
           split; [by apply assigned_spec |].
           apply Forall_forall. intros a' Hin.
           destruct (assigned name a') as [v' |] eqn:Ha'; [| reflexivity].
           apply (assigned_spec _ _ _ Hname) in Ha'. by destruct (Hafter a' v' Hin).
Qed.

Lemma variables_always_define_hostname_witness :
  build_variables (Some ["ASN=65000"; "bad"]) None "10.0.0.1" = inl 1
  /\ exists variables,
       build_variables (Some ["ASN=65000"; "PEER=10.0.0.2"; "ASN=65001"]) None "10.0.0.1"
       = inr variables
       /\ Dict.get variables (KStr "ASN") = Some "65001"
       /\ Dict.get variables (KStr "HOSTNAME") = Some "10.0.0.1".
Proof.
  split.
  - apply (proj1 (proj2 (variables_always_define_hostname
                           (Some ["ASN=65000"; "bad"]) None "10.0.0.1")) "bad").
    + right. left.
    + reflexivity.
  - assert (Hb : build_variables (Some ["ASN=65000"; "PEER=10.0.0.2"; "ASN=65001"])
                   None "10.0.0.1"
                 = inr [(KStr "ASN", "65001"); (KStr "PEER", "10.0.0.2");
                        (KStr "HOSTNAME", "10.0.0.1")])
      by (vm_compute; reflexivity).
    destruct (proj2 (proj2 (variables_always_define_hostname
                              (Some ["ASN=65000"; "PEER=10.0.0.2"; "ASN=65001"])
                              None "10.0.0.1")) _ Hb)
      as (_ & parsed & Hp & Hhost & Hrest & _ & Hlast).
    eexists. split; [exact Hb |]. split.
    + rewrite (Hrest (KStr "ASN") eq_refl).
      apply (Hlast "ASN" "65001" eq_refl).
      exists ["ASN=65000"; "PEER=10.0.0.2"], []. split; [reflexivity |].
      intros a' v' Hin. by apply elem_of_nil in Hin.
    + reflexivity.
Defined.

(** ** The run of [iosxr_apply_config.py] *)



















(** ** The states of the returned records *)

Lemma status_of_reply_values platform reply :
  status_of_reply platform reply ∈ recorded_states.
Proof.
  unfold status_of_reply, recorded_states. destruct reply as [e | output]; [left |].
  destruct (tag_is platform "cisco_nxos").
  - destruct (nxos_lines_states (PyStr.split_lf output)) as [-> | [-> | ->]];
      repeat (first [left | right]).
  - destruct (xr_lines_states (PyStr.split_lf output)) as [-> | [-> | [-> | ->]]];
      simpl; repeat (first [left | right]).
Qed.

(** X19. No record returned by a device run that ends without error
    message keeps the state [Unknown] it was created with: its state is
    one of [ERROR], [ADMIN_DOWN], [UP], [DOWN], [ADMIN_DOWN/DOWN],
    [UP/UP], [UP/DOWN], [DOWN/DOWN]. *)
Theorem returned_records_have_a_recorded_state `{J : JSON}
    (device_name : string) (device_info : device)
    (name : string) (optics_info : list (pykey * port_record)) (log : list call)
    (k : pykey) (r : port_record) :
  process_device device_name device_info [] = (inr (name, optics_info, None), log) ->
  (k, r) ∈ optics_info ->
  Operational_State r ∈ recorded_states /\ Operational_State r <> "Unknown".
Proof.
  rewrite process_device_cases.
  destruct (connect_raises (remote device_info)); [discriminate |].
  destruct (inventory_command (device_type device_info)) as [command |]; [| discriminate].
  destruct (send_command_reply (remote device_info) [] command); [discriminate |].
  destruct (parse_inventory_output s (device_type device_info)) as [| parsed];
    [discriminate |].
  destruct (disconnect_raises (remote device_info)
              (calls_before_disconnect command parsed)); [discriminate |].
  intros [= <- <- <-] Hin. unfold merged_records in Hin.
  apply list_elem_of_lookup in Hin as [i Hi].
  rewrite lookup_zip_with in Hi.
  destruct (parsed !! i) as [[k0 r0] |]; [| discriminate]. simpl in Hi.
  destruct (status_replies (remote device_info) [SendCommand command] (Dict.keys parsed) !! i)
    as [reply |]; [| discriminate].
  injection Hi as <- <-. simpl.
  pose proof (status_of_reply_values (device_type device_info) reply) as Hv.
  split; [exact Hv |]. intros Heq. rewrite Heq in Hv. unfold recorded_states in Hv.
  repeat (apply elem_of_cons in Hv as [Hv | Hv]; [discriminate |]).
  by apply elem_of_nil in Hv.
Qed.

Lemma returned_records_have_a_recorded_state_witness :
  Operational_State
    {| Description := PyStr "10GBASE-LR SFP+"; PID := PyStr "SFP-10G-LR";
       VID := PyStr "V02"; SN := PyStr "ABC12345678"; Operational_State := "UP/UP" |}
  ∈ recorded_states
  /\ Operational_State
       {| Description := PyStr "10GBASE-LR SFP+"; PID := PyStr "SFP-10G-LR";
          VID := PyStr "V02"; SN := PyStr "ABC12345678"; Operational_State := "UP/UP" |}
     <> "Unknown".
Proof.
  apply (@returned_records_have_a_recorded_state json_ref "core1" xr_router "core1"
           [(KStr "TenGigE0/0/0/1",
             {| Description := PyStr "10GBASE-LR SFP+"; PID := PyStr "SFP-10G-LR";
                VID := PyStr "V02"; SN := PyStr "ABC12345678";
                Operational_State := "UP/UP" |})]
           [SendCommand "show inventory"; SendCommand "show interface TenGigE0/0/0/1";
            Disconnect]
           (KStr "TenGigE0/0/0/1")).
  - vm_compute. reflexivity.
  - left.
Defined.

(** ** [save_backup] *)

(** X20. [save_backup] never raises and always sends
    [show running-config]. It returns the name of the backup file exactly
    when the command is answered, the file opens and the write succeeds,
    and then the file holds the reply. In every other case it returns
    [None]: no file is touched when the command or the opening fails, but
    when the write fails after the file was opened the backup file is
    left behind with what the failed write left in it. *)
Theorem save_backup_writes_the_reply_or_nothing
    (open_raises : string -> option exn)
    (write_raises : string -> string -> string -> option (exn * string))
    (connection : xr_connection) (host : string) (now : Z) (w : world) :
  let filename := backup_filename host now in
  let reply := xr_command_reply connection (calls w) "show running-config" in
  exists backup_file w',
    save_backup open_raises write_raises connection host now w = (inr backup_file, w')
    /\ calls w' = (calls w ++ [Command "show running-config"])%list
    /\ (forall path, path <> filename -> texts w' !! path = texts w !! path)
    /\ (backup_file = Some filename
        <-> exists running_config,
              reply = inr running_config
              /\ open_raises filename = None
              /\ write_raises filename "" running_config = None)
    /\ (backup_file = Some filename \/ backup_file = None)
    /\ (forall running_config,
          backup_file = Some filename -> reply = inr running_config ->
          texts w' = <[filename := running_config]> (texts w))
    /\ ((exists e, reply = inl e) \/ (exists e, open_raises filename = Some e) ->
        texts w' = texts w)
    /\ (forall running_config e kept,
          reply = inr running_config -> open_raises filename = None ->
          write_raises filename "" running_config = Some (e, kept) ->
          backup_file = None /\ texts w' = <[filename := kept]> (texts w)).
Proof.
  cbv zeta.
  unfold save_backup, try_except, bind, xr_send_command, open_w, file_write, ret.
  cbn [calls texts]. fold (backup_filename host now).
  destruct (xr_command_reply connection (calls w) "show running-config")
    as [e | running_config].
  { eexists _, _. split; [reflexivity |]. repeat split; try done; try naive_solver. }
  destruct (open_raises (backup_filename host now)) as [e |].
  { eexists _, _. split; [reflexivity |]. repeat split; try done; try naive_solver. }
  cbn [calls texts]. rewrite lookup_insert_eq. cbn [default]. unfold id.
  destruct (write_raises (backup_filename host now) "" running_config)
    as [[e kept] |] eqn:Hwrite.
  - eexists _, _. split; [reflexivity |]. cbn [calls texts].
    rewrite insert_insert_eq.
    repeat split; try done; try naive_solver.
    intros path Hne. by rewrite lookup_insert_ne.
  - eexists _, _. split; [reflexivity |]. cbn [calls texts].
    rewrite insert_insert_eq.
    repeat split; try done; try naive_solver.
    intros path Hne. by rewrite lookup_insert_ne.
Qed.
